(** * Focus-based context compression: a shallow embedding

    This development embeds the buffer-mutating core of the focus agent
    ([src/agents/focus.py], [src/agents/base.py], [src/agents/baseline.py],
    [src/tools/focus.py], [src/tools/base.py]) and proves properties of the
    truncation, the knowledge preamble, the tagged-string signalling and the
    run loop.

    Python [str] values are modelled as the sequences of Unicode code points
    they are; [list], [dict] and dataclasses become lists and records; the
    agent object becomes an explicit state record threaded through the
    methods.  The language model and the tools other than the two focus tools
    are external collaborators and enter as section variables. *)

From Stdlib Require Import Ascii String DecimalString.
From Stdlib Require Import List Bool Arith NArith ZArith Lia.
From Stdlib Require Import Sorted.
Import ListNotations.

Set Implicit Arguments.

(* ================================================================= *)
(** ** Python strings *)

Module PyStr.

(** A Python [str]: its code points, in order. *)
Definition str := list N.

(** An ASCII literal of the source as a [str]. *)
Definition py (s : string) : str := map N_of_ascii (list_ascii_of_string s).

Definition eqb (a b : str) : bool :=
  if list_eq_dec N.eq_dec a b then true else false.

(** [s.startswith(p)] *)
Fixpoint startswith (s p : str) {struct p} : bool :=
  match p, s with
  | [], _ => true
  | _ :: _, [] => false
  | c :: p', d :: s' => N.eqb c d && startswith s' p'
  end.

(** [s.partition(sep)] for a non-empty [sep]: the text before and after the
    leftmost occurrence of [sep], or [None] when [sep] does not occur. *)
Fixpoint partition (sep s : str) : option (str * str) :=
  if startswith s sep then Some ([], skipn (length sep) s)
  else match s with
       | [] => None
       | c :: s' =>
           match partition sep s' with
           | Some (a, b) => Some (c :: a, b)
           | None => None
           end
       end.

(** [sub in s] *)
Definition contains (sub s : str) : bool :=
  match partition sub s with Some _ => true | None => false end.

(** [s.split(sep, maxsplit)] for a non-empty [sep] and [maxsplit >= 0]:
    leftmost, non-overlapping occurrences, at most [maxsplit] cuts. *)
Fixpoint split (sep : str) (maxsplit : nat) (s : str) : list str :=
  match maxsplit with
  | 0 => [s]
  | S n =>
      match partition sep s with
      | None => [s]
      | Some (a, b) => a :: split sep n b
      end
  end.

(** [s.split(sep)]: no bound on the cuts; a string of [n] code points has at
    most [n] of them. *)
Definition split_all (sep s : str) : list str := split sep (length s) s.

(** [c.isspace()] on one code point (the ASCII table of CPython together with
    the code points of Unicode's White_Space property and the four
    information separators). *)
Definition isspace (c : N) : bool :=
  existsb (N.eqb c)
    [9; 10; 11; 12; 13; 28; 29; 30; 31; 32; 133; 160; 5760;
     8192; 8193; 8194; 8195; 8196; 8197; 8198; 8199; 8200; 8201; 8202;
     8232; 8233; 8239; 8287; 12288]%N.

(** [s.rstrip()] *)
Fixpoint rstrip (s : str) : str :=
  match s with
  | [] => []
  | c :: s' =>
      match rstrip s' with
      | [] => if isspace c then [] else [c]
      | r => c :: r
      end
  end.

(** [sep.join(l)] *)
Fixpoint join (sep : str) (l : list str) : str :=
  match l with
  | [] => []
  | [x] => x
  | x :: l' => x ++ sep ++ join sep l'
  end.

(** [str(n)] for a non-negative [int] and for any [int]. *)
Definition str_of_nat (n : nat) : str := py (NilZero.string_of_uint (Nat.to_uint n)).
Definition str_of_int (z : Z) : str := py (NilZero.string_of_int (Z.to_int z)).

End PyStr.
Import PyStr.

(* ================================================================= *)
(** ** [src/tools/base.py] *)

(** The [arguments] dict of a tool call; the schemas of the focus tools
    declare every parameter a string. *)
Definition Args := list (str * str).

Fixpoint get (k : str) (d : Args) : option str :=
  match d with
  | [] => None
  | (k', v) :: d' => if PyStr.eqb k k' then Some v else get k d'
  end.

Module ToolResult.
Record t := mk {
  success : bool;
  output : str;
  error : option str;
  is_compression : bool  (* Signal that context compression was executed *)
}.
(** [ToolResult(success=.., output=..)] with the declared defaults. *)
Definition make (success : bool) (output : str) : t := mk success output None false.
End ToolResult.

Module Tool.
(** A tool as the agent sees it: its name and its [execute] method, called
    with the [arguments] dict as keywords.
    Tools other than the focus tools act on the workspace, so a call is
    indexed by the number of tool calls made before it; [None] stands for
    an exception raised by the call. *)
Record t := mk {
  name : str;
  execute : nat -> Args -> option ToolResult.t
}.
End Tool.

(** Binding the keywords of [arguments] to a signature: every keyword must be a declared
    parameter and every parameter without a default must be given;
    otherwise Python raises [TypeError]. *)
Definition bind_kwargs (required optional : list str) (args : Args) : bool :=
  forallb (fun kv => existsb (PyStr.eqb (fst kv)) (required ++ optional)) args
  && forallb (fun k => match get k args with Some _ => true | None => false end) required.

(* ================================================================= *)
(** ** [src/tools/focus.py] *)

Module FocusState.
Record t := mk {
  description : str;
  goal : str;
  start_message_index : nat
}.
End FocusState.

(** The signal strings built by the two [execute] methods. *)
Definition focus_start_signal (description goal : str) : str :=
  py "FOCUS_START::" ++ description ++ py "::" ++ goal.

Definition focus_complete_signal (outcome learnings next_action : str) : str :=
  py "FOCUS_COMPLETE::" ++ outcome ++ py "::" ++ learnings ++ py "::" ++ next_action.

Definition StartFocusTool : Tool.t :=
  Tool.mk (py "start_focus")
    (fun _ args =>
       if bind_kwargs [py "description"; py "goal"] [] args then
         match get (py "description") args, get (py "goal") args with
         | Some description, Some goal =>
             Some (ToolResult.make true (focus_start_signal description goal))
         | _, _ => None
         end
       else None).

Definition CompleteFocusTool : Tool.t :=
  Tool.mk (py "complete_focus")
    (fun _ args =>
       if bind_kwargs [py "outcome"; py "learnings"] [py "next_action"] args then
         match get (py "outcome") args, get (py "learnings") args with
         | Some outcome, Some learnings =>
             let next_action :=
               match get (py "next_action") args with Some n => n | None => [] end in
             Some (ToolResult.make true (focus_complete_signal outcome learnings next_action))
         | _, _ => None
         end
       else None).

(** Parse a focus start signal. Returns (description, goal) or None. *)
Definition parse_focus_start (output : str) : option (str * str) :=
  if startswith output (py "FOCUS_START::") then
    match split (py "::") 2 output with
    | [_; p1; p2] => Some (p1, p2)
    | _ => None
    end
  else None.

(** The dict returned by [parse_focus_complete]; its three keys are always
    present. *)
Module FocusData.
Record t := mk {
  outcome : str;
  learnings : str;
  next_action : str
}.
End FocusData.

Definition parse_focus_complete (output : str) : option FocusData.t :=
  if startswith output (py "FOCUS_COMPLETE::") then
    match split (py "::") 3 output with
    | _ :: p1 :: p2 :: rest =>
        Some (FocusData.mk p1 p2 (match rest with p3 :: _ => p3 | [] => [] end))
    | _ => None
    end
  else None.

Definition get_focus_tools : list Tool.t := [StartFocusTool; CompleteFocusTool].

(* ================================================================= *)
(** ** [src/agents/base.py] *)

Inductive MessageRole := SYSTEM | USER | ASSISTANT | TOOL.

Definition role_eqb (a b : MessageRole) : bool :=
  match a, b with
  | SYSTEM, SYSTEM | USER, USER | ASSISTANT, ASSISTANT | TOOL, TOOL => true
  | _, _ => false
  end.

(** One entry of [Message.tool_calls]: the dict with keys id, name,
    arguments. *)
Module ToolCall.
Record t := mk {
  id : str;
  name : str;
  arguments : Args
}.
End ToolCall.

Module Message.
Record t := mk {
  role : MessageRole;
  content : str;
  tool_calls : list ToolCall.t;
  tool_call_id : option str;
  name : option str  (* For tool messages *)
}.
(** [Message(role=.., content=..)] with the declared defaults. *)
Definition make (role : MessageRole) (content : str) : t := mk role content [] None None.
End Message.

(** Snapshot of agent state at a specific step.  The [timestamp] field is a
    wall-clock float and is left out. *)
Module StepSnapshot.
Record t := mk {
  step : nat;
  message_count : nat;
  total_tokens : nat;
  compressions_so_far : nat
}.
End StepSnapshot.

(** Metrics collected during agent execution ([wall_time_seconds], a float,
    is left out). *)
Module AgentMetrics.
Record t := mk {
  total_input_tokens : nat;
  total_output_tokens : nat;
  llm_calls : nat;
  tool_calls : nat;
  compressions : nat;
  messages_dropped : nat;
  trajectory : list StepSnapshot.t
}.
Definition init : t := mk 0 0 0 0 0 0 [].
End AgentMetrics.

(** The dict built by [_metrics_to_dict] of the focus agent (without
    [wall_time_seconds] and the snapshots' timestamps). *)
Module MetricsDict.
Record t := mk {
  total_input_tokens : nat;
  total_output_tokens : nat;
  llm_calls : nat;
  tool_calls : nat;
  compressions : nat;
  messages_dropped : nat;
  message_count : nat;
  trajectory : list StepSnapshot.t;
  knowledge_entries : nat;
  active_focuses : nat
}.
End MetricsDict.

Module TaskResult.
Record t := mk {
  success : bool;
  output : str;
  error : option str;
  metrics : MetricsDict.t
}.
End TaskResult.

(* ================================================================= *)
(** ** [src/agents/focus.py] *)

Definition nl : str := [10%N].

Module KnowledgeEntry.
(** A single learning from a completed focus. *)
Record t := mk {
  focus_description : str;
  focus_goal : str;
  outcome : str;  (* success, partial, blocked, abandoned *)
  learnings : str
}.
End KnowledgeEntry.

(** The mutable attributes of a [FocusAgent]. *)
Record Agent := mkAgent {
  messages : list Message.t;
  metrics : AgentMetrics.t;
  _focus_stack : list FocusState.t;
  _knowledge : list KnowledgeEntry.t
}.

Definition set_messages (self : Agent) (ms : list Message.t) : Agent :=
  mkAgent ms (metrics self) (_focus_stack self) (_knowledge self).

Definition set_metrics (self : Agent) (m : AgentMetrics.t) : Agent :=
  mkAgent (messages self) m (_focus_stack self) (_knowledge self).

(** [reset]: the state a run starts from. *)
Definition reset : Agent := mkAgent [] AgentMetrics.init [] [].

(** Add a message to the conversation history. *)
Definition _add_message (self : Agent) (message : Message.t) : Agent :=
  set_messages self (messages self ++ [message]).

(** [self.metrics.trajectory.append(StepSnapshot(step=.., ...))] *)
Definition record_snapshot (self : Agent) (step : nat) : Agent :=
  let m := metrics self in
  set_metrics self
    (AgentMetrics.mk
       (AgentMetrics.total_input_tokens m) (AgentMetrics.total_output_tokens m)
       (AgentMetrics.llm_calls m) (AgentMetrics.tool_calls m)
       (AgentMetrics.compressions m) (AgentMetrics.messages_dropped m)
       (AgentMetrics.trajectory m ++
          [StepSnapshot.mk step (length (messages self))
             (AgentMetrics.total_input_tokens m + AgentMetrics.total_output_tokens m)
             (AgentMetrics.compressions m)])).

Definition outcome_emoji (outcome : str) : str :=
  match get outcome
          [(py "success", [10003%N]);   (* U+2713 *)
           (py "partial", py "~");
           (py "blocked", [10007%N]);   (* U+2717 *)
           (py "abandoned", [8594%N])]  (* U+2192 *)
  with
  | Some e => e
  | None => py "?"
  end.

(** The lines appended for the entries, [i] being the number of the first. *)
Fixpoint knowledge_lines (i : nat) (entries : list KnowledgeEntry.t) : list str :=
  match entries with
  | [] => []
  | entry :: rest =>
      (py "### " ++ str_of_nat i ++ py ". [" ++ outcome_emoji (KnowledgeEntry.outcome entry)
         ++ py "] " ++ KnowledgeEntry.focus_description entry)
      :: (py "**Goal:** " ++ KnowledgeEntry.focus_goal entry)
      :: (py "**Outcome:** " ++ KnowledgeEntry.outcome entry)
      :: (py "**Learnings:** " ++ KnowledgeEntry.learnings entry)
      :: []
      :: knowledge_lines (S i) rest
  end.

(** Build the persistent knowledge section from accumulated learnings. *)
Definition _build_knowledge_section (self : Agent) : str :=
  match _knowledge self with
  | [] => []
  | _ :: _ =>
      join nl ((py "## KNOWLEDGE (Preserved from previous investigations)" ++ nl)
                 :: knowledge_lines 1 (_knowledge self))
  end.

Definition knowledge_marker : str := py "## KNOWLEDGE".

(** Rebuild messages to include current knowledge section. *)
Definition _rebuild_messages_with_knowledge (self : Agent) : Agent :=
  if length (messages self) <? 2 then self
  else
    match messages self with
    | [] => self
    | m0 :: others =>
        (* Get original system prompt (strip any previous knowledge section) *)
        let system_content := Message.content m0 in
        let system_content :=
          if contains knowledge_marker system_content
          then rstrip (hd [] (split_all knowledge_marker system_content))
          else system_content in
        (* Append new knowledge section *)
        let knowledge_section := _build_knowledge_section self in
        let system_content :=
          match knowledge_section with
          | [] => system_content
          | _ :: _ => system_content ++ nl ++ nl ++ knowledge_section
          end in
        (* Update system message *)
        set_messages self (Message.make SYSTEM system_content :: others)
    end.

(** Handle starting a new focus. *)
Definition _handle_start_focus (self : Agent) (description goal : str) : Agent :=
  let start_index := length (messages self) in
  mkAgent (messages self) (metrics self)
    (_focus_stack self ++ [FocusState.mk description goal start_index])
    (_knowledge self).

Definition min_safe : nat := 2.  (* Keep system + initial task *)

(** The body of the backward walk at index [i]: [Some] of the value
    returned there, [None] to go on with the next index. *)
Definition safe_at (msgs : list Message.t) (i : nat) : option nat :=
  if length msgs <=? i then None
  else
    match nth_error msgs i with
    | None => None
    | Some msg =>
        match Message.role msg with
        | USER => Some (i + 1)  (* Truncate AFTER this message *)
        | TOOL =>
            if (length msgs <=? i + 1)
               || negb (match nth_error msgs (i + 1) with
                        | Some nxt => role_eqb (Message.role nxt) TOOL
                        | None => false
                        end)
            then Some (i + 1)  (* Truncate after the last tool result *)
            else None
        | _ => None
        end
    end.

(** [for i in range(min_safe + d, min_safe - 1, -1)] with the fallback after
    the loop. *)
Fixpoint walk_back (msgs : list Message.t) (d : nat) : nat :=
  match safe_at msgs (min_safe + d) with
  | Some r => r
  | None =>
      match d with
      | 0 => min_safe
      | S d' => walk_back msgs d'
      end
  end.

(** Find a safe truncation point at or before target_index. *)
Definition _find_safe_truncation_point (self : Agent) (target_index : nat) : nat :=
  if target_index <=? min_safe then min_safe
  else walk_back (messages self) (target_index - min_safe).

(** [list.pop()]: the last element and the list without it. *)
Definition pop {A} (l : list A) : option (A * list A) :=
  match rev l with
  | [] => None
  | x :: r => Some (x, rev r)
  end.

Definition no_active_focus : ToolResult.t :=
  ToolResult.mk false [] (Some (py "No active focus to complete. Use start_focus first.")) false.

(** Lines 292-302: pop the current focus and record the knowledge entry. *)
Definition record_learning (self : Agent) (focus : FocusState.t)
    (stack' : list FocusState.t) (focus_data : FocusData.t) : Agent :=
  let entry :=
    KnowledgeEntry.mk (FocusState.description focus) (FocusState.goal focus)
      (FocusData.outcome focus_data) (FocusData.learnings focus_data) in
  mkAgent (messages self) (metrics self) stack' (_knowledge self ++ [entry]).

(** [messages_to_drop = len(self.messages) - safe_point] *)
Definition messages_to_drop (self : Agent) (focus : FocusState.t) : Z :=
  let safe_point := _find_safe_truncation_point self (FocusState.start_message_index focus) in
  (Z.of_nat (length (messages self)) - Z.of_nat safe_point)%Z.

(** Lines 307-320: the truncation and its counters. *)
Definition truncate_to_safe_point (self : Agent) (focus : FocusState.t) : Agent :=
  let safe_point := _find_safe_truncation_point self (FocusState.start_message_index focus) in
  let to_drop := messages_to_drop self focus in
  if (0 <? to_drop)%Z then
    let m := metrics self in
    mkAgent (firstn safe_point (messages self))
      (AgentMetrics.mk
         (AgentMetrics.total_input_tokens m) (AgentMetrics.total_output_tokens m)
         (AgentMetrics.llm_calls m) (AgentMetrics.tool_calls m)
         (AgentMetrics.compressions m + 1)
         (AgentMetrics.messages_dropped m + Z.to_nat to_drop)
         (AgentMetrics.trajectory m))
      (_focus_stack self) (_knowledge self)
  else self.

Definition continuation (focus : FocusState.t) (focus_data : FocusData.t) : str :=
  let next_action := FocusData.next_action focus_data in
  py "Focus completed: " ++ FocusState.description focus ++ nl ++ nl
  ++ py "Outcome: " ++ FocusData.outcome focus_data ++ nl ++ nl
  ++ py "Your learnings have been saved to the KNOWLEDGE section above. " ++ nl ++ nl
  ++ match next_action with
     | [] => py "What would you like to do next?"
     | _ :: _ => py "Next: " ++ next_action
     end.

(** Handle completing a focus - compress messages and preserve learning. *)
Definition _handle_complete_focus (self : Agent) (focus_data : FocusData.t)
  : Agent * ToolResult.t :=
  match pop (_focus_stack self) with
  | None => (self, no_active_focus)
  | Some (focus, stack') =>
      let self1 := record_learning self focus stack' focus_data in
      let to_drop := messages_to_drop self1 focus in
      let self2 := truncate_to_safe_point self1 focus in
      (* Rebuild with updated knowledge *)
      let self3 := _rebuild_messages_with_knowledge self2 in
      (* Track post-compression snapshot (shows the sawtooth drop) *)
      let self4 := record_snapshot self3 (AgentMetrics.llm_calls (metrics self3)) in
      (* Add continuation message *)
      let self5 := _add_message self4 (Message.make USER (continuation focus focus_data)) in
      (self5,
       ToolResult.mk true
         (py "Focus '" ++ FocusState.description focus ++ py "' completed. Dropped "
            ++ str_of_int to_drop
            ++ py " messages. Learnings preserved in KNOWLEDGE section.")
         None true)
  end.

(** The system prompt of [run], an f-string over the workspace path. *)
Definition system_prompt (workspace : str) : str :=
  join nl
    [py "You are an expert software engineer. Your task is to solve the following problem.";
     py "";
     py "Workspace: "]
  ++ workspace ++
  join nl
    [py "";
     py "";
     py "## Tools for Organizing Your Work";
     py "";
     py "You have access to `start_focus` and `complete_focus` tools:";
     py "";
     py "- **start_focus**: Use when beginning a distinct line of investigation or implementation.";
     py "  This helps you organize your work and enables efficient context management.";
     py "  ";
     py "- **complete_focus**: Use when you've finished investigating something. This:";
     py "  - Saves your key learnings to persistent knowledge";
     py "  - Compresses your detailed work (you keep the learnings)";
     py "  - Gives you a fresh context for the next focus";
     py "";
     py "Use these especially when:";
     py "- Exploring unfamiliar parts of the codebase";
     py "- Trying different approaches that might not work out";
     py "- Working on multi-step tasks with distinct phases";
     py "";
     py "## Completing the Task";
     py "";
     py "When you're done with the entire task, respond with TASK_COMPLETE and a summary of what you did.";
     py ""].

Definition TASK_COMPLETE : str := py "TASK_COMPLETE".

(** What one inference call gives back: the text, the requested actions and
    the token usage added to the counters. *)
Module LLMReply.
Record t := mk {
  content : str;
  tool_calls : list ToolCall.t;
  input_tokens : nat;
  output_tokens : nat
}.
End LLMReply.

(** How the batch loop of one step ends. *)
Inductive BatchExit := BatchDone | FocusCompleted | BatchRaised.

(** How one iteration of the step loop ends. *)
Inductive StepExit := Continue | Return (result : TaskResult.t) | Raised.

Section Run.

(** The tools given to the constructor; the agent adds the focus tools. *)
Variable tools : list Tool.t.

(** The inference collaborator: the reply to the [n]-th call on a buffer,
    [None] when the provider raises. *)
Variable llm : nat -> list Message.t -> option LLMReply.t.

Variable max_steps : nat.

Definition all_tools : list Tool.t := tools ++ get_focus_tools.

(** Get a tool by name. *)
Definition _get_tool_by_name (name : str) : option Tool.t :=
  find (fun tool => PyStr.eqb (Tool.name tool) name) all_tools.

Definition count_tool_call (self : Agent) : Agent :=
  let m := metrics self in
  set_metrics self
    (AgentMetrics.mk
       (AgentMetrics.total_input_tokens m) (AgentMetrics.total_output_tokens m)
       (AgentMetrics.llm_calls m) (AgentMetrics.tool_calls m + 1)
       (AgentMetrics.compressions m) (AgentMetrics.messages_dropped m)
       (AgentMetrics.trajectory m)).

(** Execute a tool and return the result ([None]: the tool raised). *)
Definition _execute_tool (self : Agent) (name : str) (arguments : Args)
  : Agent * option ToolResult.t :=
  match _get_tool_by_name name with
  | None =>
      (self, Some (ToolResult.mk false [] (Some (py "Unknown tool: " ++ name)) false))
  | Some tool =>
      (count_tool_call self,
       Tool.execute tool (AgentMetrics.tool_calls (metrics self)) arguments)
  end.

(** Execute a tool with special handling for focus tools. *)
Definition _execute_tool_with_focus (self : Agent) (name : str) (arguments : Args)
    (tool_call_id : str) : Agent * option ToolResult.t :=
  match _execute_tool self name arguments with
  | (self1, None) => (self1, None)
  | (self1, Some result) =>
      if ToolResult.success result
         && negb (PyStr.eqb (ToolResult.output result) [])
      then
        (* Handle start_focus *)
        match parse_focus_start (ToolResult.output result) with
        | Some (description, goal) =>
            (_handle_start_focus self1 description goal,
             Some (ToolResult.make true
                     (py "Focus started: " ++ description ++ nl ++ py "Goal: " ++ goal
                        ++ nl ++ nl ++ py "Proceeding with investigation...")))
        | None =>
            (* Handle complete_focus *)
            match parse_focus_complete (ToolResult.output result) with
            | Some focus_complete =>
                let (self2, r) := _handle_complete_focus self1 focus_complete in
                (self2, Some r)
            | None => (self1, Some result)
            end
        end
      else (self1, Some result)
  end.

(** The tool-result turn appended for a call. *)
Definition tool_message (tool_call : ToolCall.t) (result : ToolResult.t) : Message.t :=
  Message.mk TOOL
    (if ToolResult.success result then ToolResult.output result
     else py "Error: " ++ match ToolResult.error result with
                          | Some e => e
                          | None => py "None"
                          end)
    [] (Some (ToolCall.id tool_call)) (Some (ToolCall.name tool_call)).

(** [for tool_call in response.tool_calls: ...] *)
Fixpoint handle_tool_calls (self : Agent) (calls : list ToolCall.t)
  : Agent * BatchExit :=
  match calls with
  | [] => (self, BatchDone)
  | tool_call :: rest =>
      match _execute_tool_with_focus self (ToolCall.name tool_call)
              (ToolCall.arguments tool_call) (ToolCall.id tool_call) with
      | (self1, None) => (self1, BatchRaised)
      | (self1, Some result) =>
          (* If focus was completed, we've already truncated and added
             continuation message. Don't add tool result - skip to next step. *)
          if ToolResult.is_compression result then (self1, FocusCompleted)
          else handle_tool_calls (_add_message self1 (tool_message tool_call result)) rest
      end
  end.

(** [_call_llm]: counts the call, asks the provider, adds the usage. *)
Definition _call_llm (self : Agent) : Agent * option Message.t :=
  let m := metrics self in
  let counted :=
    set_metrics self
      (AgentMetrics.mk
         (AgentMetrics.total_input_tokens m) (AgentMetrics.total_output_tokens m)
         (AgentMetrics.llm_calls m + 1) (AgentMetrics.tool_calls m)
         (AgentMetrics.compressions m) (AgentMetrics.messages_dropped m)
         (AgentMetrics.trajectory m)) in
  match llm (AgentMetrics.llm_calls m) (messages self) with
  | None => (counted, None)
  | Some reply =>
      (set_metrics self
         (AgentMetrics.mk
            (AgentMetrics.total_input_tokens m + LLMReply.input_tokens reply)
            (AgentMetrics.total_output_tokens m + LLMReply.output_tokens reply)
            (AgentMetrics.llm_calls m + 1) (AgentMetrics.tool_calls m)
            (AgentMetrics.compressions m) (AgentMetrics.messages_dropped m)
            (AgentMetrics.trajectory m)),
       Some (Message.mk ASSISTANT (LLMReply.content reply) (LLMReply.tool_calls reply)
               None None))
  end.

(** Convert metrics to dict, including focus-specific metrics. *)
Definition _metrics_to_dict (self : Agent) : MetricsDict.t :=
  let m := metrics self in
  MetricsDict.mk
    (AgentMetrics.total_input_tokens m) (AgentMetrics.total_output_tokens m)
    (AgentMetrics.llm_calls m) (AgentMetrics.tool_calls m)
    (AgentMetrics.compressions m) (AgentMetrics.messages_dropped m)
    (length (messages self)) (AgentMetrics.trajectory m)
    (length (_knowledge self)) (length (_focus_stack self)).

Definition nudge : Message.t :=
  Message.make USER (py "Continue working on the task. Use tools to make progress.").

(** The body of [for step in range(self.max_steps)]. *)
Definition run_step (self : Agent) (step : nat) : Agent * StepExit :=
  (* Call LLM *)
  match _call_llm self with
  | (self1, None) => (self1, Raised)
  | (self1, Some response) =>
      let self2 := _add_message self1 response in
      (* Track trajectory snapshot after LLM call *)
      let self3 := record_snapshot self2 step in
      (* Check if done *)
      if contains TASK_COMPLETE (Message.content response) then
        (self3, Return (TaskResult.mk true (Message.content response) None
                          (_metrics_to_dict self3)))
      else
        (* Handle tool calls *)
        match Message.tool_calls response with
        | [] => (* No tool calls and not done *)
            (_add_message self3 nudge, Continue)
        | calls =>
            match handle_tool_calls self3 calls with
            | (self4, BatchRaised) => (self4, Raised)
            | (self4, _) => (self4, Continue)
            end
        end
  end.

Definition max_steps_result (self : Agent) : TaskResult.t :=
  TaskResult.mk false (py "Max steps reached without completing task.")
    (Some (py "max_steps_exceeded")) (_metrics_to_dict self).

(** The step loop from step [step] with [remaining] iterations left, and
    the return after it.  [None]: an exception left the run. *)
Fixpoint run_from (self : Agent) (step remaining : nat)
  : Agent * option TaskResult.t :=
  match remaining with
  | 0 => (* Max steps reached *) (self, Some (max_steps_result self))
  | S remaining' =>
      match run_step self step with
      | (self1, Continue) => run_from self1 (S step) remaining'
      | (self1, Return result) => (self1, Some result)
      | (self1, Raised) => (self1, None)
      end
  end.

(** Run the agent with focus-based context management. *)
Definition run (task workspace : str) : Agent * option TaskResult.t :=
  let self := reset in
  let self := _add_message self (Message.make SYSTEM (system_prompt workspace)) in
  let self := _add_message self (Message.make USER task) in
  run_from self 0 max_steps.

End Run.

(* ================================================================= *)
(** ** Specification-side definitions *)

(** *** The tool-pairing invariant

    A left-to-right scan of the buffer that carries the ids still awaiting a
    result.  A tool-result turn must answer one of the awaited ids; any other
    turn is only allowed when nothing is awaited, and an assistant turn then
    awaits the ids of its requested actions. *)

Fixpoint remove_id (i : str) (pending : list str) : option (list str) :=
  match pending with
  | [] => None
  | j :: pending' =>
      if PyStr.eqb i j then Some pending'
      else match remove_id i pending' with
           | Some p => Some (j :: p)
           | None => None
           end
  end.

Definition pairing_step (pending : list str) (m : Message.t) : option (list str) :=
  match Message.role m with
  | TOOL =>
      match Message.tool_call_id m with
      | Some i => remove_id i pending
      | None => None
      end
  | ASSISTANT =>
      match pending with
      | [] => Some (map ToolCall.id (Message.tool_calls m))
      | _ :: _ => None
      end
  | SYSTEM | USER =>
      match pending with
      | [] => Some []
      | _ :: _ => None
      end
  end.

Fixpoint pairing_scan (pending : list str) (msgs : list Message.t) : option (list str) :=
  match msgs with
  | [] => Some pending
  | m :: msgs' =>
      match pairing_step pending m with
      | Some pending' => pairing_scan pending' msgs'
      | None => None
      end
  end.

(** Every assistant turn with requested actions is followed by exactly its
    matching tool-result turns, and no tool-result turn stands elsewhere. *)
Definition tool_pairing (msgs : list Message.t) : Prop :=
  pairing_scan [] msgs = Some [].

(** The same with the last group possibly still being answered: the state of
    the buffer while a batch of actions is processed. *)
Definition tool_pairing_open (msgs : list Message.t) : Prop :=
  exists pending, pairing_scan [] msgs = Some pending.

(** The buffer of a run begins with the system turn and the task turn. *)
Definition initial_turns (msgs : list Message.t) : Prop :=
  exists s u rest,
    msgs = s :: u :: rest /\ Message.role s = SYSTEM /\ Message.role u = USER.

(** *** The safe truncation index, as the specification words it *)

Definition protected_minimum : nat := 2.

(** Index [j] is immediately after a user turn, or immediately after the last
    tool-result turn of a group (the turn at [j], if any, is not itself a
    tool-result). *)
Definition pairing_boundary (msgs : list Message.t) (j : nat) : bool :=
  match j with
  | 0 => false
  | S i =>
      match nth_error msgs i with
      | None => false
      | Some m =>
          match Message.role m with
          | USER => true
          | TOOL =>
              match nth_error msgs j with
              | Some nxt => negb (role_eqb (Message.role nxt) TOOL)
              | None => true
              end
          | _ => false
          end
      end
  end.

(** Scanning backward over the indices [protected_minimum + d], ...,
    [protected_minimum + 1]; the protected minimum when none is a boundary. *)
Fixpoint spec_scan (msgs : list Message.t) (d : nat) : nat :=
  match d with
  | 0 => protected_minimum
  | S d' =>
      if pairing_boundary msgs (protected_minimum + d) then protected_minimum + d
      else spec_scan msgs d'
  end.

Definition spec_safe_index (msgs : list Message.t) (candidate : nat) : nat :=
  spec_scan msgs (candidate - protected_minimum).

(** *** The trajectory and the run *)



(** A property of the agent kept by everything the handling of a tool call
    does to it. *)
Definition batch_stable (P : Agent -> Prop) : Prop :=
  (forall self m, P self -> P (_add_message self m))
  /\ (forall self, P self -> P (count_tool_call self))
  /\ (forall self description goal, P self -> P (_handle_start_focus self description goal))
  /\ (forall self focus_data, P self -> P (fst (_handle_complete_focus self focus_data))).

(** A property kept by every state change of the step loop. *)
Definition run_stable (llm : nat -> list Message.t -> option LLMReply.t)
    (P : Agent -> Prop) : Prop :=
  batch_stable P
  /\ (forall self step, P self -> P (record_snapshot self step))
  /\ (forall self, P self -> P (fst (_call_llm llm self))).

(** The call does not raise, whenever it is made. *)
Definition never_raises (tools : list Tool.t) (call : ToolCall.t) : Prop :=
  forall tool n,
    _get_tool_by_name tools (ToolCall.name call) = Some tool ->
    Tool.execute tool n (ToolCall.arguments call) <> None.

(** The provider always answers, never signals completion and only asks
    for calls that do not raise. *)
Definition keeps_working (tools : list Tool.t)
    (llm : nat -> list Message.t -> option LLMReply.t) : Prop :=
  forall n msgs,
    exists reply,
      llm n msgs = Some reply
      /\ contains TASK_COMPLETE (LLMReply.content reply) = false
      /\ Forall (never_raises tools) (LLMReply.tool_calls reply).

(** The snapshots and inference calls in excess of the completed focuses. *)
Definition step_count (c l : nat) (self : Agent) : Prop :=
  length (AgentMetrics.trajectory (metrics self)) = c + length (_knowledge self)
  /\ AgentMetrics.llm_calls (metrics self) = l.

(** *** Text of the system turn *)

(** [s.split(marker)[0]]: the portion of [s] preceding the marker. *)
Definition before_marker (s : str) : str := hd [] (split_all knowledge_marker s).

(** The text kept from the system turn before the new section is added. *)
Definition kept_text (system_content : str) : str :=
  if contains knowledge_marker system_content
  then rstrip (before_marker system_content)
  else system_content.

(** A field that the [::]-separated encoding carries unchanged when it is
    not the last one: it neither contains [::] nor ends with a colon. *)
Definition separator_free (s : str) : bool :=
  negb (contains (py "::") (s ++ py ":")).

(* ================================================================= *)
(** ** Concrete inputs used by the examples *)

Module Scenario.

Definition ask_start : ToolCall.t :=
  ToolCall.mk (py "c1") (py "start_focus")
    [(py "description", py "A"); (py "goal", py "G")].

Definition ask_complete : ToolCall.t :=
  ToolCall.mk (py "c2") (py "complete_focus")
    [(py "outcome", py "success"); (py "learnings", py "X")].

Definition ask_ls : ToolCall.t :=
  ToolCall.mk (py "c3") (py "ls") [(py "path", py ".")].

Definition system_turn : Message.t := Message.make SYSTEM (system_prompt (py "/w")).
Definition task_turn : Message.t := Message.make USER (py "task").

Definition entry_X : KnowledgeEntry.t :=
  KnowledgeEntry.mk (py "A") (py "G") (py "success") (py "X").

Definition data_X : FocusData.t := FocusData.mk (py "success") (py "X") [].

(** The buffer of a run whose first reply opened focus A and whose second
    reply asks to complete it. *)
Definition opened_then_closed : list Message.t :=
  [system_turn; task_turn;
   Message.mk ASSISTANT [] [ask_start] None None;
   Message.mk TOOL (py "Focus started: A") [] (Some (py "c1")) (Some (py "start_focus"));
   Message.mk ASSISTANT [] [ask_complete] None None].

(** The buffer when one reply asks to open and to complete a focus: the
    result of the first request is in, the second is being handled. *)
Definition opened_and_closed_at_once : Agent :=
  mkAgent
    [system_turn; task_turn;
     Message.mk ASSISTANT [] [ask_start; ask_complete] None None;
     Message.mk TOOL (py "Focus started: A") [] (Some (py "c1")) (Some (py "start_focus"))]
    AgentMetrics.init
    [FocusState.mk (py "A") (py "G") 3]
    [].


(** A paired buffer: one answered request, then plain turns. *)
Definition paired_agent : Agent :=
  mkAgent
    [system_turn; task_turn;
     Message.mk ASSISTANT [] [ask_ls] None None;
     Message.mk TOOL (py "README.md") [] (Some (py "c3")) (Some (py "ls"));
     Message.mk ASSISTANT (py "thinking") [] None None;
     Message.make USER (py "go on")]
    AgentMetrics.init
    [FocusState.mk (py "A") (py "G") 3]
    [].

(** One tool-call/result pair appended to the buffer: the assistant turn
    requesting [call] and the tool-result turn answering it. *)
Definition add_pair (self : Agent) (text : str) (call : ToolCall.t) (result : str)
  : Agent :=
  _add_message
    (_add_message self (Message.mk ASSISTANT text [call] None None))
    (Message.mk TOOL result [] (Some (ToolCall.id call)) (Some (ToolCall.name call))).

(** An agent with no active focus that is asked to complete one. *)
Definition unfocused_agent : Agent :=
  mkAgent [system_turn; task_turn; Message.mk ASSISTANT [] [ask_complete; ask_ls] None None]
    AgentMetrics.init [] [].

(** The system turn after a first splice of one entry. *)
Definition spliced_once : Agent :=
  _rebuild_messages_with_knowledge
    (mkAgent [system_turn; task_turn] AgentMetrics.init [] [entry_X]).

(** A provider whose every reply asks to open and to complete a focus. *)
Definition llm_at_once (n : nat) (msgs : list Message.t) : option LLMReply.t :=
  Some (LLMReply.mk [] [ask_start; ask_complete] 10 5).

(** A provider that never asks for anything. *)
Definition llm_idle (n : nat) (msgs : list Message.t) : option LLMReply.t :=
  Some (LLMReply.mk (py "thinking") [] 10 5).

End Scenario.

(* ================================================================= *)
(** ** Further concrete inputs *)

Module Cases.

(** A tool that hands back its [text] argument, as a shell or a file reader
    hands back what it finds. *)
Definition echo_tool : Tool.t :=
  Tool.mk (py "echo")
    (fun _ args =>
       match get (py "text") args with
       | Some text => Some (ToolResult.make true text)
       | None => None
       end).

Definition ask_echo_start : ToolCall.t :=
  ToolCall.mk (py "c4") (py "echo") [(py "text", py "FOCUS_START::A::G")].

Definition ask_complete_next : ToolCall.t :=
  ToolCall.mk (py "c5") (py "complete_focus")
    [(py "outcome", py "partial"); (py "learnings", py "X"); (py "next_action", py "N")].

(** An agent inside focus A whose buffer has moved on since. *)
Definition outer_agent : Agent :=
  mkAgent
    [Scenario.system_turn; Scenario.task_turn;
     Message.mk ASSISTANT [] [Scenario.ask_start] None None;
     Message.mk TOOL (py "Focus started: A") [] (Some (py "c1")) (Some (py "start_focus"));
     Message.mk ASSISTANT (py "looking") [] None None;
     Message.make USER (py "go on")]
    AgentMetrics.init
    [FocusState.mk (py "A") (py "G") 3]
    [].

(** The same after focus B was opened and one call was answered. *)
Definition inner_agent : Agent :=
  Scenario.add_pair (_handle_start_focus outer_agent (py "B") (py "H"))
    (py "reading") Scenario.ask_ls (py "README.md").

End Cases.

(* ================================================================= *)
(** ** [src/agents/baseline.py] *)

Module Baseline.

(** The system prompt of [BaselineAgent.run]. *)
Definition system_prompt (workspace : str) : str :=
  join nl
    [py "You are an expert software engineer. Your task is to solve the following problem.";
     py "";
     py "Workspace: "]
  ++ workspace ++
  join nl
    [py "";
     py "";
     py "You have access to various tools. Use them to explore the codebase, understand the problem, and implement a solution.";
     py "When you're done, respond with TASK_COMPLETE and a summary of what you did."].

(** The dict built by [BaselineAgent._metrics_to_dict] (without
    [wall_time_seconds] and the snapshots' timestamps). *)
Module MetricsDict.
Record t := mk {
  total_input_tokens : nat;
  total_output_tokens : nat;
  llm_calls : nat;
  tool_calls : nat;
  compressions : nat;
  messages_dropped : nat;
  message_count : nat;
  trajectory : list StepSnapshot.t
}.
End MetricsDict.

(** The [TaskResult] of a baseline run. *)
Module TaskResult.
Record t := mk {
  success : bool;
  output : str;
  error : option str;
  metrics : MetricsDict.t
}.
End TaskResult.

Inductive StepExit := Continue | Return (result : TaskResult.t) | Raised.

Section Run.

(** [self.tools]: the tools given to the constructor. *)
Variable tools : list Tool.t.

Variable llm : nat -> list Message.t -> option LLMReply.t.

Variable max_steps : nat.

(** [Agent._get_tool_by_name] *)
Definition _get_tool_by_name (name : str) : option Tool.t :=
  find (fun tool => PyStr.eqb (Tool.name tool) name) tools.

(** [Agent._execute_tool] ([None]: the tool raised). *)
Definition _execute_tool (self : Agent) (name : str) (arguments : Args)
  : Agent * option ToolResult.t :=
  match _get_tool_by_name name with
  | None =>
      (self, Some (ToolResult.mk false [] (Some (py "Unknown tool: " ++ name)) false))
  | Some tool =>
      (count_tool_call self,
       Tool.execute tool (AgentMetrics.tool_calls (metrics self)) arguments)
  end.

(** The tool-result turn appended for a call. *)
Definition tool_message (tool_call : ToolCall.t) (result : ToolResult.t) : Message.t :=
  Message.mk TOOL
    (if ToolResult.success result then ToolResult.output result
     else py "Error: " ++ match ToolResult.error result with
                          | Some e => e
                          | None => py "None"
                          end)
    [] (Some (ToolCall.id tool_call)) (Some (ToolCall.name tool_call)).

(** [for tool_call in response.tool_calls: ...]; [false] when a tool
    raised. *)
Fixpoint handle_tool_calls (self : Agent) (calls : list ToolCall.t) : Agent * bool :=
  match calls with
  | [] => (self, true)
  | tool_call :: rest =>
      match _execute_tool self (ToolCall.name tool_call) (ToolCall.arguments tool_call) with
      | (self1, None) => (self1, false)
      | (self1, Some result) =>
          handle_tool_calls (_add_message self1 (tool_message tool_call result)) rest
      end
  end.

(** Convert metrics to dict for TaskResult. *)
Definition _metrics_to_dict (self : Agent) : MetricsDict.t :=
  let m := metrics self in
  MetricsDict.mk
    (AgentMetrics.total_input_tokens m) (AgentMetrics.total_output_tokens m)
    (AgentMetrics.llm_calls m) (AgentMetrics.tool_calls m)
    (AgentMetrics.compressions m) (AgentMetrics.messages_dropped m)
    (length (messages self)) (AgentMetrics.trajectory m).

Definition nudge : Message.t :=
  Message.make USER (py "Continue working on the task. Use tools to make progress.").

(** The body of [for step in range(self.max_steps)]. *)
Definition run_step (self : Agent) (step : nat) : Agent * StepExit :=
  (* Call LLM *)
  match _call_llm llm self with
  | (self1, None) => (self1, Raised)
  | (self1, Some response) =>
      let self2 := _add_message self1 response in
      (* Track trajectory snapshot after LLM call *)
      let self3 := record_snapshot self2 step in
      (* Check if done *)
      if contains TASK_COMPLETE (Message.content response) then
        (self3, Return (TaskResult.mk true (Message.content response) None
                          (_metrics_to_dict self3)))
      else
        (* Handle tool calls *)
        match Message.tool_calls response with
        | [] => (* No tool calls and not done - might be stuck *)
            (_add_message self3 nudge, Continue)
        | calls =>
            match handle_tool_calls self3 calls with
            | (self4, false) => (self4, Raised)
            | (self4, true) => (self4, Continue)
            end
        end
  end.

Definition max_steps_result (self : Agent) : TaskResult.t :=
  TaskResult.mk false (py "Max steps reached without completing task.")
    (Some (py "max_steps_exceeded")) (_metrics_to_dict self).

Fixpoint run_from (self : Agent) (step remaining : nat) : Agent * option TaskResult.t :=
  match remaining with
  | 0 => (* Max steps reached *) (self, Some (max_steps_result self))
  | S remaining' =>
      match run_step self step with
      | (self1, Continue) => run_from self1 (S step) remaining'
      | (self1, Return result) => (self1, Some result)
      | (self1, Raised) => (self1, None)
      end
  end.

(** Run the agent on a task.  The base class has no focus stack and no
    ledger; the two fields of the record stay empty. *)
Definition run (task workspace : str) : Agent * option TaskResult.t :=
  let self := reset in
  let self := _add_message self (Message.make SYSTEM (system_prompt workspace)) in
  let self := _add_message self (Message.make USER task) in
  run_from self 0 max_steps.

End Run.

End Baseline.

(** *** Requests to and replies from the Anthropic provider
    ([BaselineAgent._call_anthropic]) *)

Module Anthropic.

(** A content block of a request message. *)
Inductive Block :=
| Text (text : str)
| ToolUse (id name : str) (input : Args)
| ToolResultBlock (tool_use_id : option str) (content : str).

(** The [content] of a request message: a plain string or a list of
    blocks. *)
Inductive Content :=
| Plain (text : str)
| Blocks (blocks : list Block).

Module ApiMessage.
Record t := mk {
  role : str;
  content : Content
}.
End ApiMessage.

(** The loop over [messages]: the system text seen last and the request
    messages collected so far. *)
Definition add_to_request (acc : str * list ApiMessage.t) (msg : Message.t)
  : str * list ApiMessage.t :=
  let (system_content, api_messages) := acc in
  match Message.role msg with
  | SYSTEM => (Message.content msg, api_messages)
  | USER =>
      (system_content,
       api_messages ++ [ApiMessage.mk (py "user") (Plain (Message.content msg))])
  | ASSISTANT =>
      let content :=
        (match Message.content msg with
         | [] => []
         | _ :: _ => [Text (Message.content msg)]
         end)
        ++ map (fun tc => ToolUse (ToolCall.id tc) (ToolCall.name tc) (ToolCall.arguments tc))
             (Message.tool_calls msg) in
      (system_content, api_messages ++ [ApiMessage.mk (py "assistant") (Blocks content)])
  | TOOL =>
      (system_content,
       api_messages ++
         [ApiMessage.mk (py "user")
            (Blocks [ToolResultBlock (Message.tool_call_id msg) (Message.content msg)])])
  end.

(** The [system] and [messages] arguments of the request. *)
Definition request (messages : list Message.t) : str * list ApiMessage.t :=
  fold_left add_to_request messages ([], []).

(** A content block of a reply; blocks of other types carry their type. *)
Inductive ReplyBlock :=
| ReplyText (text : str)
| ReplyToolUse (id name : str) (input : Args)
| ReplyOther (type : str).

(** The loop over [response.content]. *)
Definition add_reply_block (acc : str * list ToolCall.t) (block : ReplyBlock)
  : str * list ToolCall.t :=
  let (text_content, tool_calls) := acc in
  match block with
  | ReplyText text => (text, tool_calls)
  | ReplyToolUse id name input => (text_content, tool_calls ++ [ToolCall.mk id name input])
  | ReplyOther _ => (text_content, tool_calls)
  end.

(** The message built from a reply. *)
Definition parse_reply (blocks : list ReplyBlock) : Message.t :=
  let (text_content, tool_calls) := fold_left add_reply_block blocks ([], []) in
  Message.mk ASSISTANT text_content tool_calls None None.

(** A reply of the client: its blocks and its usage. *)
Module Response.
Record t := mk {
  content : list ReplyBlock;
  input_tokens : nat;
  output_tokens : nat
}.
End Response.

(** [_call_anthropic] as the inference collaborator of the run loops: the
    client answers the [n]-th request, [None] when it raises. *)
Definition provider (client : nat -> str * list ApiMessage.t -> option Response.t)
  : nat -> list Message.t -> option LLMReply.t :=
  fun n messages =>
    match client n (request messages) with
    | None => None
    | Some response =>
        let reply := parse_reply (Response.content response) in
        Some (LLMReply.mk (Message.content reply) (Message.tool_calls reply)
                (Response.input_tokens response) (Response.output_tokens response))
    end.

End Anthropic.

(** *** The pairing rule on a request *)

(** The scan of [pairing_scan] on request messages: an assistant message
    awaits the ids of its tool_use blocks; each is answered by a user
    message holding one tool_result block; a plain user message is only
    allowed when nothing is awaited. *)
Definition api_pairing_step (pending : list str) (m : Anthropic.ApiMessage.t)
  : option (list str) :=
  match Anthropic.ApiMessage.content m with
  | Anthropic.Blocks [Anthropic.ToolResultBlock (Some i) _] =>
      if PyStr.eqb (Anthropic.ApiMessage.role m) (py "user") then remove_id i pending
      else None
  | Anthropic.Blocks blocks =>
      if PyStr.eqb (Anthropic.ApiMessage.role m) (py "assistant") then
        match pending with
        | [] =>
            Some (flat_map (fun b => match b with
                                     | Anthropic.ToolUse i _ _ => [i]
                                     | _ => []
                                     end) blocks)
        | _ :: _ => None
        end
      else None
  | Anthropic.Plain _ =>
      match pending with
      | [] => Some []
      | _ :: _ => None
      end
  end.

Fixpoint api_pairing_scan (pending : list str) (msgs : list Anthropic.ApiMessage.t)
  : option (list str) :=
  match msgs with
  | [] => Some pending
  | m :: msgs' =>
      match api_pairing_step pending m with
      | Some pending' => api_pairing_scan pending' msgs'
      | None => None
      end
  end.

(** The baseline loop only appends turns and only touches the counters of
    tokens and calls and the trajectory. *)
Definition baseline_extends (self self' : Agent) : Prop :=
  (exists more, messages self' = messages self ++ more)
  /\ AgentMetrics.compressions (metrics self') = AgentMetrics.compressions (metrics self)
  /\ AgentMetrics.messages_dropped (metrics self')
     = AgentMetrics.messages_dropped (metrics self)
  /\ _focus_stack self' = _focus_stack self
  /\ _knowledge self' = _knowledge self.

(* ================================================================= *)
(** ** [src/agents/swebench_focus_agent.py] *)

Module SWEFocus.

Definition dq : str := [34%N].  (* the double quote *)

(** Reminder message to inject periodically *)
Definition FOCUS_REMINDER : str :=
  join nl
    [py "REMINDER: You should call `complete_focus` to compress your context and preserve learnings. ";
     py "Your context is growing large. Summarize what you've learned so far and call complete_focus with:";
     py "- outcome: " ++ dq ++ py "success" ++ dq ++ py ", " ++ dq ++ py "partial" ++ dq ++ py ", " ++ dq ++ py "blocked" ++ dq ++ py ", or " ++ dq ++ py "abandoned" ++ dq ++ py "  ";
     py "- learnings: Key facts discovered (file paths, function names, root cause, etc.)";
     py "- next_action: What to do next";
     py "";
     py "Then call start_focus for your next phase of work."].

Definition _reminder_threshold : nat := 15.

(** The agent with the counter of tool calls since the last completed
    focus. *)
Record t := mk {
  agent : Agent;
  _tool_calls_since_focus : nat
}.

(** Build the persistent knowledge section. *)
Definition _build_knowledge_section (self : Agent) : str :=
  match _knowledge self with
  | [] => []
  | _ :: _ =>
      join nl ((nl ++ py "## KNOWLEDGE (Preserved from previous investigations)" ++ nl)
                 :: knowledge_lines 1 (_knowledge self))
  end.

(** Rebuild system message to include current knowledge. *)
Definition _rebuild_messages_with_knowledge (self : Agent) : Agent :=
  if length (messages self) <? 2 then self
  else
    match messages self with
    | [] => self
    | m0 :: others =>
        let system_content := Message.content m0 in
        let system_content :=
          if contains knowledge_marker system_content
          then rstrip (hd [] (split_all knowledge_marker system_content))
          else system_content in
        let knowledge_section := _build_knowledge_section self in
        let system_content :=
          match knowledge_section with
          | [] => system_content
          | _ :: _ => system_content ++ nl ++ knowledge_section
          end in
        set_messages self (Message.make SYSTEM system_content :: others)
    end.

Definition continuation (focus : FocusState.t) (focus_data : FocusData.t) : str :=
  let next_action := FocusData.next_action focus_data in
  py "Focus completed: " ++ FocusState.description focus ++ nl ++ nl
  ++ py "Outcome: " ++ FocusData.outcome focus_data ++ nl ++ nl
  ++ py "Your learnings have been saved to the KNOWLEDGE section above." ++ nl ++ nl
  ++ match next_action with
     | [] => py "What would you like to do next?"
     | _ :: _ => py "Next: " ++ next_action
     end.

(** Handle completing a focus - compress messages and preserve learning. *)
Definition _handle_complete_focus (self : Agent) (focus_data : FocusData.t)
  : Agent * ToolResult.t :=
  match pop (_focus_stack self) with
  | None => (self, no_active_focus)
  | Some (focus, stack') =>
      let self1 := record_learning self focus stack' focus_data in
      let to_drop := messages_to_drop self1 focus in
      let self2 := truncate_to_safe_point self1 focus in
      let self3 := _rebuild_messages_with_knowledge self2 in
      let self4 := record_snapshot self3 (AgentMetrics.llm_calls (metrics self3)) in
      let self5 := _add_message self4 (Message.make USER (continuation focus focus_data)) in
      (self5,
       ToolResult.mk true
         (py "Focus '" ++ FocusState.description focus ++ py "' completed. Dropped "
            ++ str_of_int to_drop ++ py " messages. Learnings preserved.")
         None true)
  end.

(** The dict built by [_metrics_to_dict] (without the float fields). *)
Module MetricsDict.
Record t := mk {
  total_input_tokens : nat;
  total_output_tokens : nat;
  llm_calls : nat;
  tool_calls : nat;
  compressions : nat;
  messages_dropped : nat;
  message_count : nat;
  extended_thinking : bool;
  trajectory : list StepSnapshot.t;
  knowledge_entries : nat;
  active_focuses : nat
}.
End MetricsDict.

Module TaskResult.
Record t := mk {
  success : bool;
  output : str;
  error : option str;
  metrics : MetricsDict.t
}.
End TaskResult.

Inductive StepExit := Continue | Return (result : TaskResult.t) | Raised.

Section Run.

(** The tools of [get_swebench_tools]; the agent adds the focus tools. *)
Variable tools : list Tool.t.

Variable llm : nat -> list Message.t -> option LLMReply.t.

Variable extended_thinking : bool.

(** Execute a tool with special handling for focus tools. *)
Definition _execute_tool_with_focus (self : Agent) (name : str) (arguments : Args)
    (tool_call_id : str) : Agent * option ToolResult.t :=
  match _execute_tool tools self name arguments with
  | (self1, None) => (self1, None)
  | (self1, Some result) =>
      if ToolResult.success result
         && negb (PyStr.eqb (ToolResult.output result) [])
      then
        match parse_focus_start (ToolResult.output result) with
        | Some (description, goal) =>
            (_handle_start_focus self1 description goal,
             Some (ToolResult.make true
                     (py "Focus started: " ++ description ++ nl ++ py "Goal: " ++ goal
                        ++ nl ++ nl ++ py "Proceeding with investigation...")))
        | None =>
            match parse_focus_complete (ToolResult.output result) with
            | Some focus_complete =>
                let (self2, r) := _handle_complete_focus self1 focus_complete in
                (self2, Some r)
            | None => (self1, Some result)
            end
        end
      else (self1, Some result)
  end.

(** [tool_call["name"] not in ("start_focus", "complete_focus")] *)
Definition counted (name : str) : bool :=
  negb (PyStr.eqb name (py "start_focus") || PyStr.eqb name (py "complete_focus")).

(** [for tool_call in response.tool_calls: ...] *)
Fixpoint handle_tool_calls (self : t) (calls : list ToolCall.t) : t * BatchExit :=
  match calls with
  | [] => (self, BatchDone)
  | tool_call :: rest =>
      match _execute_tool_with_focus (agent self) (ToolCall.name tool_call)
              (ToolCall.arguments tool_call) (ToolCall.id tool_call) with
      | (agent1, None) => (mk agent1 (_tool_calls_since_focus self), BatchRaised)
      | (agent1, Some result) =>
          (* If focus was completed, context was compressed *)
          if ToolResult.is_compression result then
            (mk agent1 0 (* Reset counter *), FocusCompleted)
          else
            let agent2 := _add_message agent1 (tool_message tool_call result) in
            (* Track tool calls (excluding focus tools themselves) *)
            let count :=
              if counted (ToolCall.name tool_call)
              then _tool_calls_since_focus self + 1
              else _tool_calls_since_focus self in
            handle_tool_calls (mk agent2 count) rest
      end
  end.

Definition _metrics_to_dict (self : Agent) : MetricsDict.t :=
  let m := metrics self in
  MetricsDict.mk
    (AgentMetrics.total_input_tokens m) (AgentMetrics.total_output_tokens m)
    (AgentMetrics.llm_calls m) (AgentMetrics.tool_calls m)
    (AgentMetrics.compressions m) (AgentMetrics.messages_dropped m)
    (length (messages self)) extended_thinking (AgentMetrics.trajectory m)
    (length (_knowledge self)) (length (_focus_stack self)).

Definition nudge : Message.t :=
  Message.make USER
    (py "Continue working on the task. Use the bash, str_replace_editor, or focus tools to make progress.").

(** The body of [for step in range(self.max_steps)] in [run]. *)
Definition run_step (self : t) (step : nat) : t * StepExit :=
  match _call_llm llm (agent self) with
  | (agent1, None) => (mk agent1 (_tool_calls_since_focus self), Raised)
  | (agent1, Some response) =>
      let agent2 := _add_message agent1 response in
      let agent3 := record_snapshot agent2 step in
      let self3 := mk agent3 (_tool_calls_since_focus self) in
      if contains TASK_COMPLETE (Message.content response) then
        (self3, Return (TaskResult.mk true (Message.content response) None
                          (_metrics_to_dict agent3)))
      else
        match Message.tool_calls response with
        | [] => (* No tool calls and not done *)
            (mk (_add_message agent3 nudge) (_tool_calls_since_focus self), Continue)
        | calls =>
            match handle_tool_calls self3 calls with
            | (self4, BatchRaised) => (self4, Raised)
            | (self4, FocusCompleted) => (self4, Continue)
            | (self4, BatchDone) =>
                (* Inject reminder if too many tool calls without compression *)
                if _reminder_threshold <=? _tool_calls_since_focus self4 then
                  (mk (_add_message (agent self4) (Message.make USER FOCUS_REMINDER))
                     (_tool_calls_since_focus self4),
                   Continue)
                else (self4, Continue)
            end
        end
  end.

End Run.

End SWEFocus.

Module SWECases.

Definition ask_echo_hi : ToolCall.t :=
  ToolCall.mk (py "c6") (py "echo") [(py "text", py "hi")].

(** Fourteen counted calls since the last completed focus. *)
Definition busy_agent : SWEFocus.t := SWEFocus.mk Cases.outer_agent 14.

Definition llm_echo (n : nat) (msgs : list Message.t) : option LLMReply.t :=
  Some (LLMReply.mk (py "next") [ask_echo_hi] 3 1).

End SWECases.

(* ================================================================= *)
(** ** [src/config.py] *)

Module Config.

(** [os.environ] *)
Definition Environ := list (str * str).

(** [environ[k] = v] *)
Fixpoint set_item (k v : str) (environ : Environ) : Environ :=
  match environ with
  | [] => [(k, v)]
  | (k', v') :: rest =>
      if PyStr.eqb k k' then (k, v) :: rest else (k', v') :: set_item k v rest
  end.

Definition DOCKER_HOST : str := py "DOCKER_HOST".

Section Docker.

(** [os.path.exists] and [os.path.expanduser] *)
Variable path_exists : str -> bool.
Variable expanduser : str -> str.

(** Find and return the Docker socket path. *)
Definition get_docker_socket (environ : Environ) : option str :=
  (* Check if DOCKER_HOST is already set *)
  match get DOCKER_HOST environ with
  | Some host =>
      if startswith host (py "unix://") then Some (skipn 7 host)  (* Strip unix:// prefix *)
      else Some host
  | None =>
      (* Check common socket locations *)
      find path_exists
        [py "/var/run/docker.sock";
         expanduser (py "~/.orbstack/run/docker.sock");
         expanduser (py "~/.docker/run/docker.sock");
         py "/run/docker.sock"]
  end.

(** Configure Docker environment variables. *)
Definition setup_docker_env (environ : Environ) : Environ * bool :=
  match get_docker_socket environ with
  | Some (c :: socket) => (set_item DOCKER_HOST (py "unix://" ++ c :: socket) environ, true)
  | _ => (environ, false)
  end.

End Docker.

End Config.

(* ================================================================= *)
(** ** [src/benchmarks/swebench.py] *)

Module SWEBench.

(** A single SWE-bench instance. *)
Module Instance.
Record t := mk {
  instance_id : str;
  repo : str;
  base_commit : str;
  problem_statement : str;
  hints_text : str;
  patch : str;
  test_patch : str
}.
End Instance.

(** The instance built from an item of the dataset; [None] stands for the
    [KeyError] of a missing key. *)
Definition instance_of (item : Args) : option Instance.t :=
  match get (py "instance_id") item, get (py "repo") item, get (py "base_commit") item,
        get (py "problem_statement") item, get (py "patch") item,
        get (py "test_patch") item with
  | Some i, Some r, Some b, Some p, Some pa, Some tp =>
      Some (Instance.mk i r b p
              (match get (py "hints_text") item with Some h => h | None => [] end)
              pa tp)
  | _, _, _, _, _, _ => None
  end.

(** [set(instance_ids) if instance_ids else None] *)
Definition target_set (instance_ids : option (list str)) : option (list str) :=
  match instance_ids with
  | Some (i :: ids) => Some (nodup (list_eq_dec N.eq_dec) (i :: ids))
  | _ => None
  end.

(** [for i, item in enumerate(dataset): ...] with the instances collected so
    far; [None] when a key is missing. *)
Fixpoint load_loop (target_ids : option (list str)) (limit : option Z)
    (dataset : list Args) (instances : list Instance.t) : option (list Instance.t) :=
  match dataset with
  | [] => Some instances
  | item :: rest =>
      let append :=
        match instance_of item with
        | None => None
        | Some instance =>
            let instances' := instances ++ [instance] in
            (* If we found all target IDs, we can stop early *)
            match target_ids with
            | Some ids =>
                if length instances' =? length ids then Some instances'
                else load_loop target_ids limit rest instances'
            | None => load_loop target_ids limit rest instances'
            end
        end in
      match target_ids with
      | Some ids =>
          (* If we are looking for specific IDs, check first *)
          match get (py "instance_id") item with
          | None => None
          | Some i =>
              if existsb (PyStr.eqb i) ids then append
              else load_loop target_ids limit rest instances
          end
      | None =>
          (* Otherwise respect the limit *)
          match limit with
          | Some l =>
              if negb (l =? 0)%Z && (l <=? Z.of_nat (length instances))%Z
              then Some instances
              else append
          | None => append
          end
      end
  end.

(** [load_swebench_lite] on the loaded dataset. *)
Definition load_swebench_lite (dataset : list Args) (limit : option Z)
    (instance_ids : option (list str)) : option (list Instance.t) :=
  load_loop (target_set instance_ids) limit dataset [].

End SWEBench.

(** An item that carries the keys of an instance, and the instance it gives. *)
Definition built (item : Args) (instance : SWEBench.Instance.t) : Prop :=
  SWEBench.instance_of item = Some instance.

(** [instance.instance_id in ids] *)
Definition wanted (ids : list str) (instance : SWEBench.Instance.t) : bool :=
  existsb (PyStr.eqb (SWEBench.Instance.instance_id instance)) ids.

Module LoaderCases.

Definition item (i : str) : Args :=
  [(py "instance_id", i); (py "repo", py "r"); (py "base_commit", py "b");
   (py "problem_statement", py "p"); (py "patch", py "d"); (py "test_patch", py "t")].

Definition instance (i : str) : SWEBench.Instance.t :=
  SWEBench.Instance.mk i (py "r") (py "b") (py "p") [] (py "d") (py "t").

Definition dataset : list Args := [item (py "a"); item (py "b"); item (py "c"); item (py "b")].

Definition instances : list SWEBench.Instance.t :=
  [instance (py "a"); instance (py "b"); instance (py "c"); instance (py "b")].

Definition environ : Config.Environ :=
  [(py "PATH", py "/bin"); (Config.DOCKER_HOST, py "tcp://h:2375")].

End LoaderCases.

(* ================================================================= *)
(** ** The pairing with the results in the order of the requests *)

(** As [pairing_step], but a tool-result turn must answer the first of the
    ids still awaited. *)
Definition ordered_step (pending : list str) (m : Message.t) : option (list str) :=
  match Message.role m with
  | TOOL =>
      match Message.tool_call_id m, pending with
      | Some i, j :: pending' => if PyStr.eqb i j then Some pending' else None
      | _, _ => None
      end
  | ASSISTANT =>
      match pending with
      | [] => Some (map ToolCall.id (Message.tool_calls m))
      | _ :: _ => None
      end
  | SYSTEM | USER =>
      match pending with
      | [] => Some []
      | _ :: _ => None
      end
  end.

Fixpoint ordered_scan (pending : list str) (msgs : list Message.t) : option (list str) :=
  match msgs with
  | [] => Some pending
  | m :: msgs' =>
      match ordered_step pending m with
      | Some pending' => ordered_scan pending' msgs'
      | None => None
      end
  end.

(** Every assistant turn with requested actions is followed by one
    tool-result turn per action, in the order of the requests, and no
    tool-result turn stands elsewhere. *)
Definition tool_pairing_in_order (msgs : list Message.t) : Prop :=
  ordered_scan [] msgs = Some [].

(* ================================================================= *)
(** ** States of a run *)

Module Traces.

(** The agent of a run on the task [task] in the workspace [/w], before the
    first step (lines 131-163). *)
Definition started : Agent :=
  _add_message
    (_add_message reset (Message.make SYSTEM (system_prompt (py "/w"))))
    (Message.make USER (py "task")).

(** Lines 167-179 of a step: the reply is appended and the snapshot taken;
    the requested actions are still to be handled. *)
Definition reply_received (llm : nat -> list Message.t -> option LLMReply.t)
    (self : Agent) (step : nat) : Agent :=
  match _call_llm llm self with
  | (self1, Some response) => record_snapshot (_add_message self1 response) step
  | (self1, None) => self1
  end.

(** The run whose first reply asks to open and to complete a focus, at the
    moment the completion is handled: the first request is answered and the
    second has been executed and counted. *)
Definition completing_at_once : Agent :=
  count_tool_call
    (fst (handle_tool_calls []
            (reply_received Scenario.llm_at_once started 0) [Scenario.ask_start])).

Definition ask_echo (id : str) : ToolCall.t :=
  ToolCall.mk id (py "echo") [(py "text", py "ok")].

(** The provider of the scenario: the first reply opens focus A, each of
    the next three requests one action, the fifth completes the focus with
    outcome success and learnings X. *)
Definition llm_scenario (n : nat) (msgs : list Message.t) : option LLMReply.t :=
  Some (LLMReply.mk []
          (match n with
           | 0 => [Scenario.ask_start]
           | 1 => [ask_echo (py "p1")]
           | 2 => [ask_echo (py "p2")]
           | 3 => [ask_echo (py "p3")]
           | _ => [Scenario.ask_complete]
           end)
          10 5).

(** That run after its first four steps. *)
Definition worked : Agent :=
  fst (run_from [Cases.echo_tool] llm_scenario started 0 4).

(** The same in its fifth step, at the moment the completion is handled. *)
Definition completing_scenario : Agent :=
  count_tool_call (reply_received llm_scenario worked 4).

End Traces.

(* ================================================================= *)
(** ** The definitions on small inputs *)

Example split_at_most_twice :
  split (py "::") 2 (py "FOCUS_START::a::b::c") = [py "FOCUS_START"; py "a"; py "b::c"].
Proof. reflexivity. Qed.

Example split_without_separator : split_all (py "::") (py "abc") = [py "abc"].
Proof. reflexivity. Qed.

Example rstrip_trailing : rstrip (py "ab " ++ nl ++ nl) = py "ab".
Proof. reflexivity. Qed.

Example str_of_numbers : str_of_int (-12) = py "-12" /\ str_of_nat 10 = py "10".
Proof. split; reflexivity. Qed.

Example start_signal_missing_goal :
  Tool.execute StartFocusTool 0 [(py "description", py "A")] = None.
Proof. reflexivity. Qed.

Example knowledge_section_of_one_entry :
  _build_knowledge_section (mkAgent [] AgentMetrics.init [] [Scenario.entry_X])
  = py "## KNOWLEDGE (Preserved from previous investigations)" ++ nl ++ nl
    ++ py "### 1. [" ++ [10003%N] ++ py "] A" ++ nl
    ++ py "**Goal:** G" ++ nl
    ++ py "**Outcome:** success" ++ nl
    ++ py "**Learnings:** X" ++ nl.
Proof. reflexivity. Qed.

Example safe_point_inside_group :
  (* the anchor falls between two results of one batch: back to the minimum *)
  _find_safe_truncation_point
    (mkAgent
       [Scenario.system_turn; Scenario.task_turn;
        Message.mk ASSISTANT [] [Scenario.ask_start; Scenario.ask_ls] None None;
        Message.mk TOOL (py "Focus started: A") [] (Some (py "c1")) (Some (py "start_focus"));
        Message.mk TOOL (py "README.md") [] (Some (py "c3")) (Some (py "ls"));
        Message.mk ASSISTANT [] [Scenario.ask_complete] None None]
       AgentMetrics.init [] [])
    3 = 2.
Proof. reflexivity. Qed.

(* ================================================================= *)
(** ** Lemmas on strings *)

Unset Implicit Arguments.

Section StringLemmas.

Lemma eqb_eq (a b : str) : PyStr.eqb a b = true <-> a = b.
Proof.
  unfold PyStr.eqb. destruct (list_eq_dec N.eq_dec a b); split; congruence.
Qed.

Lemma eqb_refl (a : str) : PyStr.eqb a a = true.
Proof. now apply eqb_eq. Qed.

Lemma startswith_app (p s : str) : startswith (p ++ s) p = true.
Proof.
  induction p as [|c p IH]; simpl; [reflexivity|].
  now rewrite N.eqb_refl, IH.
Qed.

Lemma startswith_nil_r (s : str) : startswith s [] = true.
Proof. now destruct s. Qed.

(** A prefix match that reaches into the text after [a] needs the code
    point that follows [a]. *)
Lemma startswith_app_notin (m a r : str) (c : N) :
  ~ In c m -> startswith (a ++ c :: r) m = true -> startswith a m = true.
Proof.
  revert a. induction m as [|h m IH]; intros a Hc H.
  - apply startswith_nil_r.
  - destruct a as [|x a]; simpl in *.
    + apply andb_true_iff in H as [H _]. apply N.eqb_eq in H.
      exfalso. apply Hc. now left.
    + apply andb_true_iff in H as [H1 H2]. rewrite H1. simpl.
      apply IH; [|exact H2]. intro Hin. apply Hc. now right.
Qed.

Lemma startswith_app_l (l m t : str) :
  startswith l m = true -> startswith (l ++ t) m = true.
Proof.
  revert l. induction m as [|h m IH]; intros l H; [reflexivity|].
  destruct l as [|x l]; simpl in *; [discriminate|].
  apply andb_true_iff in H as [H1 H2]. rewrite H1. simpl. now apply IH.
Qed.

Lemma startswith_eq (l m : str) :
  startswith l m = true -> l = m ++ skipn (length m) l.
Proof.
  revert l. induction m as [|h m IH]; intros l H; [reflexivity|].
  destruct l as [|x l]; simpl in *; [discriminate|].
  apply andb_true_iff in H as [H1 H2]. apply N.eqb_eq in H1. subst.
  f_equal. now apply IH.
Qed.

Lemma partition_unfold (sep s : str) :
  partition sep s =
  if startswith s sep then Some ([], skipn (length sep) s)
  else match s with
       | [] => None
       | c :: s' =>
           match partition sep s' with
           | Some (a, b) => Some (c :: a, b)
           | None => None
           end
       end.
Proof. destruct s; reflexivity. Qed.

Lemma partition_here (sep rest : str) :
  partition sep (sep ++ rest) = Some ([], rest).
Proof.
  rewrite partition_unfold, startswith_app.
  now rewrite skipn_app, skipn_all, Nat.sub_diag.
Qed.

Lemma contains_cons_false (sub s : str) (c : N) :
  contains sub (c :: s) = false ->
  startswith (c :: s) sub = false /\ contains sub s = false.
Proof.
  unfold contains. rewrite (partition_unfold sub (c :: s)).
  destruct (startswith (c :: s) sub); [discriminate|].
  destruct (partition sub s) as [[a b]|]; [discriminate|]. auto.
Qed.

(** Python's [x in a + x + b]. *)
Lemma contains_app (x a b : str) : contains x (a ++ x ++ b) = true.
Proof.
  unfold contains. induction a as [|c a IH]; simpl app.
  - now rewrite partition_here.
  - rewrite partition_unfold.
    destruct (startswith (c :: a ++ x ++ b) x); [reflexivity|].
    destruct (partition x (a ++ x ++ b)) as [[u v]|]; [reflexivity|discriminate].
Qed.

(** No occurrence in a text, none in its prefixes. *)
Lemma contains_prefix_false (m a b : str) :
  m <> [] -> contains m (a ++ b) = false -> contains m a = false.
Proof.
  intros Hm. induction a as [|c a IH]; intros H.
  - unfold contains. rewrite partition_unfold.
    destruct m; [congruence|reflexivity].
  - simpl in H. apply contains_cons_false in H as [H1 H2].
    unfold contains. rewrite partition_unfold.
    assert (Hs : startswith (c :: a) m = false).
    { destruct (startswith (c :: a) m) eqn:E; [|reflexivity].
      apply (startswith_app_l _ _ b) in E. simpl in E. congruence. }
    rewrite Hs. specialize (IH H2). unfold contains in IH.
    destruct (partition m a) as [[u v]|]; [discriminate|reflexivity].
Qed.

(** Searching past a text without occurrence, followed by a code point
    that the pattern does not have. *)
Lemma partition_skip (m a r : str) (c : N) :
  m <> [] -> ~ In c m -> contains m a = false ->
  partition m (a ++ c :: r) =
  match partition m r with
  | Some (x, y) => Some (a ++ c :: x, y)
  | None => None
  end.
Proof.
  intros Hm Hc. induction a as [|x a IH]; intros Ha.
  - simpl app. rewrite partition_unfold.
    destruct m as [|h m]; [congruence|].
    assert (Hh : N.eqb h c = false).
    { apply N.eqb_neq. intro E. apply Hc. now left. }
    simpl. rewrite Hh. simpl. reflexivity.
  - apply contains_cons_false in Ha as [H1 H2].
    simpl app. rewrite partition_unfold.
    destruct (startswith (x :: a ++ c :: r) m) eqn:E.
    + apply (startswith_app_notin m (x :: a) r c Hc) in E. congruence.
    + rewrite (IH H2). now destruct (partition m r) as [[u v]|].
Qed.

(** [partition] cuts the text at an occurrence of the separator. *)
Lemma partition_sound (m s a b : str) :
  partition m s = Some (a, b) -> s = a ++ m ++ b.
Proof.
  revert a. induction s as [|c s IH]; intros a H;
    rewrite partition_unfold in H.
  - destruct (startswith [] m) eqn:F; [|discriminate].
    inversion H; subst. now apply startswith_eq.
  - destruct (startswith (c :: s) m) eqn:F.
    + inversion H; subst. now apply startswith_eq.
    + destruct (partition m s) as [[u v]|] eqn:P; [|discriminate].
      inversion H; subst. simpl. f_equal. now apply IH.
Qed.

(** The part before the leftmost occurrence has no occurrence. *)
Lemma partition_before_clean (m s a b : str) :
  m <> [] -> partition m s = Some (a, b) -> contains m a = false.
Proof.
  intros Hm. revert a. induction s as [|c s IH]; intros a H.
  - rewrite partition_unfold in H. destruct m; [congruence|discriminate].
  - rewrite partition_unfold in H.
    destruct (startswith (c :: s) m) eqn:E.
    + inversion H; subst. unfold contains. rewrite partition_unfold.
      destruct m; [congruence|reflexivity].
    + destruct (partition m s) as [[u v]|] eqn:P; [|discriminate].
      inversion H; subst a v. specialize (IH _ eq_refl).
      unfold contains. rewrite partition_unfold.
      assert (Hs : startswith (c :: u) m = false).
      { destruct (startswith (c :: u) m) eqn:E'; [|reflexivity].
        apply partition_sound in P. subst s.
        apply (startswith_app_l _ _ (m ++ b)) in E'.
        simpl in E'. congruence. }
      rewrite Hs. unfold contains in IH.
      destruct (partition m u) as [[p q]|]; [discriminate|reflexivity].
Qed.

(** [s.split(sep)[0]] through [partition]. *)
Lemma split_all_head (sep s : str) :
  hd [] (split_all sep s) =
  match partition sep s with
  | Some (a, _) => a
  | None => s
  end.
Proof.
  unfold split_all. destruct s as [|c s].
  - simpl. destruct (startswith [] sep); reflexivity.
  - change (split sep (length (c :: s)) (c :: s)) with
      (match partition sep (c :: s) with
       | None => [c :: s]
       | Some (a, b) => a :: split sep (length s) b
       end).
    destruct (partition sep (c :: s)) as [[a b]|]; reflexivity.
Qed.

Lemma rstrip_app_space (s w : str) :
  forallb isspace w = true -> rstrip (s ++ w) = rstrip s.
Proof.
  intros Hw.
  assert (Hn : rstrip w = []).
  { induction w as [|c w IH]; [reflexivity|].
    simpl in Hw. apply andb_true_iff in Hw as [H1 H2].
    simpl rstrip. rewrite (IH H2), H1. reflexivity. }
  induction s as [|c s IH]; simpl app; [exact Hn|].
  simpl rstrip. now rewrite IH.
Qed.

(** [rstrip] only removes a run of whitespace at the end. *)
Lemma rstrip_prefix (s : str) :
  exists w, s = rstrip s ++ w /\ forallb isspace w = true.
Proof.
  induction s as [|c s (w & E & Hw)].
  - now exists [].
  - simpl rstrip. destruct (rstrip s) as [|d r] eqn:R.
    + destruct (isspace c) eqn:Hc.
      * exists (c :: w). simpl in *. rewrite Hc, Hw.
        split; [congruence|reflexivity].
      * exists w. simpl in *. split; congruence.
    + exists w. split; [|exact Hw]. simpl. now rewrite E at 1.
Qed.

Lemma rstrip_idempotent (s : str) : rstrip (rstrip s) = rstrip s.
Proof.
  induction s as [|c s IH]; [reflexivity|].
  simpl rstrip. destruct (rstrip s) as [|d r] eqn:R.
  - destruct (isspace c) eqn:Hc; [reflexivity|]. simpl. now rewrite Hc.
  - change (rstrip (c :: d :: r)) with
      (match rstrip (d :: r) with
       | [] => if isspace c then [] else [c]
       | x => c :: x
       end).
    rewrite IH. reflexivity.
Qed.

End StringLemmas.

(* ================================================================= *)
(** ** The tagged-string signals of the focus tools *)

Section Signals.

(** The leftmost [::] of [a ++ "::" ++ b] is the inserted one as soon as
    [a] is separator-free. *)
Lemma partition_separator_free (a b : str) :
  separator_free a = true ->
  partition (py "::") (a ++ py "::" ++ b) = Some (a, b).
Proof.
  unfold separator_free. rewrite negb_true_iff.
  induction a as [|c a IH]; intros H.
  - exact (partition_here (py "::") b).
  - change ((c :: a) ++ py ":") with (c :: (a ++ py ":")) in H.
    apply contains_cons_false in H as [H1 H2].
    change ((c :: a) ++ py "::" ++ b) with (c :: (a ++ py "::" ++ b)).
    rewrite partition_unfold.
    assert (Hs : startswith (c :: (a ++ py "::" ++ b)) (py "::") = false).
    { clear - H1. destruct a; exact H1. }
    rewrite Hs, (IH H2). reflexivity.
Qed.

Lemma parse_focus_start_signal (description goal : str) :
  separator_free description = true ->
  parse_focus_start (focus_start_signal description goal) = Some (description, goal).
Proof.
  intros Hd. unfold parse_focus_start, focus_start_signal.
  rewrite startswith_app.
  change (py "FOCUS_START::" ++ description ++ py "::" ++ goal)
    with (py "FOCUS_START" ++ py "::" ++ (description ++ py "::" ++ goal)).
  cbn [split].
  rewrite (partition_separator_free (py "FOCUS_START")) by reflexivity.
  rewrite (partition_separator_free description goal Hd).
  reflexivity.
Qed.

Lemma parse_focus_complete_signal (outcome learnings next_action : str) :
  separator_free outcome = true ->
  separator_free learnings = true ->
  parse_focus_complete (focus_complete_signal outcome learnings next_action)
  = Some (FocusData.mk outcome learnings next_action).
Proof.
  intros Ho Hl. unfold parse_focus_complete, focus_complete_signal.
  rewrite startswith_app.
  change (py "FOCUS_COMPLETE::" ++ outcome ++ py "::" ++ learnings ++ py "::" ++ next_action)
    with (py "FOCUS_COMPLETE" ++ py "::"
            ++ (outcome ++ py "::" ++ (learnings ++ py "::" ++ next_action))).
  cbn [split].
  rewrite (partition_separator_free (py "FOCUS_COMPLETE")) by reflexivity.
  rewrite (partition_separator_free outcome _ Ho).
  rewrite (partition_separator_free learnings _ Hl).
  reflexivity.
Qed.

End Signals.

(** C9 (as amended).  The signal written by [StartFocusTool.execute] is
    parsed back by [parse_focus_start] into exactly (description, goal), and
    the one written by [CompleteFocusTool.execute] is parsed back by
    [parse_focus_complete] into exactly the three fields, whenever every
    field but the last of the signal is separator-free (it neither contains
    [::] nor ends with a colon); the last field is arbitrary. *)
Theorem focus_signal_round_trip :
  forall (n : nat) (description goal outcome learnings next_action : str),
    separator_free description = true ->
    separator_free outcome = true ->
    separator_free learnings = true ->
    (exists r,
        Tool.execute StartFocusTool n
          [(py "description", description); (py "goal", goal)] = Some r
        /\ ToolResult.success r = true
        /\ parse_focus_start (ToolResult.output r) = Some (description, goal))
    /\
    (exists r,
        Tool.execute CompleteFocusTool n
          [(py "outcome", outcome); (py "learnings", learnings);
           (py "next_action", next_action)] = Some r
        /\ ToolResult.success r = true
        /\ parse_focus_complete (ToolResult.output r)
           = Some (FocusData.mk outcome learnings next_action)).
Proof.
  intros n description goal outcome learnings next_action Hd Ho Hl. split.
  - exists (ToolResult.make true (focus_start_signal description goal)).
    repeat split. now apply parse_focus_start_signal.
  - exists (ToolResult.make true (focus_complete_signal outcome learnings next_action)).
    repeat split. now apply parse_focus_complete_signal.
Qed.

Lemma focus_signal_round_trip_witness :
  (exists r,
      Tool.execute StartFocusTool 0
        [(py "description", py "Investigate config: loading"); (py "goal", py "a::b")] = Some r
      /\ ToolResult.success r = true
      /\ parse_focus_start (ToolResult.output r)
         = Some (py "Investigate config: loading", py "a::b"))
  /\
  (exists r,
      Tool.execute CompleteFocusTool 0
        [(py "outcome", py "success"); (py "learnings", py "keys are in .env");
         (py "next_action", py "fix::now")] = Some r
      /\ ToolResult.success r = true
      /\ parse_focus_complete (ToolResult.output r)
         = Some (FocusData.mk (py "success") (py "keys are in .env") (py "fix::now"))).
Proof.
  apply (focus_signal_round_trip 0); reflexivity.
Defined.

(** C9 as stated fails: a description, or learnings, containing [::] comes
    back cut at that place, the rest pushed into the next field. *)
Lemma focus_signal_ambiguous :
  (exists r,
      Tool.execute StartFocusTool 0
        [(py "description", py "a::b"); (py "goal", py "g")] = Some r
      /\ parse_focus_start (ToolResult.output r) = Some (py "a", py "b::g")
      /\ parse_focus_start (ToolResult.output r) <> Some (py "a::b", py "g"))
  /\
  (exists r,
      Tool.execute CompleteFocusTool 0
        [(py "outcome", py "success"); (py "learnings", py "see a::b");
         (py "next_action", py "go")] = Some r
      /\ parse_focus_complete (ToolResult.output r)
         = Some (FocusData.mk (py "success") (py "see a") (py "b::go"))
      /\ parse_focus_complete (ToolResult.output r)
         <> Some (FocusData.mk (py "success") (py "see a::b") (py "go"))).
Proof.
  split; eexists; (split; [reflexivity|]); split;
    try (vm_compute; reflexivity); vm_compute; discriminate.
Qed.

(* ================================================================= *)
(** ** The knowledge preamble *)

(** C7.  The rendering of the knowledge preamble depends on the ledger's
    contents only: two agent states holding the same ordered list of
    entries render byte-identical text, whatever their buffers, stacks and
    counters. *)
Theorem knowledge_section_pure :
  forall self1 self2 : Agent,
    _knowledge self1 = _knowledge self2 ->
    _build_knowledge_section self1 = _build_knowledge_section self2.
Proof.
  intros self1 self2 H. unfold _build_knowledge_section. now rewrite H.
Qed.

Lemma knowledge_section_pure_witness :
  _build_knowledge_section (mkAgent [] AgentMetrics.init [] [Scenario.entry_X])
  = _build_knowledge_section Scenario.spliced_once.
Proof.
  apply (knowledge_section_pure
           (mkAgent [] AgentMetrics.init [] [Scenario.entry_X]) Scenario.spliced_once).
  reflexivity.
Defined.

Section Splice.

Lemma marker_not_nil : knowledge_marker <> [].
Proof. discriminate. Qed.

Lemma nl_not_in_marker : ~ In 10%N knowledge_marker.
Proof.
  vm_compute. intros H.
  repeat (destruct H as [H|H]; [discriminate H|]). exact H.
Qed.

Lemma before_marker_clean (s : str) :
  contains knowledge_marker (before_marker s) = false.
Proof.
  unfold before_marker. rewrite split_all_head.
  destruct (partition knowledge_marker s) as [[a b]|] eqn:P.
  - exact (partition_before_clean _ _ _ _ marker_not_nil P).
  - unfold contains. now rewrite P.
Qed.

Lemma before_marker_id (s : str) :
  contains knowledge_marker s = false -> before_marker s = s.
Proof.
  unfold contains, before_marker. rewrite split_all_head.
  now destruct (partition knowledge_marker s) as [[a b]|].
Qed.

Lemma kept_text_clean (s : str) : contains knowledge_marker (kept_text s) = false.
Proof.
  unfold kept_text. destruct (contains knowledge_marker s) eqn:C; [|exact C].
  destruct (rstrip_prefix (before_marker s)) as (w & E & _).
  apply (contains_prefix_false _ _ w marker_not_nil).
  rewrite <- E. apply before_marker_clean.
Qed.

Lemma rstrip_kept_text (s : str) :
  rstrip (kept_text s) = rstrip (before_marker s).
Proof.
  unfold kept_text. destruct (contains knowledge_marker s) eqn:C.
  - apply rstrip_idempotent.
  - now rewrite before_marker_id.
Qed.

Lemma before_marker_appended (t rest : str) :
  contains knowledge_marker t = false ->
  before_marker (t ++ nl ++ nl ++ knowledge_marker ++ rest) = t ++ nl ++ nl.
Proof.
  intros Ht. unfold before_marker. rewrite split_all_head.
  change (t ++ nl ++ nl ++ knowledge_marker ++ rest)
    with (t ++ 10%N :: ([] ++ 10%N :: (knowledge_marker ++ rest))).
  rewrite (partition_skip _ _ _ _ marker_not_nil nl_not_in_marker Ht).
  rewrite (partition_skip _ [] _ _ marker_not_nil nl_not_in_marker) by reflexivity.
  rewrite partition_here. reflexivity.
Qed.

(** A non-empty ledger renders to a text that begins with the marker. *)
Lemma knowledge_section_marker (self : Agent) :
  _knowledge self <> [] ->
  exists rest, _build_knowledge_section self = knowledge_marker ++ rest.
Proof.
  unfold _build_knowledge_section. destruct (_knowledge self) as [|e l]; [congruence|].
  intros _. eexists. cbn [knowledge_lines join]. reflexivity.
Qed.

Lemma knowledge_section_nil (self : Agent) :
  _build_knowledge_section self = [] -> _knowledge self = [].
Proof.
  intros H. destruct (_knowledge self) as [|e l] eqn:K; [reflexivity|].
  destruct (knowledge_section_marker self) as (rest & E); [congruence|].
  rewrite E in H. discriminate H.
Qed.

End Splice.

(** C6 (as amended).  On a buffer of at least two turns the splice replaces
    the first turn by a system turn whose text is the kept text followed,
    when the ledger is not empty, by a blank line and the freshly rendered
    preamble; the kept text is the whole former text when it has no marker
    and otherwise the portion preceding the first marker with its trailing
    whitespace stripped.  So the portion preceding the marker survives every
    splice up to trailing whitespace, and every turn but the first, as well
    as the ledger, the stack and the counters, is left as it was. *)
Theorem splice_keeps_system_text :
  forall (self : Agent) (m0 m1 : Message.t) (others : list Message.t),
    messages self = m0 :: m1 :: others ->
    exists m0',
      messages (_rebuild_messages_with_knowledge self) = m0' :: m1 :: others
      /\ Message.role m0' = SYSTEM
      /\ Message.content m0' =
           (if contains knowledge_marker (Message.content m0)
            then rstrip (before_marker (Message.content m0))
            else Message.content m0)
           ++ match _build_knowledge_section self with
              | [] => []
              | _ :: _ => nl ++ nl ++ _build_knowledge_section self
              end
      /\ rstrip (before_marker (Message.content m0'))
         = rstrip (before_marker (Message.content m0))
      /\ metrics (_rebuild_messages_with_knowledge self) = metrics self
      /\ _focus_stack (_rebuild_messages_with_knowledge self) = _focus_stack self
      /\ _knowledge (_rebuild_messages_with_knowledge self) = _knowledge self.
Proof.
  intros self m0 m1 others Hm.
  unfold _rebuild_messages_with_knowledge. rewrite Hm.
  change (length (m0 :: m1 :: others) <? 2) with false. cbv iota.
  fold (before_marker (Message.content m0)).
  fold (kept_text (Message.content m0)).
  eexists. split; [reflexivity|]. split; [reflexivity|].
  cbn [messages metrics _focus_stack _knowledge set_messages Message.content Message.make].
  split; [|split; [|repeat split]].
  - destruct (_build_knowledge_section self); [now rewrite app_nil_r|reflexivity].
  - destruct (_build_knowledge_section self) as [|c ks] eqn:K.
    + rewrite before_marker_id by apply kept_text_clean. apply rstrip_kept_text.
    + destruct (knowledge_section_marker self) as (rest & E).
      { intro Hk. unfold _build_knowledge_section in K. rewrite Hk in K. discriminate. }
      rewrite <- K, E, before_marker_appended by apply kept_text_clean.
      rewrite (rstrip_app_space _ (nl ++ nl)) by reflexivity.
      apply rstrip_kept_text.
Qed.

Lemma splice_keeps_system_text_witness :
  exists m0',
    messages (_rebuild_messages_with_knowledge Scenario.spliced_once)
    = m0' :: Scenario.task_turn :: []
    /\ Message.role m0' = SYSTEM
    /\ rstrip (before_marker (Message.content m0'))
       = rstrip (before_marker (system_prompt (py "/w") ++ nl ++ nl
                                  ++ _build_knowledge_section Scenario.spliced_once)).
Proof.
  destruct (splice_keeps_system_text Scenario.spliced_once
              (Message.make SYSTEM
                 (system_prompt (py "/w") ++ nl ++ nl
                    ++ _build_knowledge_section Scenario.spliced_once))
              Scenario.task_turn [] eq_refl)
    as (m0' & H1 & H2 & _ & H4 & _).
  exists m0'. repeat split; assumption.
Defined.

(** C6 as stated fails: the text preceding the marker does not come through
    a second splice unchanged.  After a first splice the system prompt of
    [run], which ends with a newline, is followed by the blank line and the
    preamble; the second splice strips those newlines and the prompt's own
    before it adds the blank line again. *)
Lemma splice_strips_whitespace :
  exists m0 m0',
    messages Scenario.spliced_once = [m0; Scenario.task_turn]
    /\ messages (_rebuild_messages_with_knowledge Scenario.spliced_once)
       = [m0'; Scenario.task_turn]
    /\ startswith (Message.content m0') (before_marker (Message.content m0)) = false
    /\ before_marker (Message.content m0') <> before_marker (Message.content m0).
Proof.
  eexists. eexists. split; [reflexivity|]. split; [reflexivity|].
  split; [vm_compute; reflexivity|].
  vm_compute. discriminate.
Qed.

(* ================================================================= *)
(** ** The safe truncation point *)

Section SafePoint.

Lemma pairing_scan_app (pending : list str) (a b : list Message.t) :
  pairing_scan pending (a ++ b) =
  match pairing_scan pending a with
  | Some q => pairing_scan q b
  | None => None
  end.
Proof.
  revert pending. induction a as [|m a IH]; intros pending; simpl; [reflexivity|].
  destruct (pairing_step pending m); [apply IH|reflexivity].
Qed.

(** A turn that is no tool result can only be scanned with nothing
    awaited. *)
Lemma pairing_step_not_tool (pending q : list str) (m : Message.t) :
  Message.role m <> TOOL -> pairing_step pending m = Some q -> pending = [].
Proof.
  unfold pairing_step. intros Hr H.
  destruct (Message.role m); [| | |congruence]; now destruct pending.
Qed.

Lemma pairing_step_user (pending q : list str) (m : Message.t) :
  Message.role m = USER -> pairing_step pending m = Some q -> q = [].
Proof.
  unfold pairing_step. intros Hr H. rewrite Hr in H.
  destruct pending; congruence.
Qed.

(** What the body of the walk returns, when it returns. *)
Lemma safe_at_some (msgs : list Message.t) (i r : nat) :
  safe_at msgs i = Some r ->
  r = i + 1 /\
  exists m, nth_error msgs i = Some m /\
    (Message.role m = USER
     \/ (Message.role m = TOOL
         /\ (length msgs <= i + 1
             \/ exists nxt, nth_error msgs (i + 1) = Some nxt
                            /\ Message.role nxt <> TOOL))).
Proof.
  unfold safe_at. destruct (length msgs <=? i) eqn:L; [discriminate|].
  destruct (nth_error msgs i) as [m|] eqn:N; [|discriminate].
  destruct (Message.role m) eqn:R; try discriminate.
  - intros H. inversion H. split; [reflexivity|]. exists m. auto.
  - destruct (length msgs <=? i + 1) eqn:L1; simpl.
    + intros H. inversion H. split; [reflexivity|]. exists m.
      apply Nat.leb_le in L1. auto.
    + destruct (nth_error msgs (i + 1)) as [nxt|] eqn:N1.
      * destruct (role_eqb (Message.role nxt) TOOL) eqn:RT; simpl; [discriminate|].
        intros H. inversion H. split; [reflexivity|]. exists m.
        split; [reflexivity|]. right. split; [exact R|]. right.
        exists nxt. split; [reflexivity|]. intro E. rewrite E in RT. discriminate.
      * apply Nat.leb_gt in L1. apply nth_error_None in N1. lia.
Qed.

Lemma walk_back_unfold (msgs : list Message.t) (d : nat) :
  walk_back msgs d =
  match safe_at msgs (min_safe + d) with
  | Some r => r
  | None =>
      match d with
      | 0 => min_safe
      | S d' => walk_back msgs d'
      end
  end.
Proof. destruct d; reflexivity. Qed.

Lemma walk_back_cases (msgs : list Message.t) (d : nat) :
  walk_back msgs d = min_safe
  \/ exists i, min_safe <= i <= min_safe + d
               /\ safe_at msgs i = Some (walk_back msgs d).
Proof.
  induction d as [|d IH]; rewrite walk_back_unfold.
  - destruct (safe_at msgs (min_safe + 0)) as [r|] eqn:Hs; [|now left].
    right. exists (min_safe + 0). split; [lia|exact Hs].
  - destruct (safe_at msgs (min_safe + S d)) as [r|] eqn:Hs.
    + right. exists (min_safe + S d). split; [lia|exact Hs].
    + destruct IH as [IH|(i & Hi & IH)]; [now left|].
      right. exists i. split; [lia|exact IH].
Qed.

(** Cutting an open-paired buffer right after a turn where the walk stops
    leaves a paired buffer, unless the cut is at the end. *)
Lemma safe_at_paired (msgs : list Message.t) (i r : nat) :
  tool_pairing_open msgs ->
  safe_at msgs i = Some r ->
  length msgs <= r \/ tool_pairing (firstn r msgs).
Proof.
  intros (p & Hp) H. apply safe_at_some in H as (-> & m & Hn & Hcase).
  destruct (nth_error_split _ _ Hn) as (l1 & l2 & -> & Hlen).
  assert (Hcut : firstn (i + 1) (l1 ++ m :: l2) = l1 ++ [m]).
  { rewrite firstn_app, firstn_all2 by lia.
    replace (i + 1 - length l1) with 1 by lia. reflexivity. }
  rewrite pairing_scan_app in Hp.
  destruct (pairing_scan [] l1) as [q1|] eqn:S1; [|discriminate].
  simpl in Hp. destruct (pairing_step q1 m) as [q2|] eqn:S2; [|discriminate].
  assert (Hgoal : q2 = [] -> tool_pairing (firstn (i + 1) (l1 ++ m :: l2))).
  { intros ->. unfold tool_pairing. rewrite Hcut, pairing_scan_app, S1.
    simpl. now rewrite S2. }
  destruct Hcase as [Hu|(Ht & [Hend|(nxt & Hnx & Hr)])].
  - right. apply Hgoal. exact (pairing_step_user _ _ _ Hu S2).
  - now left.
  - right. apply Hgoal.
    rewrite nth_error_app2 in Hnx by lia.
    replace (i + 1 - length l1) with 1 in Hnx by lia.
    destruct l2 as [|n l2]; [discriminate|]. simpl in Hnx. inversion Hnx; subst n.
    simpl in Hp. destruct (pairing_step q2 nxt) as [q3|] eqn:S3; [|discriminate].
    exact (pairing_step_not_tool _ _ _ Hr S3).
Qed.

Lemma initial_turns_paired (msgs : list Message.t) :
  initial_turns msgs -> tool_pairing (firstn min_safe msgs).
Proof.
  intros (s & u & rest & -> & Hs & Hu). unfold tool_pairing. simpl.
  unfold pairing_step. now rewrite Hs, Hu.
Qed.

Lemma find_safe_at_least_min (self : Agent) (target_index : nat) :
  min_safe <= _find_safe_truncation_point self target_index.
Proof.
  unfold _find_safe_truncation_point.
  destruct (target_index <=? min_safe); [lia|].
  destruct (walk_back_cases (messages self) (target_index - min_safe))
    as [->|(i & Hi & H)]; [lia|].
  apply safe_at_some in H as (-> & _). lia.
Qed.

Lemma find_safe_paired (self : Agent) (target_index : nat) :
  initial_turns (messages self) ->
  tool_pairing_open (messages self) ->
  length (messages self) <= _find_safe_truncation_point self target_index
  \/ tool_pairing (firstn (_find_safe_truncation_point self target_index) (messages self)).
Proof.
  intros Hi Ho. unfold _find_safe_truncation_point.
  destruct (target_index <=? min_safe).
  - right. now apply initial_turns_paired.
  - destruct (walk_back_cases (messages self) (target_index - min_safe))
      as [->|(i & _ & H)].
    + right. now apply initial_turns_paired.
    + exact (safe_at_paired _ _ _ Ho H).
Qed.

(** The walk of the code is the scan of the specification started one
    index further up. *)
Lemma safe_at_boundary (msgs : list Message.t) (i : nat) :
  safe_at msgs i = if pairing_boundary msgs (S i) then Some (i + 1) else None.
Proof.
  unfold safe_at, pairing_boundary.
  destruct (length msgs <=? i) eqn:L.
  - apply Nat.leb_le in L. apply nth_error_None in L. now rewrite L.
  - destruct (nth_error msgs i) as [m|]; [|reflexivity].
    destruct (Message.role m); try reflexivity.
    replace (i + 1) with (S i) by lia.
    destruct (length msgs <=? S i) eqn:L1.
    + apply Nat.leb_le in L1. apply nth_error_None in L1. now rewrite L1.
    + cbn [orb]. destruct (nth_error msgs (S i)) as [nxt|] eqn:N1.
      * now destruct (role_eqb (Message.role nxt) TOOL).
      * apply Nat.leb_gt in L1. apply nth_error_None in N1. lia.
Qed.

Lemma walk_back_spec_scan (msgs : list Message.t) (d : nat) :
  walk_back msgs d = spec_scan msgs (S d).
Proof.
  induction d as [|d IH]; rewrite walk_back_unfold, safe_at_boundary.
  - change (spec_scan msgs 1) with
      (if pairing_boundary msgs (S (min_safe + 0)) then min_safe + 0 + 1
       else min_safe).
    now destruct (pairing_boundary msgs (S (min_safe + 0))).
  - rewrite IH.
    change (spec_scan msgs (S (S d))) with
      (if pairing_boundary msgs (protected_minimum + S (S d))
       then protected_minimum + S (S d) else spec_scan msgs (S d)).
    replace (protected_minimum + S (S d)) with (S (min_safe + S d))
      by (unfold protected_minimum, min_safe; lia).
    destruct (pairing_boundary msgs (S (min_safe + S d))); [|reflexivity].
    unfold min_safe. lia.
Qed.

Lemma find_safe_is_shifted_scan (self : Agent) (target_index : nat) :
  _find_safe_truncation_point self target_index =
  if target_index <=? min_safe then min_safe
  else spec_safe_index (messages self) (target_index + 1).
Proof.
  unfold _find_safe_truncation_point, spec_safe_index.
  destruct (target_index <=? min_safe) eqn:L; [reflexivity|].
  apply Nat.leb_gt in L. rewrite walk_back_spec_scan. f_equal.
  unfold protected_minimum, min_safe in *. lia.
Qed.

End SafePoint.

(* ================================================================= *)
(** ** Truncation and the pairing invariant *)

Section Truncation.

Lemma truncate_messages (self : Agent) (focus : FocusState.t) :
  messages (truncate_to_safe_point self focus) =
  if (0 <? messages_to_drop self focus)%Z
  then firstn (_find_safe_truncation_point self (FocusState.start_message_index focus))
         (messages self)
  else messages self.
Proof.
  unfold truncate_to_safe_point.
  now destruct (0 <? messages_to_drop self focus)%Z.
Qed.

Lemma initial_turns_firstn (msgs : list Message.t) (k : nat) :
  min_safe <= k -> initial_turns msgs -> initial_turns (firstn k msgs).
Proof.
  intros Hk (s & u & rest & -> & Hs & Hu).
  destruct k as [|[|k]]; [unfold min_safe in Hk; lia..|].
  exists s, u, (firstn k rest). simpl. auto.
Qed.

Lemma initial_turns_length (msgs : list Message.t) :
  initial_turns msgs -> 2 <= length msgs.
Proof. intros (s & u & rest & -> & _). simpl. lia. Qed.

(** The truncation on a buffer whose last group may still be open: either
    nothing is cut, or what remains is paired. *)
Lemma truncate_open (self : Agent) (focus : FocusState.t) :
  initial_turns (messages self) ->
  tool_pairing_open (messages self) ->
  (messages (truncate_to_safe_point self focus) = messages self
   \/ tool_pairing (messages (truncate_to_safe_point self focus)))
  /\ initial_turns (messages (truncate_to_safe_point self focus)).
Proof.
  intros Hi Ho. rewrite truncate_messages. unfold messages_to_drop.
  set (k := _find_safe_truncation_point self (FocusState.start_message_index focus)).
  destruct (0 <? Z.of_nat (length (messages self)) - Z.of_nat k)%Z eqn:D.
  - apply Z.ltb_lt in D. split.
    + right. destruct (find_safe_paired self (FocusState.start_message_index focus) Hi Ho)
        as [Hle|Hp]; [fold k in Hle; lia|exact Hp].
    + apply initial_turns_firstn; [apply find_safe_at_least_min|exact Hi].
  - split; [now left|exact Hi].
Qed.

Lemma rebuild_messages_shape (self : Agent) (m0 m1 : Message.t)
    (others : list Message.t) :
  messages self = m0 :: m1 :: others ->
  _rebuild_messages_with_knowledge self =
  set_messages self
    (Message.make SYSTEM
       (kept_text (Message.content m0)
          ++ match _build_knowledge_section self with
             | [] => []
             | _ :: _ => nl ++ nl ++ _build_knowledge_section self
             end)
       :: m1 :: others).
Proof.
  intros Hm. unfold _rebuild_messages_with_knowledge. rewrite Hm.
  change (length (m0 :: m1 :: others) <? 2) with false. cbv iota.
  fold (before_marker (Message.content m0)).
  fold (kept_text (Message.content m0)).
  destruct (_build_knowledge_section self); [now rewrite app_nil_r|reflexivity].
Qed.

(** The splice does not touch the roles, so neither the pairing. *)
Lemma rebuild_pairing (self : Agent) :
  initial_turns (messages self) ->
  pairing_scan [] (messages (_rebuild_messages_with_knowledge self))
  = pairing_scan [] (messages self)
  /\ length (messages (_rebuild_messages_with_knowledge self)) = length (messages self)
  /\ initial_turns (messages (_rebuild_messages_with_knowledge self)).
Proof.
  intros (s & u & rest & Hm & Hs & Hu).
  rewrite (rebuild_messages_shape self s u rest Hm), Hm.
  cbn [messages set_messages]. repeat split.
  - assert (H1 : pairing_step [] s = Some [])
      by (unfold pairing_step; now rewrite Hs).
    cbn [pairing_scan]. rewrite H1. reflexivity.
  - eexists _, u, rest. repeat split. exact Hu.
Qed.

Lemma pairing_add_user (msgs : list Message.t) (text : str) :
  tool_pairing msgs -> tool_pairing (msgs ++ [Message.make USER text]).
Proof.
  unfold tool_pairing. intros H. now rewrite pairing_scan_app, H.
Qed.

(** The buffer the handler leaves, through its stages. *)
Lemma handle_complete_focus_messages (self : Agent) (focus_data : FocusData.t)
    (focus : FocusState.t) (stack' : list FocusState.t) :
  pop (_focus_stack self) = Some (focus, stack') ->
  messages (fst (_handle_complete_focus self focus_data)) =
  messages (_rebuild_messages_with_knowledge
              (truncate_to_safe_point (record_learning self focus stack' focus_data) focus))
  ++ [Message.make USER (continuation focus focus_data)].
Proof.
  intros Hp. unfold _handle_complete_focus. rewrite Hp. reflexivity.
Qed.

End Truncation.

(** Between the request of a completion and its handling the buffer is
    paired up to the group being answered.  A completion that removes at
    least one turn then leaves a paired buffer. *)
Lemma completion_pairs_when_cutting (self : Agent) (focus_data : FocusData.t)
    (focus : FocusState.t) (stack' : list FocusState.t) :
  initial_turns (messages self) ->
  tool_pairing_open (messages self) ->
  pop (_focus_stack self) = Some (focus, stack') ->
  (0 < messages_to_drop self focus)%Z ->
  tool_pairing (messages (fst (_handle_complete_focus self focus_data))).
Proof.
  intros Hi Ho Hp Hd.
  rewrite (handle_complete_focus_messages self focus_data focus stack' Hp).
  set (s1 := record_learning self focus stack' focus_data).
  assert (Hd1 : (0 <? messages_to_drop s1 focus)%Z = true) by now apply Z.ltb_lt.
  destruct (truncate_open s1 focus Hi Ho) as [[E|T] I].
  - exfalso. rewrite truncate_messages, Hd1 in E.
    apply (f_equal (@length _)) in E. rewrite length_firstn in E.
    unfold messages_to_drop in Hd. change (messages s1) with (messages self) in E.
    change (_find_safe_truncation_point s1) with (_find_safe_truncation_point self) in E.
    lia.
  - destruct (rebuild_pairing _ I) as (E & _ & _).
    apply pairing_add_user. unfold tool_pairing. now rewrite E.
Qed.

(** C1 at the failing input.  In the run whose first reply asks to open and
    to complete a focus, the buffer satisfies the tool-pairing invariant
    when the step begins, and the completion is handled on a buffer that
    begins with the two initial turns and is paired up to the request being
    handled, [c2].  The safe point for the anchor 3 is 4, the length of the
    buffer: nothing is truncated, the assistant turn stays with its request
    [c2] unanswered, and with the continuation turn behind it the buffer the
    completion leaves, which is the final buffer of the run, violates the
    tool-pairing invariant. *)
Theorem truncation_keeps_open_request :
  let self := Traces.completing_at_once in
  let focus := FocusState.mk (py "A") (py "G") 3 in
  let after := fst (_handle_complete_focus self Scenario.data_X) in
  tool_pairing (messages Traces.started)
  /\ handle_tool_calls [] (Traces.reply_received Scenario.llm_at_once Traces.started 0)
       [Scenario.ask_start; Scenario.ask_complete]
     = (after, FocusCompleted)
  /\ fst (run [] Scenario.llm_at_once 1 (py "task") (py "/w")) = after
  /\ map Message.role (messages self) = [SYSTEM; USER; ASSISTANT; TOOL]
  /\ pairing_scan [] (messages self) = Some [py "c2"]
  /\ pop (_focus_stack self) = Some (focus, [])
  /\ _find_safe_truncation_point self 3 = length (messages self)
  /\ messages_to_drop self focus = 0%Z
  /\ messages (truncate_to_safe_point (record_learning self focus [] Scenario.data_X) focus)
     = messages self
  /\ map Message.role (messages after) = [SYSTEM; USER; ASSISTANT; TOOL; USER]
  /\ pairing_scan [] (messages after) = None.
Proof.
  intros self focus after.
  repeat (split; [vm_compute; reflexivity|]).
  vm_compute; reflexivity.
Qed.

(** C2 at the failing input.  On the buffer of a run whose first reply
    opened a focus (anchor 3) and whose second reply completes it, the code
    returns 4, one more than the candidate, where the scan of the
    specification finds no boundary at or below 3 and gives the protected
    minimum. *)
Theorem safe_point_exceeds_candidate :
  _find_safe_truncation_point
    (mkAgent Scenario.opened_then_closed AgentMetrics.init [] []) 3 = 4
  /\ spec_safe_index Scenario.opened_then_closed 3 = 2
  /\ spec_safe_index Scenario.opened_then_closed (3 + 1) = 4.
Proof. repeat split. Qed.

(* ================================================================= *)
(** ** Completing a focus *)

Section Completion.

Lemma pop_snoc {A} (l : list A) (x : A) : pop (l ++ [x]) = Some (x, l).
Proof. unfold pop. rewrite rev_app_distr. simpl. now rewrite rev_involutive. Qed.

Lemma pop_nil_iff {A} (l : list A) : pop l = None <-> l = [].
Proof.
  unfold pop. split.
  - destruct (rev l) eqn:R; [|discriminate].
    intros _. apply (f_equal (@rev A)) in R. now rewrite rev_involutive in R.
  - now intros ->.
Qed.

Lemma pop_some {A} (l l' : list A) (x : A) : pop l = Some (x, l') -> l = l' ++ [x].
Proof.
  unfold pop. destruct (rev l) as [|y r] eqn:R; [discriminate|].
  intros H. inversion H; subst. apply (f_equal (@rev A)) in R.
  now rewrite rev_involutive in R.
Qed.

(** What [CompleteFocusTool.execute] returns, when it returns. *)
Lemma complete_tool_result (n : nat) (args : Args) (r : ToolResult.t) :
  Tool.execute CompleteFocusTool n args = Some r ->
  exists outcome learnings next_action,
    r = ToolResult.make true (focus_complete_signal outcome learnings next_action).
Proof.
  cbn [Tool.execute CompleteFocusTool].
  destruct (bind_kwargs _ _ args); [|discriminate].
  destruct (get (py "outcome") args) as [o|]; [|discriminate].
  destruct (get (py "learnings") args) as [l|]; [|discriminate].
  intros H. inversion H. eauto.
Qed.

(** A completion signal is never taken for a start signal, and always
    parses. *)
Lemma complete_signal_parses (outcome learnings next_action : str) :
  parse_focus_start (focus_complete_signal outcome learnings next_action) = None
  /\ exists d,
      parse_focus_complete (focus_complete_signal outcome learnings next_action) = Some d.
Proof.
  split; [reflexivity|].
  unfold parse_focus_complete, focus_complete_signal. rewrite startswith_app.
  change (py "FOCUS_COMPLETE::" ++ outcome ++ py "::" ++ learnings ++ py "::" ++ next_action)
    with (py "FOCUS_COMPLETE" ++ py "::"
            ++ (outcome ++ py "::" ++ (learnings ++ py "::" ++ next_action))).
  cbn [split].
  rewrite (partition_separator_free (py "FOCUS_COMPLETE")) by reflexivity.
  pose proof (contains_app (py "::") outcome (learnings ++ py "::" ++ next_action)) as C.
  unfold contains in C.
  destruct (partition (py "::") (outcome ++ py "::" ++ learnings ++ py "::" ++ next_action))
    as [[a b]|]; [|discriminate].
  destruct (partition (py "::") b) as [[a' b']|]; eexists; reflexivity.
Qed.

Lemma complete_signal_not_empty (outcome learnings next_action : str) :
  PyStr.eqb (focus_complete_signal outcome learnings next_action) [] = false.
Proof. reflexivity. Qed.

(** Every entry of the ledger is readable in the rendered section. *)
Lemma join_contains (sep x a b : str) (l : list str) :
  In (a ++ x ++ b) l -> exists a' b', join sep l = a' ++ x ++ b'.
Proof.
  induction l as [|y l IH]; [contradiction|].
  intros [->|Hin].
  - destruct l as [|z l]; [now exists a, b|].
    exists a, (b ++ sep ++ join sep (z :: l)).
    change (join sep ((a ++ x ++ b) :: z :: l))
      with ((a ++ x ++ b) ++ sep ++ join sep (z :: l)).
    now rewrite <- !app_assoc.
  - destruct (IH Hin) as (a' & b' & E).
    destruct l as [|z l]; [contradiction|].
    exists (y ++ sep ++ a'), b'.
    change (join sep (y :: z :: l)) with (y ++ sep ++ join sep (z :: l)).
    rewrite E. now rewrite <- !app_assoc.
Qed.

Lemma knowledge_lines_learnings (i : nat) (entries : list KnowledgeEntry.t)
    (e : KnowledgeEntry.t) :
  In e entries ->
  In (py "**Learnings:** " ++ KnowledgeEntry.learnings e ++ []) (knowledge_lines i entries).
Proof.
  revert i. induction entries as [|e' entries IH]; intros i; [contradiction|].
  intros [->|Hin]; cbn [knowledge_lines].
  - rewrite app_nil_r. do 3 right. now left.
  - do 5 right. now apply IH.
Qed.

Lemma knowledge_section_learnings (self : Agent) (e : KnowledgeEntry.t) :
  In e (_knowledge self) ->
  exists a b, _build_knowledge_section self = a ++ KnowledgeEntry.learnings e ++ b.
Proof.
  intros Hin. unfold _build_knowledge_section.
  destruct (_knowledge self) as [|e0 l] eqn:K; [contradiction|].
  apply (join_contains nl _ (py "**Learnings:** ") []).
  right. now apply knowledge_lines_learnings.
Qed.

Lemma knowledge_in_system_turn (self : Agent) (m0 m1 : Message.t)
    (others : list Message.t) (e : KnowledgeEntry.t) :
  messages self = m0 :: m1 :: others ->
  In e (_knowledge self) ->
  exists m0',
    messages (_rebuild_messages_with_knowledge self) = m0' :: m1 :: others
    /\ Message.role m0' = SYSTEM
    /\ contains (KnowledgeEntry.learnings e) (Message.content m0') = true.
Proof.
  intros Hm Hin. rewrite (rebuild_messages_shape self m0 m1 others Hm).
  eexists. split; [reflexivity|]. split; [reflexivity|].
  cbn [Message.content Message.make].
  destruct (knowledge_section_learnings self e Hin) as (a & b & E).
  destruct (_build_knowledge_section self) as [|c ks] eqn:K.
  - destruct (knowledge_section_marker self) as (rest & E').
    { intro Hk. rewrite Hk in Hin. contradiction. }
    rewrite K in E'. discriminate E'.
  - rewrite E.
    replace (kept_text (Message.content m0) ++ nl ++ nl ++ a ++ KnowledgeEntry.learnings e ++ b)
      with ((kept_text (Message.content m0) ++ nl ++ nl ++ a)
              ++ KnowledgeEntry.learnings e ++ b)
      by (now rewrite <- !app_assoc).
    apply contains_app.
Qed.

End Completion.

(** C3.  Completing a focus while the stack is empty returns the failure
    result "No active focus to complete" (not a compression signal) and
    leaves the agent exactly as it was: buffer, ledger, stack and counters.
    In the batch loop the failure becomes the tool-result turn of that call
    and the loop goes on with the remaining calls of the batch. *)
Theorem complete_without_focus :
  forall (tools : list Tool.t) (self : Agent) (focus_data : FocusData.t),
    _focus_stack self = [] ->
    _handle_complete_focus self focus_data = (self, no_active_focus)
    /\ ToolResult.success no_active_focus = false
    /\ ToolResult.is_compression no_active_focus = false
    /\ forall (call : ToolCall.t) (rest : list ToolCall.t) (base : ToolResult.t),
        _get_tool_by_name tools (ToolCall.name call) = Some CompleteFocusTool ->
        Tool.execute CompleteFocusTool (AgentMetrics.tool_calls (metrics self))
          (ToolCall.arguments call) = Some base ->
        handle_tool_calls tools self (call :: rest) =
        handle_tool_calls tools
          (_add_message (count_tool_call self)
             (Message.mk TOOL
                (py "Error: No active focus to complete. Use start_focus first.")
                [] (Some (ToolCall.id call)) (Some (ToolCall.name call))))
          rest.
Proof.
  intros tools self focus_data Hs.
  assert (Hh : forall s d, _focus_stack s = [] -> _handle_complete_focus s d = (s, no_active_focus)).
  { intros s d E. unfold _handle_complete_focus. now rewrite E. }
  split; [now apply Hh|]. split; [reflexivity|]. split; [reflexivity|].
  intros call rest base Hg He.
  destruct (complete_tool_result _ _ _ He) as (o & l & na & ->).
  destruct (complete_signal_parses o l na) as (Hps & d & Hpc).
  cbn [handle_tool_calls]. unfold _execute_tool_with_focus, _execute_tool.
  rewrite Hg, He.
  cbn [ToolResult.success ToolResult.output ToolResult.make].
  rewrite complete_signal_not_empty, Hps, Hpc. cbn [andb negb].
  rewrite (Hh (count_tool_call self) d) by exact Hs.
  reflexivity.
Qed.

Lemma complete_without_focus_witness :
  _handle_complete_focus Scenario.unfocused_agent Scenario.data_X
  = (Scenario.unfocused_agent, no_active_focus)
  /\ handle_tool_calls [] Scenario.unfocused_agent [Scenario.ask_complete; Scenario.ask_ls] =
     handle_tool_calls []
       (_add_message (count_tool_call Scenario.unfocused_agent)
          (Message.mk TOOL
             (py "Error: No active focus to complete. Use start_focus first.")
             [] (Some (py "c2")) (Some (py "complete_focus"))))
       [Scenario.ask_ls].
Proof.
  destruct (complete_without_focus [] Scenario.unfocused_agent Scenario.data_X eq_refl)
    as (H1 & _ & _ & H2).
  split; [exact H1|].
  exact (H2 Scenario.ask_complete [Scenario.ask_ls]
           (ToolResult.make true (focus_complete_signal (py "success") (py "X") []))
           eq_refl eq_refl).
Defined.

(** C4 at the failing input.  The scenario as a run performs it: the first
    reply opens focus A, three replies request one action each, the fifth
    completes the focus with outcome [success] and learnings [X].  The
    assistant turn requesting [start_focus] is in the buffer when the focus
    is opened, so the anchor is 3; the safe point is 4, where the scan of the
    specification gives the protected minimum, and right after the
    truncation the buffer has 4 turns, as the snapshot taken then records.
    The ledger holds exactly one entry, with learnings [X], and the system
    turn of the buffer the completion leaves, which is what the next
    inference call receives, contains [X]. *)
Theorem focus_scenario_in_run :
  let self := Traces.completing_scenario in
  let focus := FocusState.mk (py "A") (py "G") 3 in
  let final := fst (run [Cases.echo_tool] Traces.llm_scenario 5 (py "task") (py "/w")) in
  map Message.role (messages Traces.worked)
  = [SYSTEM; USER; ASSISTANT; TOOL; ASSISTANT; TOOL; ASSISTANT; TOOL; ASSISTANT; TOOL]
  /\ handle_tool_calls [Cases.echo_tool]
       (Traces.reply_received Traces.llm_scenario Traces.worked 4) [Scenario.ask_complete]
     = (fst (_handle_complete_focus self Scenario.data_X), FocusCompleted)
  /\ final = fst (_handle_complete_focus self Scenario.data_X)
  /\ pop (_focus_stack self) = Some (focus, [])
  /\ _find_safe_truncation_point self 3 = 4
  /\ spec_safe_index (messages self) 3 = protected_minimum
  /\ map Message.role
       (messages (truncate_to_safe_point
                    (record_learning self focus [] Scenario.data_X) focus))
     = [SYSTEM; USER; ASSISTANT; TOOL]
  /\ map StepSnapshot.message_count (AgentMetrics.trajectory (metrics final))
     = [3; 5; 7; 9; 11; 4]
  /\ _knowledge final = [Scenario.entry_X]
  /\ exists system_turn rest,
      messages final = system_turn :: rest
      /\ Message.role system_turn = SYSTEM
      /\ contains (py "X") (Message.content system_turn) = true.
Proof.
  intros self focus final.
  repeat (split; [vm_compute; reflexivity|]).
  eexists. eexists.
  split; [vm_compute; reflexivity|]. split; vm_compute; reflexivity.
Qed.

(* ================================================================= *)
(** ** The run loop *)

Section RunLemmas.

Variable tools : list Tool.t.
Variable llm : nat -> list Message.t -> option LLMReply.t.

Lemma rebuild_frame (self : Agent) :
  metrics (_rebuild_messages_with_knowledge self) = metrics self
  /\ _focus_stack (_rebuild_messages_with_knowledge self) = _focus_stack self
  /\ _knowledge (_rebuild_messages_with_knowledge self) = _knowledge self.
Proof.
  unfold _rebuild_messages_with_knowledge.
  destruct (length (messages self) <? 2); [auto|].
  destruct (messages self); auto.
Qed.

(** What a completion does to the ledger, the stack and the counters. *)
Lemma handle_complete_focus_effect (self : Agent) (focus_data : FocusData.t)
    (focus : FocusState.t) (stack' : list FocusState.t) :
  pop (_focus_stack self) = Some (focus, stack') ->
  let bump := if (0 <? messages_to_drop self focus)%Z then 1 else 0 in
  let self' := fst (_handle_complete_focus self focus_data) in
  _knowledge self' =
    _knowledge self ++
      [KnowledgeEntry.mk (FocusState.description focus) (FocusState.goal focus)
         (FocusData.outcome focus_data) (FocusData.learnings focus_data)]
  /\ _focus_stack self' = stack'
  /\ AgentMetrics.compressions (metrics self') = AgentMetrics.compressions (metrics self) + bump
  /\ AgentMetrics.llm_calls (metrics self') = AgentMetrics.llm_calls (metrics self)
  /\ (exists snapshot,
        AgentMetrics.trajectory (metrics self')
        = AgentMetrics.trajectory (metrics self) ++ [snapshot]
        /\ StepSnapshot.compressions_so_far snapshot
           = AgentMetrics.compressions (metrics self) + bump)
  /\ ToolResult.success (snd (_handle_complete_focus self focus_data)) = true
  /\ ToolResult.is_compression (snd (_handle_complete_focus self focus_data)) = true.
Proof.
  intros Hp bump self'. subst self'. unfold _handle_complete_focus. rewrite Hp.
  cbn [fst snd ToolResult.success ToolResult.is_compression].
  set (s1 := record_learning self focus stack' focus_data).
  destruct (rebuild_frame (truncate_to_safe_point s1 focus)) as (Em & Es & Ek).
  cbn [_add_message set_messages record_snapshot set_metrics metrics _knowledge
         _focus_stack AgentMetrics.compressions AgentMetrics.llm_calls
         AgentMetrics.trajectory].
  rewrite Em, Es, Ek.
  assert (Hd : messages_to_drop s1 focus = messages_to_drop self focus) by reflexivity.
  unfold truncate_to_safe_point. rewrite Hd. subst bump.
  destruct (0 <? messages_to_drop self focus)%Z;
    cbn; repeat split; try lia; eexists; split; try reflexivity; cbn; lia.
Qed.

Lemma handle_complete_focus_none (self : Agent) (focus_data : FocusData.t) :
  pop (_focus_stack self) = None ->
  _handle_complete_focus self focus_data = (self, no_active_focus).
Proof. intros Hp. unfold _handle_complete_focus. now rewrite Hp. Qed.

Section Stable.

Variable P : Agent -> Prop.

Lemma execute_tool_stable (self : Agent) (name : str) (arguments : Args) :
  batch_stable P -> P self -> P (fst (_execute_tool tools self name arguments)).
Proof.
  intros (_ & Hc & _) H. unfold _execute_tool.
  destruct (_get_tool_by_name tools name); [now apply Hc|exact H].
Qed.

Lemma execute_tool_with_focus_stable (self : Agent) (name : str) (arguments : Args)
    (tool_call_id : str) :
  batch_stable P -> P self ->
  P (fst (_execute_tool_with_focus tools self name arguments tool_call_id)).
Proof.
  intros HP H. pose proof (execute_tool_stable self name arguments HP H) as H1.
  destruct HP as (_ & _ & Hs & Hc).
  unfold _execute_tool_with_focus.
  destruct (_execute_tool tools self name arguments) as [self1 [result|]];
    cbn [fst] in *; [|exact H1].
  destruct (ToolResult.success result && negb (PyStr.eqb (ToolResult.output result) []));
    [|exact H1].
  destruct (parse_focus_start (ToolResult.output result)) as [[d g]|];
    [now apply Hs|].
  destruct (parse_focus_complete (ToolResult.output result)) as [fc|]; [|exact H1].
  specialize (Hc self1 fc H1).
  now destruct (_handle_complete_focus self1 fc).
Qed.

Lemma handle_tool_calls_stable (calls : list ToolCall.t) (self : Agent) :
  batch_stable P -> P self -> P (fst (handle_tool_calls tools self calls)).
Proof.
  intros HP. revert self. induction calls as [|call rest IH]; intros self H;
    [exact H|].
  pose proof (execute_tool_with_focus_stable self (ToolCall.name call)
                (ToolCall.arguments call) (ToolCall.id call) HP H) as H1.
  cbn [handle_tool_calls].
  destruct (_execute_tool_with_focus tools self (ToolCall.name call)
              (ToolCall.arguments call) (ToolCall.id call)) as [self1 [result|]];
    cbn [fst] in *; [|exact H1].
  destruct (ToolResult.is_compression result); [exact H1|].
  apply IH. destruct HP as (Ha & _). now apply Ha.
Qed.

Lemma run_step_stable (self : Agent) (step : nat) :
  run_stable llm P -> P self -> P (fst (run_step tools llm self step)).
Proof.
  intros (HP & Hsn & Hl) H. specialize (Hl self H). unfold run_step.
  destruct (_call_llm llm self) as [self1 [response|]]; cbn [fst] in *; [|exact Hl].
  assert (H3 : P (record_snapshot (_add_message self1 response) step)).
  { apply Hsn. destruct HP as (Ha & _). now apply Ha. }
  destruct (contains TASK_COMPLETE (Message.content response)); [exact H3|].
  destruct (Message.tool_calls response) as [|call calls] eqn:C.
  - destruct HP as (Ha & _). now apply Ha.
  - pose proof (handle_tool_calls_stable (call :: calls) _ HP H3) as H4.
    destruct (handle_tool_calls tools _ (call :: calls)) as [self4 []]; exact H4.
Qed.

Lemma run_from_stable (remaining step : nat) (self : Agent) :
  run_stable llm P -> P self -> P (fst (run_from tools llm self step remaining)).
Proof.
  intros HP. revert step self.
  induction remaining as [|remaining IH]; intros step self H; [exact H|].
  pose proof (run_step_stable self step HP H) as H1. cbn [run_from].
  destruct (run_step tools llm self step) as [self1 []]; cbn [fst] in *;
    [now apply IH|exact H1|exact H1].
Qed.

End Stable.

(** The invariant of the trajectory is kept by every state change. *)
Lemma consistent_snoc (l : list nat) (c : nat) :
  StronglySorted le l -> Forall (fun x => x <= c) l -> StronglySorted le (l ++ [c]).
Proof.
  induction l as [|x l IH]; intros Hs Hb; simpl.
  - constructor; constructor.
  - inversion Hs; subst. inversion Hb; subst. constructor; [now apply IH|].
    apply Forall_app. split; [assumption|]. now constructor.
Qed.


End RunLemmas.




(* ================================================================= *)
(** ** Exhausting the step budget *)

Section StepLimit.

Variable tools : list Tool.t.
Variable llm : nat -> list Message.t -> option LLMReply.t.

Lemma step_count_stable (c l : nat) : batch_stable (step_count c l).
Proof.
  unfold batch_stable, step_count. split; [|split; [|split]].
  - intros self m H. exact H.
  - intros self H. exact H.
  - intros self d g H. exact H.
  - intros self d (Ht & Hl).
    destruct (pop (_focus_stack self)) as [[focus stack']|] eqn:Hp.
    + destruct (handle_complete_focus_effect self d focus stack' Hp)
        as (Hk & _ & _ & Hll & (snap & Htr & _) & _).
      rewrite Hk, Htr, Hll, !length_app. cbn [length]. lia.
    + rewrite handle_complete_focus_none by exact Hp. now split.
Qed.

Lemma execute_tool_never_raises (self : Agent) (call : ToolCall.t) :
  never_raises tools call ->
  snd (_execute_tool tools self (ToolCall.name call) (ToolCall.arguments call)) <> None.
Proof.
  intros H. unfold _execute_tool.
  destruct (_get_tool_by_name tools (ToolCall.name call)) as [tool|] eqn:G;
    cbn [snd]; [now apply H|discriminate].
Qed.

Lemma execute_tool_with_focus_never_raises (self : Agent) (call : ToolCall.t) :
  never_raises tools call ->
  snd (_execute_tool_with_focus tools self (ToolCall.name call)
         (ToolCall.arguments call) (ToolCall.id call)) <> None.
Proof.
  intros H. pose proof (execute_tool_never_raises self call H) as H1.
  unfold _execute_tool_with_focus.
  destruct (_execute_tool tools self (ToolCall.name call) (ToolCall.arguments call))
    as [self1 [result|]]; cbn [snd] in *; [|congruence].
  destruct (ToolResult.success result && negb (PyStr.eqb (ToolResult.output result) []));
    [|discriminate].
  destruct (parse_focus_start (ToolResult.output result)) as [[d g]|]; [discriminate|].
  destruct (parse_focus_complete (ToolResult.output result)) as [fc|]; [|discriminate].
  destruct (_handle_complete_focus self1 fc). discriminate.
Qed.

Lemma handle_tool_calls_never_raises (calls : list ToolCall.t) (self : Agent) :
  Forall (never_raises tools) calls ->
  snd (handle_tool_calls tools self calls) <> BatchRaised.
Proof.
  revert self. induction calls as [|call rest IH]; intros self H; [discriminate|].
  inversion H as [|? ? Hc Hr]; subst.
  pose proof (execute_tool_with_focus_never_raises self call Hc) as H1.
  cbn [handle_tool_calls].
  destruct (_execute_tool_with_focus tools self (ToolCall.name call)
              (ToolCall.arguments call) (ToolCall.id call)) as [self1 [result|]];
    cbn [snd] in *; [|congruence].
  destruct (ToolResult.is_compression result); [discriminate|]. now apply IH.
Qed.

(** An iteration that goes on to the next has made one inference call and
    taken one snapshot besides those of completed focuses. *)
Lemma run_step_counts (c l step : nat) (self self' : Agent) :
  step_count c l self ->
  run_step tools llm self step = (self', Continue) ->
  step_count (S c) (S l) self'.
Proof.
  intros (Ht & Hl). unfold run_step, _call_llm.
  destruct (llm (AgentMetrics.llm_calls (metrics self)) (messages self)) as [reply|];
    [|discriminate].
  cbn [Message.content Message.tool_calls].
  set (self3 := record_snapshot _ step).
  assert (H3 : step_count (S c) (S l) self3).
  { unfold step_count, self3. cbn. rewrite length_app. cbn [length]. lia. }
  destruct (contains TASK_COMPLETE (LLMReply.content reply)); [discriminate|].
  destruct (LLMReply.tool_calls reply) as [|call calls] eqn:C.
  - intros H. inversion H. exact H3.
  - pose proof (handle_tool_calls_stable tools (step_count (S c) (S l))
                  (call :: calls) self3 (step_count_stable _ _) H3) as Hs.
    destruct (handle_tool_calls tools self3 (call :: calls)) as [self4 []];
      cbn [fst] in Hs; intros H; inversion H; subst; exact Hs.
Qed.

(** An iteration only returns the success result. *)
Lemma run_step_return (step : nat) (self self' : Agent) (result : TaskResult.t) :
  run_step tools llm self step = (self', Return result) ->
  TaskResult.success result = true.
Proof.
  unfold run_step. destruct (_call_llm llm self) as [self1 [response|]]; [|discriminate].
  destruct (contains TASK_COMPLETE (Message.content response)).
  - intros H. inversion H. reflexivity.
  - destruct (Message.tool_calls response) as [|call calls]; [discriminate|].
    destruct (handle_tool_calls tools _ (call :: calls)) as [self4 []]; discriminate.
Qed.

(** A run that returns without success has used up its iterations. *)
Lemma run_from_counts (remaining c l step : nat) (self self' : Agent)
    (result : TaskResult.t) :
  step_count c l self ->
  run_from tools llm self step remaining = (self', Some result) ->
  TaskResult.success result = false ->
  result = max_steps_result self' /\ step_count (c + remaining) (l + remaining) self'.
Proof.
  revert c l step self. induction remaining as [|remaining IH]; intros c l step self H.
  - cbn [run_from]. intros E _. inversion E; subst. rewrite !Nat.add_0_r. now split.
  - cbn [run_from]. destruct (run_step tools llm self step) as [self1 exit] eqn:E.
    destruct exit as [|result'|].
    + intros E' Hs. rewrite <- !Nat.add_succ_comm.
      exact (IH _ _ _ _ (run_step_counts c l step self self1 H E) E' Hs).
    + intros E' Hs. inversion E'; subst.
      rewrite (run_step_return step self self' result E) in Hs. discriminate Hs.
    + discriminate.
Qed.

Hypothesis Hllm : keeps_working tools llm.

(** One iteration: a snapshot, an inference call, and on to the next. *)
Lemma run_step_continues (c l step : nat) (self : Agent) :
  step_count c l self ->
  exists self',
    run_step tools llm self step = (self', Continue) /\ step_count (S c) (S l) self'.
Proof.
  intros (Ht & Hl). unfold run_step, _call_llm.
  destruct (Hllm (AgentMetrics.llm_calls (metrics self)) (messages self))
    as (reply & E & Hc & Hf).
  rewrite E. cbn [Message.content Message.tool_calls]. rewrite Hc.
  set (self3 := record_snapshot _ step).
  assert (H3 : step_count (S c) (S l) self3).
  { unfold step_count, self3. cbn. rewrite length_app. cbn [length]. lia. }
  destruct (LLMReply.tool_calls reply) as [|call calls] eqn:C.
  - eexists. split; [reflexivity|exact H3].
  - pose proof (handle_tool_calls_never_raises (call :: calls) self3 Hf) as Hn.
    pose proof (handle_tool_calls_stable tools (step_count (S c) (S l))
                  (call :: calls) self3 (step_count_stable _ _) H3) as Hs.
    destruct (handle_tool_calls tools self3 (call :: calls)) as [self4 []];
      cbn [fst snd] in *; try congruence; eexists; split; try reflexivity; exact Hs.
Qed.

Lemma run_from_exhausts (remaining c l step : nat) (self : Agent) :
  step_count c l self ->
  exists self',
    run_from tools llm self step remaining = (self', Some (max_steps_result self'))
    /\ step_count (c + remaining) (l + remaining) self'.
Proof.
  revert c l step self. induction remaining as [|remaining IH]; intros c l step self H.
  - exists self. split; [reflexivity|]. now rewrite !Nat.add_0_r.
  - destruct (run_step_continues c l step self H) as (self1 & E & H1).
    destruct (IH (S c) (S l) (S step) self1 H1) as (self' & E' & H').
    exists self'. cbn [run_from]. rewrite E. split; [exact E'|].
    now rewrite <- !Nat.add_succ_comm.
Qed.

End StepLimit.

(** C8.  A run that returns without success has made exactly [max_steps]
    inference calls and reports the error code [max_steps_exceeded]; its
    trajectory holds [max_steps] snapshots besides the one appended by each
    completed focus, of which the ledger holds one entry each.  And the run
    does end so whenever the provider keeps answering without the completion
    signal and no requested call raises. *)
Theorem step_limit_exceeded :
  forall (tools : list Tool.t) (llm : nat -> list Message.t -> option LLMReply.t)
         (max_steps : nat) (task workspace : str),
    (keeps_working tools llm ->
     exists self result,
       run tools llm max_steps task workspace = (self, Some result)
       /\ TaskResult.success result = false)
    /\
    (forall self result,
        run tools llm max_steps task workspace = (self, Some result) ->
        TaskResult.success result = false ->
        TaskResult.error result = Some (py "max_steps_exceeded")
        /\ TaskResult.output result = py "Max steps reached without completing task."
        /\ MetricsDict.llm_calls (TaskResult.metrics result) = max_steps
        /\ length (MetricsDict.trajectory (TaskResult.metrics result))
           = max_steps + MetricsDict.knowledge_entries (TaskResult.metrics result)).
Proof.
  intros tools llm max_steps task workspace. unfold run.
  set (start := _add_message _ (Message.make USER task)).
  assert (H0 : step_count 0 0 start) by (split; reflexivity).
  split.
  - intros H.
    destruct (run_from_exhausts tools llm H max_steps 0 0 0 start H0) as (self & E & _).
    exists self, (max_steps_result self). split; [exact E|reflexivity].
  - intros self result E Hs.
    destruct (run_from_counts tools llm max_steps 0 0 0 start self result H0 E Hs)
      as (-> & Ht & Hl).
    repeat split; cbn; assumption.
Qed.

Lemma step_limit_exceeded_witness :
  exists self result,
    run [] Scenario.llm_idle 3 (py "task") (py "/w") = (self, Some result)
    /\ TaskResult.success result = false
    /\ TaskResult.error result = Some (py "max_steps_exceeded")
    /\ MetricsDict.llm_calls (TaskResult.metrics result) = 3
    /\ length (MetricsDict.trajectory (TaskResult.metrics result))
       = 3 + MetricsDict.knowledge_entries (TaskResult.metrics result).
Proof.
  destruct (step_limit_exceeded [] Scenario.llm_idle 3 (py "task") (py "/w")) as [A B].
  destruct A as (self & result & E & Hs).
  { intros n msgs. eexists. split; [reflexivity|]. split; [reflexivity|constructor]. }
  destruct (B self result E Hs) as (He & _ & Hl & Ht).
  exists self, result. repeat split; assumption.
Defined.

(** C10 at the failing input.  The first reply of the run asks, in one
    turn, to open a focus and to complete it.  The safe point computed for
    the anchor 3 is 4, the end of the buffer, so nothing is cut: the
    completion succeeds, the continuation turn is appended and the batch is
    left.  The assistant turn that asked for [complete_focus] is still in
    the buffer, its second request has no tool-result turn, and the buffer
    violates the pairing invariant. *)
Theorem completion_leaves_request :
  let final := fst (run [] Scenario.llm_at_once 1 (py "task") (py "/w")) in
  _find_safe_truncation_point Scenario.opened_and_closed_at_once 3 = 4
  /\ map Message.role (messages final) = [SYSTEM; USER; ASSISTANT; TOOL; USER]
  /\ map (fun m => map ToolCall.name (Message.tool_calls m)) (messages final)
     = [[]; []; [py "start_focus"; py "complete_focus"]; []; []]
  /\ map Message.tool_call_id (messages final) = [None; None; None; Some (py "c1"); None]
  /\ length (_knowledge final) = 1
  /\ pairing_scan [] (messages final) = None.
Proof. repeat split; vm_compute; reflexivity. Qed.

(* ================================================================= *)
(** ** Further properties of the focus agent *)

Section SafePointShape.

Lemma spec_scan_nearest (msgs : list Message.t) (d : nat) :
  (spec_scan msgs d = protected_minimum
   \/ pairing_boundary msgs (spec_scan msgs d) = true)
  /\ protected_minimum <= spec_scan msgs d <= protected_minimum + d
  /\ forall j, spec_scan msgs d < j <= protected_minimum + d ->
               pairing_boundary msgs j = false.
Proof.
  induction d as [|d (IH1 & IH2 & IH3)].
  - simpl. split; [now left|]. split; [unfold protected_minimum; lia|].
    intros j Hj. unfold protected_minimum in Hj. lia.
  - change (spec_scan msgs (S d)) with
      (if pairing_boundary msgs (protected_minimum + S d)
       then protected_minimum + S d else spec_scan msgs d).
    destruct (pairing_boundary msgs (protected_minimum + S d)) eqn:B.
    + split; [now right|]. split; [lia|]. intros j Hj. lia.
    + split; [exact IH1|]. split; [lia|]. intros j Hj.
      destruct (Nat.eq_dec j (protected_minimum + S d)) as [->|Hne]; [exact B|].
      apply IH3. lia.
Qed.

End SafePointShape.

(** X1.  The safe truncation point is never below 2, never more than one
    past the target and never past the end of a buffer of two turns or more;
    for a target of at most 2 it is 2. *)
Theorem safe_point_bounds :
  forall (self : Agent) (target_index : nat),
    min_safe <= _find_safe_truncation_point self target_index
    /\ _find_safe_truncation_point self target_index <= Nat.max min_safe (target_index + 1)
    /\ _find_safe_truncation_point self target_index
       <= Nat.max min_safe (length (messages self))
    /\ (target_index <= min_safe ->
        _find_safe_truncation_point self target_index = min_safe).
Proof.
  intros self target_index. split; [apply find_safe_at_least_min|].
  unfold _find_safe_truncation_point.
  destruct (target_index <=? min_safe) eqn:L.
  - repeat split; try lia.
  - apply Nat.leb_gt in L.
    destruct (walk_back_cases (messages self) (target_index - min_safe))
      as [->|(i & Hi & H)].
    + repeat split; lia.
    + apply safe_at_some in H as (E & m & Hn & _). rewrite E.
      assert (i < length (messages self)).
      { apply nth_error_Some. rewrite Hn. discriminate. }
      repeat split; lia.
Qed.

Lemma safe_point_bounds_witness :
  _find_safe_truncation_point Scenario.paired_agent 1 = min_safe.
Proof.
  refine (proj2 (proj2 (proj2 (safe_point_bounds Scenario.paired_agent 1))) _).
  unfold min_safe. lia.
Defined.

(** X2.  For a target above 2 the safe truncation point is the nearest
    boundary at or below target + 1: it is 2 or an index right after a user
    turn or right after the last tool-result turn of a run of them, and no
    index between it and target + 1 is such a boundary. *)
Theorem safe_point_nearest_boundary :
  forall (self : Agent) (target_index : nat),
    min_safe < target_index ->
    (_find_safe_truncation_point self target_index = min_safe
     \/ pairing_boundary (messages self)
          (_find_safe_truncation_point self target_index) = true)
    /\ forall j,
        _find_safe_truncation_point self target_index < j <= target_index + 1 ->
        pairing_boundary (messages self) j = false.
Proof.
  intros self target_index Ht. rewrite find_safe_is_shifted_scan.
  destruct (target_index <=? min_safe) eqn:L; [apply Nat.leb_le in L; lia|].
  unfold spec_safe_index.
  destruct (spec_scan_nearest (messages self) (target_index + 1 - protected_minimum))
    as (H1 & H2 & H3).
  split; [exact H1|]. intros j Hj. apply H3.
  unfold protected_minimum, min_safe in *. lia.
Qed.

Lemma safe_point_nearest_boundary_witness :
  (_find_safe_truncation_point Cases.outer_agent 5 = min_safe
   \/ pairing_boundary (messages Cases.outer_agent)
        (_find_safe_truncation_point Cases.outer_agent 5) = true)
  /\ forall j,
      _find_safe_truncation_point Cases.outer_agent 5 < j <= 5 + 1 ->
      pairing_boundary (messages Cases.outer_agent) j = false.
Proof.
  apply (safe_point_nearest_boundary Cases.outer_agent 5). unfold min_safe. lia.
Defined.

Section CompletionEffects.

Lemma rebuild_length (self : Agent) :
  length (messages (_rebuild_messages_with_knowledge self)) = length (messages self).
Proof.
  unfold _rebuild_messages_with_knowledge.
  destruct (length (messages self) <? 2); [reflexivity|].
  destruct (messages self) as [|m0 others] eqn:E; [now rewrite E|reflexivity].
Qed.

Lemma handle_complete_focus_dropped (self : Agent) (focus_data : FocusData.t)
    (focus : FocusState.t) (stack' : list FocusState.t) :
  pop (_focus_stack self) = Some (focus, stack') ->
  let self' := fst (_handle_complete_focus self focus_data) in
  length (messages self') + AgentMetrics.messages_dropped (metrics self')
  = length (messages self) + 1 + AgentMetrics.messages_dropped (metrics self)
  /\ (AgentMetrics.compressions (metrics self') = AgentMetrics.compressions (metrics self)
      /\ AgentMetrics.messages_dropped (metrics self')
         = AgentMetrics.messages_dropped (metrics self)
      \/ AgentMetrics.compressions (metrics self')
         = AgentMetrics.compressions (metrics self) + 1
         /\ AgentMetrics.messages_dropped (metrics self)
            < AgentMetrics.messages_dropped (metrics self')).
Proof.
  intros Hp self'. subst self'.
  rewrite (handle_complete_focus_messages self focus_data focus stack' Hp).
  unfold _handle_complete_focus. rewrite Hp. cbn [fst].
  set (s1 := record_learning self focus stack' focus_data).
  destruct (rebuild_frame (truncate_to_safe_point s1 focus)) as (Em & _ & _).
  cbn [_add_message set_messages record_snapshot set_metrics metrics
         AgentMetrics.compressions AgentMetrics.messages_dropped].
  rewrite Em, length_app. cbn [length].
  rewrite rebuild_length. unfold truncate_to_safe_point.
  unfold messages_to_drop.
  change (messages s1) with (messages self). change (metrics s1) with (metrics self).
  set (k := _find_safe_truncation_point s1 (FocusState.start_message_index focus)).
  destruct (0 <? Z.of_nat (length (messages self)) - Z.of_nat k)%Z eqn:D.
  - apply Z.ltb_lt in D.
    cbn [messages metrics AgentMetrics.compressions AgentMetrics.messages_dropped].
    rewrite length_firstn. split; [lia|]. right. split; lia.
  - change (messages s1) with (messages self). change (metrics s1) with (metrics self).
    split; [lia|]. left. split; reflexivity.
Qed.

End CompletionEffects.

(** X3.  A completion pops only the focus opened last: completing after
    [_handle_start_focus] restores the stack as it was before the opening,
    whatever was opened earlier, and the entry added to the ledger carries
    the description and goal given at the opening. *)
Theorem completion_pops_latest :
  forall (self later : Agent) (description goal : str) (focus_data : FocusData.t),
    _focus_stack later = _focus_stack (_handle_start_focus self description goal) ->
    _focus_stack (fst (_handle_complete_focus later focus_data)) = _focus_stack self
    /\ _knowledge (fst (_handle_complete_focus later focus_data))
       = _knowledge later
         ++ [KnowledgeEntry.mk description goal
               (FocusData.outcome focus_data) (FocusData.learnings focus_data)]
    /\ ToolResult.is_compression (snd (_handle_complete_focus later focus_data)) = true.
Proof.
  intros self later description goal focus_data Hs.
  assert (Hp : pop (_focus_stack later)
               = Some (FocusState.mk description goal (length (messages self)),
                       _focus_stack self)).
  { rewrite Hs. cbn [_handle_start_focus _focus_stack]. apply pop_snoc. }
  destruct (handle_complete_focus_effect later focus_data _ _ Hp)
    as (Hk & Hst & _ & _ & _ & _ & Hc).
  split; [exact Hst|]. split; [exact Hk|exact Hc].
Qed.

Lemma completion_pops_latest_witness :
  _focus_stack (fst (_handle_complete_focus Cases.inner_agent Scenario.data_X))
  = [FocusState.mk (py "A") (py "G") 3]
  /\ _knowledge (fst (_handle_complete_focus Cases.inner_agent Scenario.data_X))
     = [] ++ [KnowledgeEntry.mk (py "B") (py "H") (py "success") (py "X")]
  /\ ToolResult.is_compression
       (snd (_handle_complete_focus Cases.inner_agent Scenario.data_X)) = true.
Proof.
  exact (completion_pops_latest Cases.outer_agent Cases.inner_agent (py "B") (py "H")
           Scenario.data_X eq_refl).
Defined.

(** X4.  The counter of dropped messages accounts for every turn a
    completion removes: after a completion the buffer has one turn more (the
    continuation) and as many turns fewer as the counter grew. *)
Theorem dropped_messages_accounted :
  forall (self : Agent) (focus_data : FocusData.t),
    _focus_stack self <> [] ->
    length (messages (fst (_handle_complete_focus self focus_data)))
    + AgentMetrics.messages_dropped (metrics (fst (_handle_complete_focus self focus_data)))
    = length (messages self) + 1 + AgentMetrics.messages_dropped (metrics self).
Proof.
  intros self focus_data Hs.
  destruct (pop (_focus_stack self)) as [[focus stack']|] eqn:Hp.
  - exact (proj1 (handle_complete_focus_dropped self focus_data focus stack' Hp)).
  - apply pop_nil_iff in Hp. contradiction.
Qed.

Lemma dropped_messages_accounted_witness :
  length (messages (fst (_handle_complete_focus Cases.inner_agent Scenario.data_X)))
  + AgentMetrics.messages_dropped
      (metrics (fst (_handle_complete_focus Cases.inner_agent Scenario.data_X)))
  = length (messages Cases.inner_agent) + 1
    + AgentMetrics.messages_dropped (metrics Cases.inner_agent).
Proof.
  apply (dropped_messages_accounted Cases.inner_agent Scenario.data_X). discriminate.
Defined.

(* ================================================================= *)
(** ** Invariants of the run *)

Section RunInvariants.

Variable tools : list Tool.t.
Variable llm : nat -> list Message.t -> option LLMReply.t.

Lemma call_llm_frame (self : Agent) :
  messages (fst (_call_llm llm self)) = messages self
  /\ _knowledge (fst (_call_llm llm self)) = _knowledge self
  /\ _focus_stack (fst (_call_llm llm self)) = _focus_stack self
  /\ AgentMetrics.compressions (metrics (fst (_call_llm llm self)))
     = AgentMetrics.compressions (metrics self)
  /\ AgentMetrics.messages_dropped (metrics (fst (_call_llm llm self)))
     = AgentMetrics.messages_dropped (metrics self)
  /\ AgentMetrics.trajectory (metrics (fst (_call_llm llm self)))
     = AgentMetrics.trajectory (metrics self)
  /\ AgentMetrics.total_input_tokens (metrics self)
       + AgentMetrics.total_output_tokens (metrics self)
     <= AgentMetrics.total_input_tokens (metrics (fst (_call_llm llm self)))
        + AgentMetrics.total_output_tokens (metrics (fst (_call_llm llm self))).
Proof.
  unfold _call_llm. destruct (llm _ _); cbn; repeat split; lia.
Qed.

Lemma counters_stable :
  run_stable llm
    (fun self =>
       AgentMetrics.compressions (metrics self)
       <= AgentMetrics.messages_dropped (metrics self)
       /\ AgentMetrics.compressions (metrics self) <= length (_knowledge self)).
Proof.
  split; [split; [|split; [|split]]|split].
  - intros self m H. exact H.
  - intros self H. exact H.
  - intros self d g H. exact H.
  - intros self d (H1 & H2).
    destruct (pop (_focus_stack self)) as [[focus stack']|] eqn:Hp.
    + destruct (handle_complete_focus_effect self d focus stack' Hp) as (Hk & _).
      destruct (handle_complete_focus_dropped self d focus stack' Hp) as (_ & Hd).
      rewrite Hk, length_app. cbn [length].
      destruct Hd as [(-> & ->)|(-> & Hlt)]; split; lia.
    + rewrite handle_complete_focus_none by exact Hp. now split.
  - intros self step H. exact H.
  - intros self H. destruct (call_llm_frame self) as (_ & -> & _ & -> & -> & _). exact H.
Qed.

Lemma truncate_head (self : Agent) (focus : FocusState.t) (s u : Message.t)
    (rest : list Message.t) :
  messages self = s :: u :: rest ->
  exists rest', messages (truncate_to_safe_point self focus) = s :: u :: rest'.
Proof.
  intros Hm. rewrite truncate_messages, Hm.
  destruct (0 <? messages_to_drop self focus)%Z; [|now exists rest].
  pose proof (find_safe_at_least_min self (FocusState.start_message_index focus)) as Hk.
  destruct (_find_safe_truncation_point self (FocusState.start_message_index focus))
    as [|[|k]]; [unfold min_safe in Hk; lia..|].
  exists (firstn k rest). reflexivity.
Qed.

(** The splice on two turns or more: a system turn with the same text
    before the marker, up to trailing whitespace. *)
Lemma rebuild_head (self : Agent) (m0 m1 : Message.t) (others : list Message.t) :
  messages self = m0 :: m1 :: others ->
  exists m0',
    messages (_rebuild_messages_with_knowledge self) = m0' :: m1 :: others
    /\ Message.role m0' = SYSTEM
    /\ rstrip (before_marker (Message.content m0'))
       = rstrip (before_marker (Message.content m0)).
Proof.
  intros Hm. rewrite (rebuild_messages_shape self m0 m1 others Hm).
  eexists. split; [reflexivity|]. split; [reflexivity|].
  cbn [Message.content Message.make].
  destruct (_build_knowledge_section self) as [|c ks] eqn:K.
  - rewrite app_nil_r, before_marker_id by apply kept_text_clean.
    apply rstrip_kept_text.
  - destruct (knowledge_section_marker self) as (rest & E).
    { intro Hk. unfold _build_knowledge_section in K. rewrite Hk in K. discriminate. }
    rewrite <- K, E, before_marker_appended by apply kept_text_clean.
    rewrite (rstrip_app_space _ (nl ++ nl)) by reflexivity.
    apply rstrip_kept_text.
Qed.

Lemma head_stable (task prompt : str) :
  run_stable llm
    (fun self =>
       exists s rest,
         messages self = s :: Message.make USER task :: rest
         /\ Message.role s = SYSTEM
         /\ rstrip (before_marker (Message.content s)) = rstrip (before_marker prompt)).
Proof.
  split; [split; [|split; [|split]]|split].
  - intros self m (s & rest & Hm & Hr & Hc).
    exists s, (rest ++ [m]). unfold _add_message. cbn [messages set_messages].
    rewrite Hm. auto.
  - intros self H. exact H.
  - intros self d g H. exact H.
  - intros self d (s & rest & Hm & Hr & Hc).
    destruct (pop (_focus_stack self)) as [[focus stack']|] eqn:Hp.
    + rewrite (handle_complete_focus_messages self d focus stack' Hp).
      destruct (truncate_head (record_learning self focus stack' d) focus s
                  (Message.make USER task) rest Hm) as (rest' & Ht).
      destruct (rebuild_head _ _ _ _ Ht) as (m0' & E & Hr' & Hc').
      rewrite E. exists m0', (rest' ++ [Message.make USER (continuation focus d)]).
      split; [reflexivity|]. split; [exact Hr'|]. now rewrite Hc'.
    + rewrite handle_complete_focus_none by exact Hp. now exists s, rest.
  - intros self step H. exact H.
  - intros self H. destruct (call_llm_frame self) as (-> & _). exact H.
Qed.

Lemma ledger_stable (ledger : list KnowledgeEntry.t) :
  run_stable llm (fun self => exists more, _knowledge self = ledger ++ more).
Proof.
  split; [split; [|split; [|split]]|split].
  - intros self m H. exact H.
  - intros self H. exact H.
  - intros self d g H. exact H.
  - intros self d (more & Hk).
    destruct (pop (_focus_stack self)) as [[focus stack']|] eqn:Hp.
    + destruct (handle_complete_focus_effect self d focus stack' Hp) as (Hk' & _).
      rewrite Hk', Hk, <- app_assoc. eexists. reflexivity.
    + rewrite handle_complete_focus_none by exact Hp. now exists more.
  - intros self step H. exact H.
  - intros self H. destruct (call_llm_frame self) as (_ & -> & _). exact H.
Qed.

Lemma tokens_stable :
  run_stable llm
    (fun self =>
       StronglySorted le
         (map StepSnapshot.total_tokens (AgentMetrics.trajectory (metrics self)))
       /\ Forall (fun t => t <= AgentMetrics.total_input_tokens (metrics self)
                               + AgentMetrics.total_output_tokens (metrics self))
            (map StepSnapshot.total_tokens (AgentMetrics.trajectory (metrics self)))).
Proof.
  split; [split; [|split; [|split]]|split].
  - intros self m H. exact H.
  - intros self H. exact H.
  - intros self d g H. exact H.
  - intros self d (Hs & Hb).
    destruct (pop (_focus_stack self)) as [[focus stack']|] eqn:Hp.
    + unfold _handle_complete_focus. rewrite Hp. cbn [fst].
      set (s1 := record_learning self focus stack' d).
      destruct (rebuild_frame (truncate_to_safe_point s1 focus)) as (Em & _ & _).
      cbn [_add_message set_messages record_snapshot set_metrics metrics
             AgentMetrics.total_input_tokens AgentMetrics.total_output_tokens
             AgentMetrics.trajectory].
      rewrite Em.
      assert (Ht : AgentMetrics.trajectory (metrics (truncate_to_safe_point s1 focus))
                   = AgentMetrics.trajectory (metrics self)
                   /\ AgentMetrics.total_input_tokens (metrics (truncate_to_safe_point s1 focus))
                      = AgentMetrics.total_input_tokens (metrics self)
                   /\ AgentMetrics.total_output_tokens (metrics (truncate_to_safe_point s1 focus))
                      = AgentMetrics.total_output_tokens (metrics self)).
      { unfold truncate_to_safe_point.
        destruct (0 <? messages_to_drop s1 focus)%Z; repeat split. }
      destruct Ht as (-> & -> & ->). rewrite map_app. cbn [map StepSnapshot.total_tokens].
      split; [now apply consistent_snoc|].
      apply Forall_app. split; [exact Hb|]. constructor; [lia|constructor].
    + rewrite handle_complete_focus_none by exact Hp. now split.
  - intros self step (Hs & Hb). cbn. rewrite map_app. cbn [map]. split.
    + now apply consistent_snoc.
    + apply Forall_app. split; [exact Hb|]. constructor; [cbn; lia|constructor].
  - intros self (Hs & Hb).
    destruct (call_llm_frame self) as (_ & _ & _ & _ & _ & -> & Hle).
    split; [exact Hs|]. eapply Forall_impl; [|exact Hb]. cbn. intros; lia.
Qed.

End RunInvariants.

(** X5.  At the end of every run the number of counted compressions is at
    most the number of dropped messages and at most the number of ledger
    entries: a compression is only counted when it removes a turn, and never
    without recording its learnings. *)
Theorem compressions_bounded :
  forall (tools : list Tool.t) (llm : nat -> list Message.t -> option LLMReply.t)
         (max_steps : nat) (task workspace : str),
    AgentMetrics.compressions (metrics (fst (run tools llm max_steps task workspace)))
    <= AgentMetrics.messages_dropped (metrics (fst (run tools llm max_steps task workspace)))
    /\ AgentMetrics.compressions (metrics (fst (run tools llm max_steps task workspace)))
       <= length (_knowledge (fst (run tools llm max_steps task workspace))).
Proof.
  intros tools llm max_steps task workspace. unfold run.
  apply (run_from_stable tools llm _ max_steps 0 _ (counters_stable llm)).
  cbn. split; lia.
Qed.

(** A pattern cannot begin inside a text that lacks its first code
    point. *)
Lemma contains_skip_head (h : N) (m p t : str) :
  existsb (N.eqb h) p = false ->
  contains (h :: m) (p ++ t) = contains (h :: m) t.
Proof.
  induction p as [|c p IH]; intros H; [reflexivity|].
  cbn [existsb] in H. apply orb_false_iff in H as [Hc Hp].
  specialize (IH Hp). unfold contains in *. simpl app.
  rewrite (partition_unfold (h :: m) (c :: p ++ t)).
  cbn [startswith]. rewrite Hc. cbn [andb].
  destruct (partition (h :: m) (p ++ t)) as [[u v]|];
    destruct (partition (h :: m) t) as [[x y]|]; congruence.
Qed.

(** The system prompt has the knowledge marker only where the workspace
    path has it. *)
Lemma system_prompt_clean (workspace : str) :
  contains knowledge_marker workspace = false ->
  contains knowledge_marker (system_prompt workspace) = false.
Proof.
  intros Hw. unfold system_prompt.
  match goal with
  | |- contains _ (?p ++ _ ++ ?t) = _ =>
      remember p as before eqn:Hb; remember t as after eqn:Ha
  end.
  assert (Hp : existsb (N.eqb 35%N) before = false) by (subst before; reflexivity).
  assert (Ht : exists r, after = 10%N :: r /\ partition knowledge_marker r = None).
  { subst after. eexists. split; [reflexivity|]. vm_compute. reflexivity. }
  clear Hb Ha. destruct Ht as (r & -> & Hr).
  change knowledge_marker with (35%N :: tl knowledge_marker).
  rewrite (contains_skip_head 35%N (tl knowledge_marker) before _ Hp).
  change (35%N :: tl knowledge_marker) with knowledge_marker.
  unfold contains.
  rewrite (partition_skip knowledge_marker workspace r 10%N); [now rewrite Hr| | |exact Hw].
  - discriminate.
  - vm_compute. intuition discriminate.
Qed.

(** X6.  Whatever the provider and the tools do, the buffer of a run keeps
    its two initial turns in place: the second turn is the user turn
    carrying the task, and the first is a system turn whose text before the
    first knowledge marker is, up to trailing whitespace, the text of the
    system prompt before its first knowledge marker.  When the workspace
    path does not contain the marker, that is the whole system prompt. *)
Theorem run_keeps_initial_turns :
  forall (tools : list Tool.t) (llm : nat -> list Message.t -> option LLMReply.t)
         (max_steps : nat) (task workspace : str),
    exists s rest,
      messages (fst (run tools llm max_steps task workspace))
      = s :: Message.make USER task :: rest
      /\ Message.role s = SYSTEM
      /\ rstrip (before_marker (Message.content s))
         = rstrip (before_marker (system_prompt workspace))
      /\ (contains knowledge_marker workspace = false ->
          rstrip (before_marker (Message.content s)) = rstrip (system_prompt workspace)).
Proof.
  intros tools llm max_steps task workspace.
  assert (H : exists s rest,
             messages (fst (run tools llm max_steps task workspace))
             = s :: Message.make USER task :: rest
             /\ Message.role s = SYSTEM
             /\ rstrip (before_marker (Message.content s))
                = rstrip (before_marker (system_prompt workspace))).
  { unfold run.
    apply (run_from_stable tools llm _ max_steps 0 _
             (head_stable llm task (system_prompt workspace))).
    eexists. exists []. split; [reflexivity|]. split; reflexivity. }
  destruct H as (s & rest & Hm & Hr & Hc).
  exists s, rest. split; [exact Hm|]. split; [exact Hr|]. split; [exact Hc|].
  intros Hw. rewrite Hc.
  now rewrite (before_marker_id _ (system_prompt_clean workspace Hw)).
Qed.

Lemma run_keeps_initial_turns_witness :
  exists s rest,
    messages (fst (run [Cases.echo_tool] Traces.llm_scenario 5 (py "task") (py "/w")))
    = s :: Message.make USER (py "task") :: rest
    /\ Message.role s = SYSTEM
    /\ rstrip (before_marker (Message.content s)) = rstrip (system_prompt (py "/w")).
Proof.
  destruct (run_keeps_initial_turns [Cases.echo_tool] Traces.llm_scenario 5
              (py "task") (py "/w")) as (s & rest & Hm & Hr & _ & Hc).
  exists s, rest. split; [exact Hm|]. split; [exact Hr|].
  apply Hc. reflexivity.
Defined.

(** X7.  The knowledge ledger is append-only: from any state, whatever the
    step loop does in any number of iterations, the ledger it leaves is the
    ledger it found followed by new entries. *)
Theorem ledger_grows :
  forall (tools : list Tool.t) (llm : nat -> list Message.t -> option LLMReply.t)
         (self : Agent) (step remaining : nat),
    exists more,
      _knowledge (fst (run_from tools llm self step remaining)) = _knowledge self ++ more.
Proof.
  intros tools llm self step remaining.
  apply (run_from_stable tools llm _ remaining step self (ledger_stable llm (_knowledge self))).
  exists []. now rewrite app_nil_r.
Qed.

(** X8.  The cumulative token totals recorded in the trajectory of a run
    never decrease, and none exceeds the totals the run ends with. *)
Theorem trajectory_tokens :
  forall (tools : list Tool.t) (llm : nat -> list Message.t -> option LLMReply.t)
         (max_steps : nat) (task workspace : str),
    StronglySorted le
      (map StepSnapshot.total_tokens
         (AgentMetrics.trajectory (metrics (fst (run tools llm max_steps task workspace)))))
    /\ Forall
         (fun t =>
            t <= AgentMetrics.total_input_tokens
                   (metrics (fst (run tools llm max_steps task workspace)))
                 + AgentMetrics.total_output_tokens
                     (metrics (fst (run tools llm max_steps task workspace))))
         (map StepSnapshot.total_tokens
            (AgentMetrics.trajectory (metrics (fst (run tools llm max_steps task workspace))))).
Proof.
  intros tools llm max_steps task workspace. unfold run.
  apply (run_from_stable tools llm _ max_steps 0 _ (tokens_stable llm)).
  split; cbn; constructor.
Qed.

(* ================================================================= *)
(** ** Returning with success *)

Section Success.

Variable tools : list Tool.t.
Variable llm : nat -> list Message.t -> option LLMReply.t.

(** What an iteration that returns has done: one inference call, the reply
    appended and a snapshot taken; no tool was run. *)
Lemma run_step_returns (c l step : nat) (self self' : Agent) (result : TaskResult.t) :
  step_count c l self ->
  run_step tools llm self step = (self', Return result) ->
  result = TaskResult.mk true (TaskResult.output result) None (_metrics_to_dict self')
  /\ contains TASK_COMPLETE (TaskResult.output result) = true
  /\ (exists calls,
         messages self'
         = messages self ++ [Message.mk ASSISTANT (TaskResult.output result) calls None None])
  /\ AgentMetrics.tool_calls (metrics self') = AgentMetrics.tool_calls (metrics self)
  /\ step_count (S c) (S l) self'.
Proof.
  intros (Ht & Hl). unfold run_step, _call_llm.
  destruct (llm (AgentMetrics.llm_calls (metrics self)) (messages self)) as [reply|];
    [|discriminate].
  cbn [Message.content Message.tool_calls].
  destruct (contains TASK_COMPLETE (LLMReply.content reply)) eqn:C.
  - intros H. inversion H; subst. cbn [TaskResult.output].
    split; [reflexivity|]. split; [exact C|].
    split; [eexists; reflexivity|]. split; [reflexivity|].
    unfold step_count. cbn. rewrite length_app. cbn [length]. lia.
  - destruct (LLMReply.tool_calls reply) as [|call calls]; [discriminate|].
    destruct (handle_tool_calls tools _ (call :: calls)) as [self4 []]; discriminate.
Qed.

Lemma run_from_returns (remaining c l step : nat) (self self' : Agent)
    (result : TaskResult.t) :
  step_count c l self ->
  run_from tools llm self step remaining = (self', Some result) ->
  TaskResult.success result = true ->
  exists before k,
    k < remaining
    /\ step_count (c + k) (l + k) before
    /\ run_step tools llm before (step + k) = (self', Return result).
Proof.
  revert c l step self. induction remaining as [|remaining IH]; intros c l step self H.
  - cbn [run_from]. intros E Hs. inversion E; subst. discriminate Hs.
  - cbn [run_from]. destruct (run_step tools llm self step) as [self1 exit] eqn:E.
    destruct exit as [|result'|].
    + intros E' Hs.
      destruct (IH _ _ _ _ (run_step_counts tools llm c l step self self1 H E) E' Hs)
        as (before & k & Hk & Hc & Hr).
      exists before, (S k). split; [lia|].
      rewrite <- !Nat.add_succ_comm. auto.
    + intros E' Hs. inversion E'; subst.
      exists self, 0. rewrite !Nat.add_0_r. split; [lia|]. auto.
    + discriminate.
Qed.

End Success.

(** X9.  A run that returns with success stopped at a reply containing
    TASK_COMPLETE, before running any action that reply requested: the
    result carries that reply's text and no error, the reply is the last
    turn of the buffer, at least one and at most [max_steps] inference calls
    were made, and the trajectory holds one snapshot per inference call
    besides one per ledger entry. *)
Theorem success_result :
  forall (tools : list Tool.t) (llm : nat -> list Message.t -> option LLMReply.t)
         (max_steps : nat) (task workspace : str) (self : Agent) (result : TaskResult.t),
    run tools llm max_steps task workspace = (self, Some result) ->
    TaskResult.success result = true ->
    contains TASK_COMPLETE (TaskResult.output result) = true
    /\ TaskResult.error result = None
    /\ (exists before calls,
           messages self
           = before ++ [Message.mk ASSISTANT (TaskResult.output result) calls None None])
    /\ 1 <= MetricsDict.llm_calls (TaskResult.metrics result) <= max_steps
    /\ length (MetricsDict.trajectory (TaskResult.metrics result))
       = MetricsDict.llm_calls (TaskResult.metrics result)
         + MetricsDict.knowledge_entries (TaskResult.metrics result).
Proof.
  intros tools llm max_steps task workspace self result. unfold run.
  set (start := _add_message _ (Message.make USER task)).
  intros E Hs.
  assert (H0 : step_count 0 0 start) by (split; reflexivity).
  destruct (run_from_returns tools llm max_steps 0 0 0 start self result H0 E Hs)
    as (before & k & Hk & Hc & Hr).
  destruct (run_step_returns tools llm _ _ _ before self result Hc Hr)
    as (Hres & Hcon & (calls & Hm) & _ & Ht & Hl).
  split; [exact Hcon|]. rewrite Hres. cbn.
  split; [reflexivity|]. split; [now exists (messages before), calls|].
  rewrite Hl, Ht. split; lia.
Qed.

Lemma success_result_witness :
  exists self result,
    run [] (fun _ _ => Some (LLMReply.mk (py "TASK_COMPLETE: done") [Scenario.ask_ls] 7 3))
      5 (py "task") (py "/w") = (self, Some result)
    /\ contains TASK_COMPLETE (TaskResult.output result) = true
    /\ TaskResult.error result = None
    /\ (exists before calls,
           messages self
           = before ++ [Message.mk ASSISTANT (TaskResult.output result) calls None None])
    /\ 1 <= MetricsDict.llm_calls (TaskResult.metrics result) <= 5
    /\ length (MetricsDict.trajectory (TaskResult.metrics result))
       = MetricsDict.llm_calls (TaskResult.metrics result)
         + MetricsDict.knowledge_entries (TaskResult.metrics result).
Proof.
  eexists. eexists. split; [reflexivity|].
  exact (success_result []
           (fun _ _ => Some (LLMReply.mk (py "TASK_COMPLETE: done") [Scenario.ask_ls] 7 3))
           5 (py "task") (py "/w") _ _ eq_refl eq_refl).
Defined.

(* ================================================================= *)
(** ** Single calls in the batch loop *)

(** X10.  A call to a tool the agent does not have is answered in the
    buffer by the tool-result turn "Error: Unknown tool: <name>"; nothing is
    counted, the stack and the ledger are untouched, and the loop goes on
    with the remaining calls. *)
Theorem unknown_tool_call :
  forall (tools : list Tool.t) (self : Agent) (call : ToolCall.t) (rest : list ToolCall.t),
    _get_tool_by_name tools (ToolCall.name call) = None ->
    handle_tool_calls tools self (call :: rest) =
    handle_tool_calls tools
      (_add_message self
         (Message.mk TOOL (py "Error: Unknown tool: " ++ ToolCall.name call)
            [] (Some (ToolCall.id call)) (Some (ToolCall.name call))))
      rest.
Proof.
  intros tools self call rest Hg. cbn [handle_tool_calls].
  unfold _execute_tool_with_focus, _execute_tool. rewrite Hg. reflexivity.
Qed.

Lemma unknown_tool_call_witness :
  handle_tool_calls [] Scenario.unfocused_agent [Scenario.ask_ls; Scenario.ask_start] =
  handle_tool_calls []
    (_add_message Scenario.unfocused_agent
       (Message.mk TOOL (py "Error: Unknown tool: " ++ py "ls")
          [] (Some (py "c3")) (Some (py "ls"))))
    [Scenario.ask_start].
Proof.
  exact (unknown_tool_call [] Scenario.unfocused_agent Scenario.ask_ls [Scenario.ask_start]
           eq_refl).
Defined.

Section ParsedSignals.

Lemma startswith_not_empty (s p : str) :
  p <> [] -> startswith s p = true -> PyStr.eqb s [] = false.
Proof.
  intros Hp H. destruct s as [|c s].
  - destruct p; [congruence|simpl in H; discriminate].
  - unfold PyStr.eqb. destruct (list_eq_dec N.eq_dec (c :: s) []); [discriminate|reflexivity].
Qed.

Lemma parsed_start_not_empty (output description goal : str) :
  parse_focus_start output = Some (description, goal) -> PyStr.eqb output [] = false.
Proof.
  unfold parse_focus_start.
  destruct (startswith output (py "FOCUS_START::")) eqn:S; [|discriminate].
  intros _. apply (startswith_not_empty output (py "FOCUS_START::")); [discriminate|exact S].
Qed.

(** A text read as a completion begins with FOCUS_COMPLETE:: and so is not
    read as an opening. *)
Lemma parsed_complete_not_start (output : str) (focus_data : FocusData.t) :
  parse_focus_complete output = Some focus_data ->
  parse_focus_start output = None /\ PyStr.eqb output [] = false.
Proof.
  unfold parse_focus_complete.
  destruct (startswith output (py "FOCUS_COMPLETE::")) eqn:S; [|discriminate].
  intros _. split.
  - apply startswith_eq in S.
    remember (skipn (length (py "FOCUS_COMPLETE::")) output) as rest eqn:Hr. clear Hr.
    subst output. reflexivity.
  - apply (startswith_not_empty output (py "FOCUS_COMPLETE::")); [discriminate|exact S].
Qed.

End ParsedSignals.

(** X11.  A focus is opened by the text of a result alone: whenever any
    tool, whatever its name, succeeds with an output that
    [parse_focus_start] reads as a description and a goal, the agent pushes
    a focus with that description and goal anchored at the current buffer
    length, leaves buffer and ledger as they are, and replaces the result by
    the "Focus started" text. *)
Theorem start_signal_opens_focus :
  forall (tools : list Tool.t) (self : Agent) (name id : str) (arguments : Args)
         (tool : Tool.t) (base : ToolResult.t) (description goal : str),
    _get_tool_by_name tools name = Some tool ->
    Tool.execute tool (AgentMetrics.tool_calls (metrics self)) arguments = Some base ->
    ToolResult.success base = true ->
    parse_focus_start (ToolResult.output base) = Some (description, goal) ->
    exists self' result,
      _execute_tool_with_focus tools self name arguments id = (self', Some result)
      /\ _focus_stack self'
         = _focus_stack self ++ [FocusState.mk description goal (length (messages self))]
      /\ messages self' = messages self
      /\ _knowledge self' = _knowledge self
      /\ ToolResult.success result = true
      /\ ToolResult.is_compression result = false
      /\ ToolResult.output result
         = py "Focus started: " ++ description ++ nl ++ py "Goal: " ++ goal
           ++ nl ++ nl ++ py "Proceeding with investigation...".
Proof.
  intros tools self name id arguments tool base description goal Hg He Hs Hp.
  unfold _execute_tool_with_focus, _execute_tool.
  rewrite Hg, He, Hs, (parsed_start_not_empty _ _ _ Hp), Hp. cbn [andb negb].
  eexists. eexists. split; [reflexivity|]. repeat split.
Qed.

Lemma start_signal_opens_focus_witness :
  exists self' result,
    _execute_tool_with_focus [Cases.echo_tool] Scenario.unfocused_agent
      (py "echo") [(py "text", py "FOCUS_START::a:::g")] (py "c4") = (self', Some result)
    /\ _focus_stack self' = [] ++ [FocusState.mk (py "a") (py ":g") 3]
    /\ ToolResult.is_compression result = false.
Proof.
  destruct (start_signal_opens_focus [Cases.echo_tool] Scenario.unfocused_agent
              (py "echo") (py "c4") [(py "text", py "FOCUS_START::a:::g")]
              Cases.echo_tool (ToolResult.make true (py "FOCUS_START::a:::g"))
              (py "a") (py ":g") eq_refl eq_refl eq_refl eq_refl)
    as (self' & result & E & Hs & _ & _ & _ & Hc & _).
  exists self', result. auto.
Defined.

(** X12.  A completion ends the batch: when a call succeeds with an output
    that [parse_focus_complete] reads as a completion, with or without a
    next action, while a focus is open, the loop stops with the state the
    completion leaves; the call gets no tool-result turn and the calls after
    it in the batch are never executed. *)
Theorem completion_ends_batch :
  forall (tools : list Tool.t) (self : Agent) (call : ToolCall.t) (rest : list ToolCall.t)
         (tool : Tool.t) (base : ToolResult.t) (focus_data : FocusData.t),
    _focus_stack self <> [] ->
    _get_tool_by_name tools (ToolCall.name call) = Some tool ->
    Tool.execute tool (AgentMetrics.tool_calls (metrics self)) (ToolCall.arguments call)
    = Some base ->
    ToolResult.success base = true ->
    parse_focus_complete (ToolResult.output base) = Some focus_data ->
    handle_tool_calls tools self (call :: rest)
    = (fst (_handle_complete_focus (count_tool_call self) focus_data), FocusCompleted).
Proof.
  intros tools self call rest tool base focus_data Hst Hg He Hs Hp.
  destruct (parsed_complete_not_start _ _ Hp) as (Hn & Hne).
  cbn [handle_tool_calls]. unfold _execute_tool_with_focus, _execute_tool.
  rewrite Hg, He, Hs, Hne, Hn, Hp. cbn [andb negb].
  destruct (pop (_focus_stack (count_tool_call self))) as [[focus stack']|] eqn:Hpop.
  - pose proof (handle_complete_focus_effect (count_tool_call self) focus_data
                  focus stack' Hpop) as (_ & _ & _ & _ & _ & _ & Hc).
    destruct (_handle_complete_focus (count_tool_call self) focus_data) as [self2 r].
    cbn [fst snd] in *. now rewrite Hc.
  - apply pop_nil_iff in Hpop. contradiction.
Qed.

Lemma completion_ends_batch_witness :
  handle_tool_calls [Cases.echo_tool] Cases.inner_agent
    [ToolCall.mk (py "c6") (py "echo") [(py "text", py "FOCUS_COMPLETE::success::X")];
     Scenario.ask_ls]
  = (fst (_handle_complete_focus (count_tool_call Cases.inner_agent)
            (FocusData.mk (py "success") (py "X") [])),
     FocusCompleted).
Proof.
  apply (completion_ends_batch [Cases.echo_tool] Cases.inner_agent
           (ToolCall.mk (py "c6") (py "echo") [(py "text", py "FOCUS_COMPLETE::success::X")])
           [Scenario.ask_ls] Cases.echo_tool
           (ToolResult.make true (py "FOCUS_COMPLETE::success::X"))
           (FocusData.mk (py "success") (py "X") []));
    try reflexivity.
  discriminate.
Defined.

(* ================================================================= *)
(** ** What the parsers accept *)

Section Parsers.

(** The text before the leftmost [::] neither contains [::] nor ends with a
    colon. *)
Lemma partition_separator_free_left (s a b : str) :
  partition (py "::") s = Some (a, b) -> separator_free a = true.
Proof.
  unfold separator_free. rewrite negb_true_iff.
  revert a. induction s as [|c s IH]; intros a H; rewrite partition_unfold in H.
  - discriminate H.
  - destruct (startswith (c :: s) (py "::")) eqn:E.
    + inversion H; subst. reflexivity.
    + destruct (partition (py "::") s) as [[u v]|] eqn:P; [|discriminate].
      inversion H; subst a v. specialize (IH u eq_refl).
      apply partition_sound in P. subst s.
      unfold contains in *.
      change ((c :: u) ++ py ":") with (c :: (u ++ py ":")).
      rewrite partition_unfold.
      assert (Hs : startswith (c :: (u ++ py ":")) (py "::") = false).
      { clear - E. destruct u; exact E. }
      rewrite Hs.
      destruct (partition (py "::") (u ++ py ":")) as [[x y]|]; [discriminate|reflexivity].
Qed.

Lemma split_once_more (s : str) :
  split (py "::") 1 s =
  match partition (py "::") s with
  | Some (a, b) => [a; b]
  | None => [s]
  end.
Proof. cbn [split]. now destruct (partition (py "::") s) as [[a b]|]. Qed.

End Parsers.

(** X13.  [parse_focus_start] accepts exactly the texts
    FOCUS_START::description::goal whose description neither contains [::]
    nor ends with a colon, and returns that description and goal; every
    other text gives None.  So re-encoding what was parsed gives back the
    text that was parsed. *)
Theorem parse_focus_start_iff :
  forall (output description goal : str),
    parse_focus_start output = Some (description, goal)
    <-> output = focus_start_signal description goal
        /\ separator_free description = true.
Proof.
  intros output description goal. split.
  - unfold parse_focus_start.
    destruct (startswith output (py "FOCUS_START::")) eqn:S; [|discriminate].
    apply startswith_eq in S. set (rest := skipn _ output) in S.
    rewrite S at 1.
    change (py "FOCUS_START::" ++ rest) with (py "FOCUS_START" ++ py "::" ++ rest).
    cbn [split]. rewrite (partition_separator_free (py "FOCUS_START")) by reflexivity.
    destruct (partition (py "::") rest) as [[a b]|] eqn:P; [|discriminate].
    intros H. inversion H; subst a b.
    split; [|exact (partition_separator_free_left _ _ _ P)].
    apply partition_sound in P. rewrite S, P. reflexivity.
  - intros (-> & Hd). now apply parse_focus_start_signal.
Qed.

(** X14.  [parse_focus_complete] accepts exactly two shapes of text, both
    with an outcome that neither contains [::] nor ends with a colon:
    FOCUS_COMPLETE::outcome::learnings::next with learnings that neither
    contain [::] nor end with a colon, and FOCUS_COMPLETE::outcome::learnings
    with no [::] in the learnings, for which the next action is empty. *)
Theorem parse_focus_complete_iff :
  forall (output outcome learnings next_action : str),
    parse_focus_complete output = Some (FocusData.mk outcome learnings next_action)
    <-> separator_free outcome = true
        /\ (output = focus_complete_signal outcome learnings next_action
            /\ separator_free learnings = true
            \/ output = py "FOCUS_COMPLETE::" ++ outcome ++ py "::" ++ learnings
               /\ contains (py "::") learnings = false
               /\ next_action = []).
Proof.
  intros output outcome learnings next_action. split.
  - unfold parse_focus_complete.
    destruct (startswith output (py "FOCUS_COMPLETE::")) eqn:S; [|discriminate].
    apply startswith_eq in S.
    remember (skipn (length (py "FOCUS_COMPLETE::")) output) as rest eqn:Hr. clear Hr.
    rewrite S at 1.
    change (py "FOCUS_COMPLETE::" ++ rest) with (py "FOCUS_COMPLETE" ++ py "::" ++ rest).
    change (split (py "::") 3 (py "FOCUS_COMPLETE" ++ py "::" ++ rest)) with
      (match partition (py "::") (py "FOCUS_COMPLETE" ++ py "::" ++ rest) with
       | None => [py "FOCUS_COMPLETE" ++ py "::" ++ rest]
       | Some (a, b) =>
           a :: match partition (py "::") b with
                | None => [b]
                | Some (a', b') => a' :: split (py "::") 1 b'
                end
       end).
    rewrite (partition_separator_free (py "FOCUS_COMPLETE")) by reflexivity.
    destruct (partition (py "::") rest) as [[a b]|] eqn:P; [|discriminate].
    rewrite split_once_more.
    pose proof (partition_separator_free_left _ _ _ P) as Ha.
    apply partition_sound in P.
    destruct (partition (py "::") b) as [[c e]|] eqn:P2; intros H; inversion H.
    + subst a c e. split; [exact Ha|]. left.
      split; [|exact (partition_separator_free_left _ _ _ P2)].
      apply partition_sound in P2. rewrite S, P, P2. reflexivity.
    + subst a b. split; [exact Ha|]. right. split; [now rewrite S, P|].
      split; [|reflexivity]. unfold contains. now rewrite P2.
  - intros (Ho & [(-> & Hl)|(-> & Hc & ->)]).
    + now apply parse_focus_complete_signal.
    + unfold parse_focus_complete. rewrite startswith_app.
      change (py "FOCUS_COMPLETE::" ++ outcome ++ py "::" ++ learnings)
        with (py "FOCUS_COMPLETE" ++ py "::" ++ (outcome ++ py "::" ++ learnings)).
      cbn [split].
      rewrite (partition_separator_free (py "FOCUS_COMPLETE")) by reflexivity.
      rewrite (partition_separator_free outcome learnings Ho).
      unfold contains in Hc.
      destruct (partition (py "::") learnings) as [[x y]|]; [discriminate|reflexivity].
Qed.

(* ================================================================= *)
(** ** The baseline agent *)

Section BaselineLemmas.

Variable tools : list Tool.t.
Variable llm : nat -> list Message.t -> option LLMReply.t.

Lemma baseline_extends_refl (self : Agent) : baseline_extends self self.
Proof. repeat split. exists []. now rewrite app_nil_r. Qed.

Lemma baseline_extends_trans (a b c : Agent) :
  baseline_extends a b -> baseline_extends b c -> baseline_extends a c.
Proof.
  intros ((m1 & H1) & H2 & H3 & H4 & H5) ((m2 & G1) & G2 & G3 & G4 & G5).
  repeat split; try congruence.
  exists (m1 ++ m2). now rewrite G1, H1, app_assoc.
Qed.

Lemma baseline_extends_add (self : Agent) (m : Message.t) :
  baseline_extends self (_add_message self m).
Proof. repeat split. now exists [m]. Qed.

Lemma baseline_execute_tool_extends (self : Agent) (name : str) (arguments : Args) :
  baseline_extends self (fst (Baseline._execute_tool tools self name arguments))
  /\ messages (fst (Baseline._execute_tool tools self name arguments)) = messages self.
Proof.
  unfold Baseline._execute_tool.
  destruct (Baseline._get_tool_by_name tools name); cbn [fst];
    (split; [apply baseline_extends_refl || (repeat split; exists []; now rewrite app_nil_r)
            |reflexivity]).
Qed.

Lemma baseline_handle_tool_calls_extends (calls : list ToolCall.t) (self : Agent) :
  baseline_extends self (fst (Baseline.handle_tool_calls tools self calls)).
Proof.
  revert self. induction calls as [|call rest IH]; intros self;
    [apply baseline_extends_refl|].
  cbn [Baseline.handle_tool_calls].
  destruct (baseline_execute_tool_extends self (ToolCall.name call) (ToolCall.arguments call))
    as (H1 & _).
  destruct (Baseline._execute_tool tools self (ToolCall.name call) (ToolCall.arguments call))
    as [self1 [result|]]; cbn [fst] in *; [|exact H1].
  eapply baseline_extends_trans; [exact H1|].
  eapply baseline_extends_trans; [apply baseline_extends_add|apply IH].
Qed.

Lemma baseline_call_llm_extends (self : Agent) :
  baseline_extends self (fst (_call_llm llm self)).
Proof.
  destruct (call_llm_frame llm self) as (Hm & Hk & Hs & Hc & Hd & _).
  repeat split; try assumption. exists []. now rewrite app_nil_r.
Qed.

Lemma baseline_run_step_extends (self : Agent) (step : nat) :
  baseline_extends self (fst (Baseline.run_step tools llm self step)).
Proof.
  unfold Baseline.run_step. pose proof (baseline_call_llm_extends self) as H1.
  destruct (_call_llm llm self) as [self1 [response|]]; cbn [fst] in *; [|exact H1].
  assert (H3 : baseline_extends self (record_snapshot (_add_message self1 response) step)).
  { eapply baseline_extends_trans; [exact H1|].
    eapply baseline_extends_trans; [apply baseline_extends_add|].
    repeat split. exists []. now rewrite app_nil_r. }
  destruct (contains TASK_COMPLETE (Message.content response)); [exact H3|].
  destruct (Message.tool_calls response) as [|call calls].
  - eapply baseline_extends_trans; [exact H3|apply baseline_extends_add].
  - pose proof (baseline_handle_tool_calls_extends (call :: calls)
                  (record_snapshot (_add_message self1 response) step)) as H4.
    destruct (Baseline.handle_tool_calls tools _ (call :: calls)) as [self4 []];
      cbn [fst] in *; eapply baseline_extends_trans; eassumption.
Qed.

Lemma baseline_run_from_extends (remaining step : nat) (self : Agent) :
  baseline_extends self (fst (Baseline.run_from tools llm self step remaining)).
Proof.
  revert step self. induction remaining as [|remaining IH]; intros step self;
    [apply baseline_extends_refl|].
  cbn [Baseline.run_from]. pose proof (baseline_run_step_extends self step) as H1.
  destruct (Baseline.run_step tools llm self step) as [self1 []]; cbn [fst] in *;
    [|exact H1|exact H1].
  eapply baseline_extends_trans; [exact H1|apply IH].
Qed.

Lemma ordered_scan_app (pending : list str) (a b : list Message.t) :
  ordered_scan pending (a ++ b) =
  match ordered_scan pending a with
  | Some q => ordered_scan q b
  | None => None
  end.
Proof.
  revert pending. induction a as [|m a IH]; intros pending; simpl; [reflexivity|].
  destruct (ordered_step pending m); [apply IH|reflexivity].
Qed.

(** Results in the order of the requests are results of the requests. *)
Lemma ordered_step_pairing (pending q : list str) (m : Message.t) :
  ordered_step pending m = Some q -> pairing_step pending m = Some q.
Proof.
  unfold ordered_step, pairing_step.
  destruct (Message.role m); try exact (fun H => H).
  destruct (Message.tool_call_id m) as [i|]; [|discriminate].
  destruct pending as [|j pending']; [discriminate|].
  cbn [remove_id]. destruct (PyStr.eqb i j); [exact (fun H => H)|discriminate].
Qed.

Lemma ordered_scan_pairing (msgs : list Message.t) (pending q : list str) :
  ordered_scan pending msgs = Some q -> pairing_scan pending msgs = Some q.
Proof.
  revert pending. induction msgs as [|m msgs IH]; intros pending; [exact (fun H => H)|].
  cbn [ordered_scan pairing_scan].
  destruct (ordered_step pending m) as [p|] eqn:E; [|discriminate].
  rewrite (ordered_step_pairing _ _ _ E). apply IH.
Qed.

(** Answering the requested actions in order closes the group. *)
Lemma baseline_handle_tool_calls_pairs (calls : list ToolCall.t) (self self' : Agent) :
  ordered_scan [] (messages self) = Some (map ToolCall.id calls) ->
  Baseline.handle_tool_calls tools self calls = (self', true) ->
  tool_pairing_in_order (messages self').
Proof.
  revert self. induction calls as [|call rest IH]; intros self Hp.
  - cbn. intros H. inversion H; subst. exact Hp.
  - cbn [Baseline.handle_tool_calls].
    destruct (baseline_execute_tool_extends self (ToolCall.name call)
                (ToolCall.arguments call)) as (_ & Hm).
    destruct (Baseline._execute_tool tools self (ToolCall.name call) (ToolCall.arguments call))
      as [self1 [result|]]; cbn [fst] in Hm; [|discriminate].
    apply IH. unfold _add_message. cbn [messages set_messages].
    rewrite ordered_scan_app, Hm, Hp. cbn. now rewrite eqb_refl.
Qed.

Lemma baseline_run_step_pairs (self self' : Agent) (step : nat) :
  tool_pairing_in_order (messages self) ->
  Baseline.run_step tools llm self step = (self', Baseline.Continue) ->
  tool_pairing_in_order (messages self').
Proof.
  unfold tool_pairing_in_order, Baseline.run_step. intros Hp.
  destruct (call_llm_frame llm self) as (Hm & _).
  unfold _call_llm in *.
  destruct (llm (AgentMetrics.llm_calls (metrics self)) (messages self)) as [reply|];
    [|discriminate].
  cbn [fst Message.content Message.tool_calls] in *.
  destruct (contains TASK_COMPLETE (LLMReply.content reply)); [discriminate|].
  destruct (LLMReply.tool_calls reply) as [|call calls] eqn:C.
  - intros H. inversion H; subst. cbn [_add_message record_snapshot set_messages
                                         set_metrics messages].
    rewrite !ordered_scan_app, Hp. reflexivity.
  - set (self3 := record_snapshot _ step).
    destruct (Baseline.handle_tool_calls tools self3 (call :: calls)) as [self4 ok] eqn:E.
    destruct ok; [|discriminate]. intros H. inversion H; subst.
    apply (baseline_handle_tool_calls_pairs (call :: calls) self3 self'); [|exact E].
    unfold self3. cbn [_add_message record_snapshot set_messages set_metrics messages].
    rewrite ordered_scan_app, Hp. reflexivity.
Qed.

Lemma baseline_run_from_pairs (remaining step : nat) (self self' : Agent)
    (result : Baseline.TaskResult.t) :
  tool_pairing_in_order (messages self) ->
  Baseline.run_from tools llm self step remaining = (self', Some result) ->
  Baseline.TaskResult.success result = false ->
  tool_pairing_in_order (messages self').
Proof.
  revert step self. induction remaining as [|remaining IH]; intros step self Hp.
  - cbn. intros H _. inversion H; subst. exact Hp.
  - cbn [Baseline.run_from].
    destruct (Baseline.run_step tools llm self step) as [self1 exit] eqn:E.
    destruct exit as [|result'|].
    + apply IH. exact (baseline_run_step_pairs self self1 step Hp E).
    + intros H Hs. inversion H; subst. exfalso. revert E Hs. clear.
      unfold Baseline.run_step.
      destruct (_call_llm llm self) as [s1 [response|]]; [|discriminate].
      destruct (contains TASK_COMPLETE (Message.content response)).
      * intros H. inversion H. discriminate.
      * destruct (Message.tool_calls response) as [|c cs]; [discriminate|].
        destruct (Baseline.handle_tool_calls tools _ (c :: cs)) as [s4 []]; discriminate.
    + discriminate.
Qed.

End BaselineLemmas.

(** X15.  The baseline agent only appends: from any state, whatever its
    step loop does in any number of iterations, the buffer it leaves is the
    buffer it found followed by new turns, and the counters of compressions
    and of dropped messages are as it found them. *)
Theorem baseline_only_appends :
  forall (tools : list Tool.t) (llm : nat -> list Message.t -> option LLMReply.t)
         (self : Agent) (step remaining : nat),
    (exists more,
        messages (fst (Baseline.run_from tools llm self step remaining))
        = messages self ++ more)
    /\ AgentMetrics.compressions (metrics (fst (Baseline.run_from tools llm self step remaining)))
       = AgentMetrics.compressions (metrics self)
    /\ AgentMetrics.messages_dropped
         (metrics (fst (Baseline.run_from tools llm self step remaining)))
       = AgentMetrics.messages_dropped (metrics self).
Proof.
  intros tools llm self step remaining.
  destruct (baseline_run_from_extends tools llm remaining step self)
    as (H1 & H2 & H3 & _).
  auto.
Qed.

(** X16.  A baseline run that ends at the step limit leaves a buffer in
    which every assistant turn with requested actions is followed by one
    tool-result turn per action, in the order of the requests, and no
    tool-result turn stands elsewhere; so the buffer satisfies the
    tool-pairing invariant. *)
Theorem baseline_keeps_pairing :
  forall (tools : list Tool.t) (llm : nat -> list Message.t -> option LLMReply.t)
         (max_steps : nat) (task workspace : str) (self : Agent)
         (result : Baseline.TaskResult.t),
    Baseline.run tools llm max_steps task workspace = (self, Some result) ->
    Baseline.TaskResult.success result = false ->
    tool_pairing_in_order (messages self) /\ tool_pairing (messages self).
Proof.
  intros tools llm max_steps task workspace self result E Hs.
  unfold Baseline.run in E.
  assert (H : tool_pairing_in_order (messages self)).
  { eapply (baseline_run_from_pairs tools llm max_steps 0); [|exact E|exact Hs].
    reflexivity. }
  split; [exact H|]. apply ordered_scan_pairing. exact H.
Qed.

Lemma baseline_keeps_pairing_witness :
  exists self,
    fst (Baseline.run [Cases.echo_tool]
           (fun _ _ => Some (LLMReply.mk [] [Cases.ask_echo_start; Scenario.ask_ls] 4 2))
           2 (py "task") (py "/w")) = self
    /\ map Message.tool_call_id (skipn 2 (messages self))
       = [None; Some (py "c4"); Some (py "c3"); None; Some (py "c4"); Some (py "c3")]
    /\ tool_pairing_in_order (messages self)
    /\ tool_pairing (messages self).
Proof.
  eexists. split; [reflexivity|]. split; [reflexivity|].
  eapply (baseline_keeps_pairing [Cases.echo_tool]
            (fun _ _ => Some (LLMReply.mk [] [Cases.ask_echo_start; Scenario.ask_ls] 4 2))
            2 (py "task") (py "/w")); reflexivity.
Defined.

(* ================================================================= *)
(** ** Requests to the Anthropic provider *)

Section AnthropicLemmas.

Import Anthropic.

Lemma request_fold (msgs : list Message.t) (system : str) (api : list ApiMessage.t) :
  fold_left add_to_request msgs (system, api)
  = (fst (fold_left add_to_request msgs (system, [])),
     api ++ snd (fold_left add_to_request msgs (system, []))).
Proof.
  revert system api. induction msgs as [|m msgs IH]; intros system api.
  - cbn. now rewrite app_nil_r.
  - cbn [fold_left]. unfold add_to_request at 2 4 6.
    destruct (Message.role m); cbn [app];
      rewrite IH; try reflexivity;
      match goal with
      | |- context [fold_left add_to_request msgs (?s, [?x])] =>
          rewrite (IH s [x])
      end; cbn [fst snd]; now rewrite <- app_assoc.
Qed.

Lemma request_snd_system (msgs : list Message.t) (s1 s2 : str) (api : list ApiMessage.t) :
  snd (fold_left add_to_request msgs (s1, api))
  = snd (fold_left add_to_request msgs (s2, api)).
Proof.
  revert s1 s2 api. induction msgs as [|x msgs IH]; intros s1 s2 api; [reflexivity|].
  cbn [fold_left]. unfold add_to_request at 2 4.
  destruct (Message.role x); auto.
Qed.

(** The request messages of a buffer, turn by turn. *)
Lemma request_cons (m : Message.t) (msgs : list Message.t) :
  snd (request (m :: msgs))
  = snd (add_to_request ([], []) m) ++ snd (request msgs).
Proof.
  unfold request. cbn [fold_left].
  destruct (add_to_request ([], []) m) as [system api].
  rewrite request_fold. cbn [snd]. f_equal. apply request_snd_system.
Qed.

Lemma api_pairing_scan_app (pending : list str) (a b : list ApiMessage.t) :
  api_pairing_scan pending (a ++ b) =
  match api_pairing_scan pending a with
  | Some q => api_pairing_scan q b
  | None => None
  end.
Proof.
  revert pending. induction a as [|m a IH]; intros pending; simpl; [reflexivity|].
  destruct (api_pairing_step pending m); [apply IH|reflexivity].
Qed.

(** One turn of the buffer and its request message are scanned alike. *)
Lemma api_pairing_step_sim (pending q : list str) (m : Message.t) :
  pairing_step pending m = Some q ->
  api_pairing_scan pending (snd (add_to_request ([], []) m)) = Some q.
Proof.
  unfold pairing_step, add_to_request.
  destruct (Message.role m); cbn [snd app api_pairing_scan].
  - destruct pending; [|discriminate]. intros H. inversion H. reflexivity.
  - unfold api_pairing_step. cbn. destruct pending; [|discriminate].
    intros H. now inversion H.
  - destruct pending; [|discriminate]. intros H. inversion H; subst.
    assert (Hids : forall calls pre,
               (forall b, In b pre -> match b with ToolUse _ _ _ => False | _ => True end) ->
               flat_map (fun b => match b with ToolUse i _ _ => [i] | _ => [] end)
                 (pre ++ map (fun tc => ToolUse (ToolCall.id tc) (ToolCall.name tc)
                                          (ToolCall.arguments tc)) calls)
               = map ToolCall.id calls).
    { clear. intros calls pre Hpre. rewrite flat_map_app.
      replace (flat_map _ pre) with (@nil str).
      - induction calls as [|c calls IH]; [reflexivity|]. cbn. now rewrite <- IH.
      - induction pre as [|b pre IH]; [reflexivity|]. cbn.
        rewrite <- IH by (intros; apply Hpre; now right).
        specialize (Hpre b (or_introl eq_refl)). now destruct b. }
    unfold api_pairing_step. cbn [ApiMessage.content ApiMessage.role].
    destruct (Message.content m) as [|c text]; destruct (Message.tool_calls m) as [|tc calls];
      cbn; try reflexivity.
    + f_equal. f_equal.
      exact (Hids calls [] (fun b Hb => match Hb with end)).
    + f_equal. f_equal.
      exact (Hids calls [] (fun b Hb => match Hb with end)).
  - destruct (Message.tool_call_id m) as [i|]; [|discriminate].
    unfold api_pairing_step. cbn. intros H. now rewrite H.
Qed.

Lemma api_pairing_sim (msgs : list Message.t) (pending q : list str) :
  pairing_scan pending msgs = Some q ->
  api_pairing_scan pending (snd (request msgs)) = Some q.
Proof.
  revert pending. induction msgs as [|m msgs IH]; intros pending.
  - cbn. auto.
  - cbn [pairing_scan]. destruct (pairing_step pending m) as [p'|] eqn:S; [|discriminate].
    intros H. rewrite request_cons, api_pairing_scan_app.
    rewrite (api_pairing_step_sim _ _ _ S). now apply IH.
Qed.

Lemma request_system (s : Message.t) (rest : list Message.t) :
  Message.role s = SYSTEM ->
  Forall (fun m => Message.role m <> SYSTEM) rest ->
  fst (request (s :: rest)) = Message.content s
  /\ length (snd (request (s :: rest))) = length rest.
Proof.
  intros Hs Hr. unfold request. cbn [fold_left]. unfold add_to_request at 2 4.
  rewrite Hs. generalize (Message.content s) as system. intros system.
  assert (H : forall api,
             fst (fold_left add_to_request rest (system, api)) = system
             /\ length (snd (fold_left add_to_request rest (system, api)))
                = length api + length rest).
  { induction Hr as [|m rest Hm Hr IH]; intros api.
    - cbn. split; [reflexivity|lia].
    - cbn [fold_left]. unfold add_to_request at 2 4.
      destruct (Message.role m); [congruence| | |];
        match goal with
        | |- context [fold_left add_to_request rest (system, ?a)] =>
            destruct (IH a) as (H1 & H2)
        end; rewrite H1, H2, length_app; cbn; split; try reflexivity; lia. }
  destruct (H []) as (H1 & H2). now rewrite H1, H2.
Qed.

Lemma last_cons {A} (a d : A) (l : list A) : last (a :: l) d = last l a.
Proof.
  revert a d. induction l as [|b l IH]; intros a d; [reflexivity|].
  change (last (a :: b :: l) d) with (last (b :: l) d). rewrite !IH. reflexivity.
Qed.

Lemma reply_fold (blocks : list ReplyBlock) (text : str) (calls : list ToolCall.t) :
  fold_left add_reply_block blocks (text, calls)
  = (last (flat_map (fun b => match b with ReplyText t => [t] | _ => [] end) blocks) text,
     calls ++ flat_map (fun b => match b with
                                 | ReplyToolUse i n a => [ToolCall.mk i n a]
                                 | _ => []
                                 end) blocks).
Proof.
  revert text calls. induction blocks as [|b blocks IH]; intros text calls.
  - cbn. now rewrite app_nil_r.
  - cbn [fold_left]. unfold add_reply_block at 2. destruct b; rewrite IH; cbn [flat_map app].
    + now rewrite last_cons.
    + now rewrite <- app_assoc.
    + reflexivity.
Qed.

End AnthropicLemmas.

(** X17.  The request built for the Anthropic provider respects the pairing
    of the buffer: if the buffer satisfies the tool-pairing invariant, then
    in the request every assistant message's tool_use ids are answered by
    the user messages right after it, one tool_result each.  For a buffer
    whose only system turn is the first, the system argument is that turn's
    text and the request has one message per remaining turn. *)
Theorem anthropic_request_paired :
  forall (s : Message.t) (rest : list Message.t),
    Message.role s = SYSTEM ->
    Forall (fun m => Message.role m <> SYSTEM) rest ->
    tool_pairing (s :: rest) ->
    api_pairing_scan [] (snd (Anthropic.request (s :: rest))) = Some []
    /\ fst (Anthropic.request (s :: rest)) = Message.content s
    /\ length (snd (Anthropic.request (s :: rest))) = length rest.
Proof.
  intros s rest Hs Hr Hp. split.
  - now apply api_pairing_sim.
  - now apply request_system.
Qed.

Lemma anthropic_request_paired_witness :
  api_pairing_scan [] (snd (Anthropic.request (messages Scenario.paired_agent))) = Some []
  /\ fst (Anthropic.request (messages Scenario.paired_agent)) = system_prompt (py "/w")
  /\ length (snd (Anthropic.request (messages Scenario.paired_agent))) = 5.
Proof.
  apply (anthropic_request_paired Scenario.system_turn
           (tl (messages Scenario.paired_agent))).
  - reflexivity.
  - repeat constructor; discriminate.
  - reflexivity.
Defined.

(** X18.  Of the blocks of a reply the agent keeps the text of the last
    text block only (the empty text if there is none), and the tool_use
    blocks, in order, as the requested actions; blocks of other types are
    ignored. *)
Theorem anthropic_reply_parsed :
  forall blocks : list Anthropic.ReplyBlock,
    Message.role (Anthropic.parse_reply blocks) = ASSISTANT
    /\ Message.content (Anthropic.parse_reply blocks)
       = last (flat_map (fun b => match b with
                                  | Anthropic.ReplyText t => [t]
                                  | _ => []
                                  end) blocks) []
    /\ Message.tool_calls (Anthropic.parse_reply blocks)
       = flat_map (fun b => match b with
                            | Anthropic.ReplyToolUse i n a => [ToolCall.mk i n a]
                            | _ => []
                            end) blocks.
Proof.
  intros blocks. unfold Anthropic.parse_reply. rewrite reply_fold. cbn. auto.
Qed.

(* ================================================================= *)
(** ** The learnings reach the provider *)

Section Provider.

Lemma truncate_head_forall (P : Message.t -> Prop) (self : Agent) (focus : FocusState.t)
    (s u : Message.t) (rest : list Message.t) :
  messages self = s :: u :: rest ->
  Forall P rest ->
  exists rest',
    messages (truncate_to_safe_point self focus) = s :: u :: rest' /\ Forall P rest'.
Proof.
  intros Hm HP. rewrite truncate_messages, Hm.
  destruct (0 <? messages_to_drop self focus)%Z; [|now exists rest].
  pose proof (find_safe_at_least_min self (FocusState.start_message_index focus)) as Hk.
  destruct (_find_safe_truncation_point self (FocusState.start_message_index focus))
    as [|[|k]]; [unfold min_safe in Hk; lia..|].
  exists (firstn k rest). split; [reflexivity|].
  rewrite <- (firstn_skipn k rest) in HP. now apply Forall_app in HP.
Qed.

End Provider.

(** X19.  After a focus is completed on a buffer whose only system turn is
    the first, the system argument of the next request to the Anthropic
    provider contains the learnings of that completion. *)
Theorem learnings_reach_provider :
  forall (self : Agent) (focus_data : FocusData.t) (s u : Message.t)
         (rest : list Message.t),
    messages self = s :: u :: rest ->
    Forall (fun m => Message.role m <> SYSTEM) (u :: rest) ->
    _focus_stack self <> [] ->
    contains (FocusData.learnings focus_data)
      (fst (Anthropic.request (messages (fst (_handle_complete_focus self focus_data)))))
    = true.
Proof.
  intros self focus_data s u rest Hm Hr Hst.
  destruct (pop (_focus_stack self)) as [[focus stack']|] eqn:Hp;
    [|apply pop_nil_iff in Hp; contradiction].
  rewrite (handle_complete_focus_messages self focus_data focus stack' Hp).
  inversion Hr as [|? ? Hu Hrest]; subst.
  destruct (truncate_head_forall _ (record_learning self focus stack' focus_data) focus
              s u rest Hm Hrest) as (rest' & Ht & Hr').
  destruct (knowledge_in_system_turn _ s u rest'
              (KnowledgeEntry.mk (FocusState.description focus) (FocusState.goal focus)
                 (FocusData.outcome focus_data) (FocusData.learnings focus_data)) Ht)
    as (m0' & E & Hrole & Hc).
  { assert (Hk : _knowledge (truncate_to_safe_point
                               (record_learning self focus stack' focus_data) focus)
                 = _knowledge self ++ [KnowledgeEntry.mk (FocusState.description focus)
                                         (FocusState.goal focus)
                                         (FocusData.outcome focus_data)
                                         (FocusData.learnings focus_data)]).
    { unfold truncate_to_safe_point. now destruct (0 <? _)%Z. }
    rewrite Hk. apply in_or_app. right. now left. }
  rewrite E.
  change ((m0' :: u :: rest') ++ [Message.make USER (continuation focus focus_data)])
    with (m0' :: (u :: rest') ++ [Message.make USER (continuation focus focus_data)]).
  destruct (request_system m0'
              ((u :: rest') ++ [Message.make USER (continuation focus focus_data)]) Hrole)
    as (Hsys & _).
  { apply Forall_app. split; [now constructor|]. constructor; [discriminate|constructor]. }
  rewrite Hsys. exact Hc.
Qed.

Lemma learnings_reach_provider_witness :
  contains (py "X")
    (fst (Anthropic.request
            (messages (fst (_handle_complete_focus Cases.inner_agent Scenario.data_X)))))
  = true.
Proof.
  apply (learnings_reach_provider Cases.inner_agent Scenario.data_X
           Scenario.system_turn Scenario.task_turn
           (tl (tl (messages Cases.inner_agent)))).
  - reflexivity.
  - repeat constructor; discriminate.
  - discriminate.
Defined.

(* ================================================================= *)
(** ** The SWE-bench focus agent *)

Section SWELemmas.

Lemma swe_rebuild_same (self : Agent) :
  SWEFocus._rebuild_messages_with_knowledge self = _rebuild_messages_with_knowledge self.
Proof.
  unfold SWEFocus._rebuild_messages_with_knowledge, _rebuild_messages_with_knowledge.
  destruct (length (messages self) <? 2); [reflexivity|].
  destruct (messages self) as [|m0 others]; [reflexivity|].
  f_equal. f_equal. f_equal.
  unfold SWEFocus._build_knowledge_section, _build_knowledge_section.
  destruct (_knowledge self) as [|e l]; [reflexivity|].
  cbn [knowledge_lines join]. cbn [app nl]. reflexivity.
Qed.

Variable tools : list Tool.t.
Variable llm : nat -> list Message.t -> option LLMReply.t.
Variable extended_thinking : bool.

(** A batch that ends without completion has counted its calls to tools
    other than the focus tools; a completion resets the count. *)
Lemma swe_batch_count (calls : list ToolCall.t) (self self' : SWEFocus.t)
    (exit : BatchExit) :
  SWEFocus.handle_tool_calls tools self calls = (self', exit) ->
  match exit with
  | BatchDone =>
      SWEFocus._tool_calls_since_focus self'
      = SWEFocus._tool_calls_since_focus self
        + length (filter SWEFocus.counted (map ToolCall.name calls))
  | FocusCompleted => SWEFocus._tool_calls_since_focus self' = 0
  | BatchRaised => True
  end.
Proof.
  revert self. induction calls as [|call rest IH]; intros self.
  - cbn. intros H. inversion H; subst. cbn. lia.
  - cbn [SWEFocus.handle_tool_calls].
    destruct (SWEFocus._execute_tool_with_focus tools (SWEFocus.agent self)
                (ToolCall.name call) (ToolCall.arguments call) (ToolCall.id call))
      as [agent1 [result|]].
    + destruct (ToolResult.is_compression result).
      * intros H. inversion H; subst. reflexivity.
      * intros H. specialize (IH _ H). destruct exit; try exact IH.
        rewrite IH. cbn [SWEFocus._tool_calls_since_focus map filter].
        destruct (SWEFocus.counted (ToolCall.name call)); cbn [length]; lia.
    + intros H. inversion H; subst. exact I.
Qed.

End SWELemmas.

(** X20.  The SWE-bench focus agent splices the knowledge preamble exactly
    as the focus agent does: its section begins with the newline that its
    splice leaves out, so both write the same system turn. *)
Theorem swe_splice_agrees :
  forall self : Agent,
    SWEFocus._rebuild_messages_with_knowledge self = _rebuild_messages_with_knowledge self
    /\ (_knowledge self <> [] ->
        SWEFocus._build_knowledge_section self = nl ++ _build_knowledge_section self).
Proof.
  intros self. split; [apply swe_rebuild_same|].
  unfold SWEFocus._build_knowledge_section, _build_knowledge_section.
  destruct (_knowledge self) as [|e l]; [congruence|]. intros _.
  cbn [knowledge_lines join]. reflexivity.
Qed.

Lemma swe_splice_agrees_witness :
  SWEFocus._build_knowledge_section Scenario.spliced_once
  = nl ++ _build_knowledge_section Scenario.spliced_once.
Proof.
  refine (proj2 (swe_splice_agrees Scenario.spliced_once) _).
  discriminate.
Defined.

(** X21.  Both agents complete a focus alike: on the same state they leave
    the same ledger, stack and counters and the same buffer up to its last
    turn, the continuation, whose wording differs; with no focus open both
    fail alike and change nothing. *)
Theorem swe_completion_agrees :
  forall (self : Agent) (focus_data : FocusData.t),
    metrics (fst (SWEFocus._handle_complete_focus self focus_data))
    = metrics (fst (_handle_complete_focus self focus_data))
    /\ _focus_stack (fst (SWEFocus._handle_complete_focus self focus_data))
       = _focus_stack (fst (_handle_complete_focus self focus_data))
    /\ _knowledge (fst (SWEFocus._handle_complete_focus self focus_data))
       = _knowledge (fst (_handle_complete_focus self focus_data))
    /\ ToolResult.is_compression (snd (SWEFocus._handle_complete_focus self focus_data))
       = ToolResult.is_compression (snd (_handle_complete_focus self focus_data))
    /\ match pop (_focus_stack self) with
       | None =>
           SWEFocus._handle_complete_focus self focus_data
           = _handle_complete_focus self focus_data
       | Some (focus, _) =>
           exists base,
             messages (fst (SWEFocus._handle_complete_focus self focus_data))
             = base ++ [Message.make USER (SWEFocus.continuation focus focus_data)]
             /\ messages (fst (_handle_complete_focus self focus_data))
                = base ++ [Message.make USER (continuation focus focus_data)]
       end.
Proof.
  intros self focus_data.
  unfold SWEFocus._handle_complete_focus, _handle_complete_focus.
  destruct (pop (_focus_stack self)) as [[focus stack']|].
  - rewrite swe_rebuild_same. cbn [fst snd]. repeat split.
    eexists. split; reflexivity.
  - repeat split.
Qed.

(** X22.  In a step of the SWE-bench focus agent that goes on to the next
    iteration (the reply does not contain TASK_COMPLETE and no tool raises)
    and whose reply requests actions, the count of tool calls since the last
    completed focus either drops to 0, when the batch completed a focus, or
    grows by the number of requested calls to tools other than the focus
    tools; and whenever the count such a step leaves is 15 or more, the step
    has appended the reminder turn last. *)
Theorem swe_reminder :
  forall (tools : list Tool.t) (llm : nat -> list Message.t -> option LLMReply.t)
         (extended_thinking : bool) (self self' : SWEFocus.t) (step : nat)
         (reply : LLMReply.t),
    llm (AgentMetrics.llm_calls (metrics (SWEFocus.agent self)))
      (messages (SWEFocus.agent self)) = Some reply ->
    LLMReply.tool_calls reply <> [] ->
    SWEFocus.run_step tools llm extended_thinking self step = (self', SWEFocus.Continue) ->
    (SWEFocus._tool_calls_since_focus self' = 0
     \/ SWEFocus._tool_calls_since_focus self'
        = SWEFocus._tool_calls_since_focus self
          + length (filter SWEFocus.counted (map ToolCall.name (LLMReply.tool_calls reply))))
    /\ (SWEFocus._reminder_threshold <= SWEFocus._tool_calls_since_focus self' ->
        exists before,
          messages (SWEFocus.agent self')
          = before ++ [Message.make USER SWEFocus.FOCUS_REMINDER]).
Proof.
  intros tools llm extended_thinking self self' step reply Hl Hc.
  unfold SWEFocus.run_step, _call_llm. rewrite Hl.
  cbn [Message.content Message.tool_calls].
  destruct (contains TASK_COMPLETE (LLMReply.content reply)); [discriminate|].
  destruct (LLMReply.tool_calls reply) as [|call calls] eqn:C; [congruence|].
  match goal with
  | |- context [SWEFocus.handle_tool_calls tools ?s (call :: calls)] => set (self3 := s)
  end.
  destruct (SWEFocus.handle_tool_calls tools self3 (call :: calls)) as [self4 exit] eqn:E.
  pose proof (swe_batch_count tools (call :: calls) self3 self4 exit E) as Hn.
  destruct exit.
  - change (SWEFocus._tool_calls_since_focus self3)
      with (SWEFocus._tool_calls_since_focus self) in Hn.
    destruct (SWEFocus._reminder_threshold <=? SWEFocus._tool_calls_since_focus self4) eqn:T;
      intros H; inversion H; subst; cbn [SWEFocus._tool_calls_since_focus SWEFocus.agent].
    + split; [now right|]. intros _. eexists. reflexivity.
    + split; [now right|]. apply Nat.leb_gt in T. intros Hge. lia.
  - intros H. inversion H; subst. split; [now left|].
    rewrite Hn. unfold SWEFocus._reminder_threshold. intros Hge. lia.
  - discriminate.
Qed.

Lemma swe_reminder_witness :
  exists self',
    SWEFocus.run_step [Cases.echo_tool] SWECases.llm_echo false SWECases.busy_agent 7
    = (self', SWEFocus.Continue)
    /\ SWEFocus._tool_calls_since_focus self' = 15
    /\ exists before,
        messages (SWEFocus.agent self')
        = before ++ [Message.make USER SWEFocus.FOCUS_REMINDER].
Proof.
  destruct (swe_reminder [Cases.echo_tool] SWECases.llm_echo false SWECases.busy_agent
              (fst (SWEFocus.run_step [Cases.echo_tool] SWECases.llm_echo false
                      SWECases.busy_agent 7))
              7 (LLMReply.mk (py "next") [SWECases.ask_echo_hi] 3 1) eq_refl)
    as [_ H]; [discriminate|reflexivity|].
  eexists. split; [reflexivity|]. split; [reflexivity|].
  apply H. unfold SWEFocus._reminder_threshold. cbn. lia.
Defined.


(* ================================================================= *)
(** ** The Docker configuration *)

Section DockerLemmas.

Lemma get_set_item (k v : str) (environ : Config.Environ) :
  get k (Config.set_item k v environ) = Some v.
Proof.
  induction environ as [|[k' v'] rest IH]; simpl.
  - now rewrite eqb_refl.
  - destruct (PyStr.eqb k k') eqn:E; simpl; rewrite ?eqb_refl, ?E; auto.
Qed.

Lemma set_item_twice (k v : str) (environ : Config.Environ) :
  Config.set_item k v (Config.set_item k v environ) = Config.set_item k v environ.
Proof.
  induction environ as [|[k' v'] rest IH]; simpl.
  - now rewrite eqb_refl.
  - destruct (PyStr.eqb k k') eqn:E; simpl; rewrite ?eqb_refl, ?E, ?IH; auto.
Qed.

Lemma get_docker_socket_unix (path_exists : str -> bool) (expanduser : str -> str)
    (environ : Config.Environ) (socket : str) :
  get Config.DOCKER_HOST environ = Some (py "unix://" ++ socket) ->
  Config.get_docker_socket path_exists expanduser environ = Some socket.
Proof.
  intros H. unfold Config.get_docker_socket. rewrite H.
  now rewrite startswith_app.
Qed.

Lemma setup_docker_env_success (path_exists : str -> bool) (expanduser : str -> str)
    (environ environ' : Config.Environ) :
  Config.setup_docker_env path_exists expanduser environ = (environ', true) ->
  exists c socket,
    Config.get_docker_socket path_exists expanduser environ = Some (c :: socket)
    /\ environ'
       = Config.set_item Config.DOCKER_HOST (py "unix://" ++ c :: socket) environ.
Proof.
  unfold Config.setup_docker_env.
  destruct (Config.get_docker_socket path_exists expanduser environ)
    as [[|c socket]|]; intros H; try discriminate.
  exists c, socket. split; [reflexivity|]. now inversion H.
Qed.

End DockerLemmas.

(** X23: once [setup_docker_env] has succeeded, the socket it found is not
    empty, [DOCKER_HOST] holds it behind [unix://], [get_docker_socket] finds
    the same socket again, and a second [setup_docker_env] succeeds and leaves
    the environment as it is. *)
Theorem docker_setup_settles (path_exists : str -> bool) (expanduser : str -> str)
    (environ environ' : Config.Environ) :
  Config.setup_docker_env path_exists expanduser environ = (environ', true) ->
  exists socket,
    socket <> []
    /\ Config.get_docker_socket path_exists expanduser environ = Some socket
    /\ get Config.DOCKER_HOST environ' = Some (py "unix://" ++ socket)
    /\ Config.get_docker_socket path_exists expanduser environ' = Some socket
    /\ Config.setup_docker_env path_exists expanduser environ' = (environ', true).
Proof.
  intros H.
  destruct (setup_docker_env_success _ _ _ _ H) as (c & socket & E & ->).
  exists (c :: socket).
  assert (G : get Config.DOCKER_HOST
                (Config.set_item Config.DOCKER_HOST (py "unix://" ++ c :: socket) environ)
              = Some (py "unix://" ++ c :: socket)) by apply get_set_item.
  pose proof (get_docker_socket_unix path_exists expanduser _ _ G) as S.
  split; [discriminate|]. split; [exact E|]. split; [exact G|].
  split; [exact S|].
  unfold Config.setup_docker_env. rewrite S. now rewrite set_item_twice.
Qed.

Lemma docker_setup_settles_witness :
  exists socket,
    socket <> []
    /\ Config.get_docker_socket (fun _ => false) (fun p => p) LoaderCases.environ = Some socket
    /\ get Config.DOCKER_HOST
         (fst (Config.setup_docker_env (fun _ => false) (fun p => p) LoaderCases.environ))
       = Some (py "unix://" ++ socket)
    /\ Config.get_docker_socket (fun _ => false) (fun p => p)
         (fst (Config.setup_docker_env (fun _ => false) (fun p => p) LoaderCases.environ))
       = Some socket
    /\ Config.setup_docker_env (fun _ => false) (fun p => p)
         (fst (Config.setup_docker_env (fun _ => false) (fun p => p) LoaderCases.environ))
       = (fst (Config.setup_docker_env (fun _ => false) (fun p => p) LoaderCases.environ),
          true).
Proof.
  apply (docker_setup_settles (fun _ => false) (fun p => p) LoaderCases.environ).
  reflexivity.
Defined.

(** X24: a [DOCKER_HOST] that is set, not empty and not a [unix://] address
    is taken for a socket path whatever the file system holds:
    [setup_docker_env] succeeds and puts [unix://] in front of it. *)
Theorem docker_host_prefixed (path_exists : str -> bool) (expanduser : str -> str)
    (environ : Config.Environ) (host : str) :
  get Config.DOCKER_HOST environ = Some host ->
  host <> [] ->
  startswith host (py "unix://") = false ->
  Config.get_docker_socket path_exists expanduser environ = Some host
  /\ Config.setup_docker_env path_exists expanduser environ
     = (Config.set_item Config.DOCKER_HOST (py "unix://" ++ host) environ, true).
Proof.
  intros G N P.
  assert (S : Config.get_docker_socket path_exists expanduser environ = Some host).
  { unfold Config.get_docker_socket. now rewrite G, P. }
  split; [exact S|].
  unfold Config.setup_docker_env. rewrite S.
  destruct host; [congruence|reflexivity].
Qed.

Lemma docker_host_prefixed_witness :
  Config.get_docker_socket (fun _ => true) (fun p => p) LoaderCases.environ
  = Some (py "tcp://h:2375")
  /\ Config.setup_docker_env (fun _ => true) (fun p => p) LoaderCases.environ
     = (Config.set_item Config.DOCKER_HOST (py "unix://" ++ py "tcp://h:2375")
          LoaderCases.environ, true).
Proof.
  apply (docker_host_prefixed (fun _ => true) (fun p => p) LoaderCases.environ
           (py "tcp://h:2375")); [reflexivity|discriminate|reflexivity].
Defined.

(* ================================================================= *)
(** ** The benchmark loader *)

Section LoaderLemmas.

Lemma instance_of_id (item : Args) (instance : SWEBench.Instance.t) :
  built item instance ->
  get (py "instance_id") item = Some (SWEBench.Instance.instance_id instance).
Proof.
  unfold built, SWEBench.instance_of.
  destruct (get (py "instance_id") item); [|discriminate].
  destruct (get (py "repo") item); [|discriminate].
  destruct (get (py "base_commit") item); [|discriminate].
  destruct (get (py "problem_statement") item); [|discriminate].
  destruct (get (py "patch") item); [|discriminate].
  destruct (get (py "test_patch") item); [|discriminate].
  intros H. inversion H. reflexivity.
Qed.

Lemma load_loop_limit (limit : option Z) (dataset : list Args)
    (instances : list SWEBench.Instance.t) :
  Forall2 built dataset instances ->
  forall acc,
    SWEBench.load_loop None limit dataset acc
    = Some (match limit with
            | None => acc ++ instances
            | Some l =>
                if (l =? 0)%Z then acc ++ instances
                else acc ++ firstn (Z.to_nat l - length acc) instances
            end).
Proof.
  induction 1 as [|item inst dataset instances B F IH]; intros acc.
  - cbn [SWEBench.load_loop].
    destruct limit as [l|]; [destruct (l =? 0)%Z|];
      now rewrite ?firstn_nil, app_nil_r.
  - cbn [SWEBench.load_loop]. unfold built in B. rewrite B.
    destruct limit as [l|].
    + destruct (l =? 0)%Z eqn:Z0; cbn [negb andb].
      * rewrite IH, <- app_assoc. reflexivity.
      * destruct (l <=? Z.of_nat (length acc))%Z eqn:L.
        -- apply Z.leb_le in L.
           replace (Z.to_nat l - length acc) with 0 by lia.
           simpl. now rewrite app_nil_r.
        -- apply Z.leb_gt in L.
           rewrite IH, <- app_assoc, length_app. simpl.
           replace (Z.to_nat l - length acc) with (S (Z.to_nat l - (length acc + 1))) by lia.
           reflexivity.
    + rewrite IH, <- app_assoc. reflexivity.
Qed.

Lemma load_loop_ids (limit : option Z) (ids : list str) (dataset : list Args)
    (instances : list SWEBench.Instance.t) :
  Forall2 built dataset instances ->
  forall acc,
    length acc < length ids ->
    SWEBench.load_loop (Some ids) limit dataset acc
    = Some (acc ++ firstn (length ids - length acc) (filter (wanted ids) instances)).
Proof.
  induction 1 as [|item inst dataset instances B F IH]; intros acc L.
  - cbn [SWEBench.load_loop filter]. now rewrite firstn_nil, app_nil_r.
  - cbn [SWEBench.load_loop filter].
    rewrite (instance_of_id _ _ B). unfold built in B. rewrite B.
    unfold wanted at 1.
    destruct (existsb (PyStr.eqb (SWEBench.Instance.instance_id inst)) ids) eqn:W.
    + rewrite length_app. simpl.
      destruct (length acc + 1 =? length ids) eqn:E.
      * apply Nat.eqb_eq in E.
        replace (length ids - length acc) with 1 by lia. reflexivity.
      * apply Nat.eqb_neq in E.
        rewrite IH by (rewrite length_app; simpl; lia).
        rewrite <- app_assoc, length_app. simpl.
        replace (length ids - length acc) with (S (length ids - (length acc + 1))) by lia.
        reflexivity.
    + now apply IH.
Qed.

Lemma existsb_nodup (i : str) (ids : list str) :
  existsb (PyStr.eqb i) (nodup (list_eq_dec N.eq_dec) ids) = existsb (PyStr.eqb i) ids.
Proof.
  apply eq_true_iff_eq. rewrite !existsb_exists.
  split; intros [x [I E]]; exists x; split; auto;
    [now apply nodup_In in I | now apply nodup_In].
Qed.

Lemma filter_wanted_nodup (ids : list str) (instances : list SWEBench.Instance.t) :
  filter (wanted (nodup (list_eq_dec N.eq_dec) ids)) instances
  = filter (wanted ids) instances.
Proof.
  apply filter_ext. intros a. apply existsb_nodup.
Qed.

End LoaderLemmas.

(** X25: without instance ids (none, or an empty list) and with every item of
    the dataset carrying the required keys, [load_swebench_lite] returns the
    instances of the items in order: all of them when no limit or the limit 0
    is given, the first [limit] of them for a positive limit, none for a
    negative one. *)
Theorem load_respects_limit (dataset : list Args) (instances : list SWEBench.Instance.t)
    (limit : option Z) (instance_ids : option (list str)) :
  Forall2 (fun item instance => SWEBench.instance_of item = Some instance)
    dataset instances ->
  instance_ids = None \/ instance_ids = Some [] ->
  SWEBench.load_swebench_lite dataset limit instance_ids
  = Some (match limit with
          | None => instances
          | Some l => if (l =? 0)%Z then instances else firstn (Z.to_nat l) instances
          end).
Proof.
  intros F I. unfold SWEBench.load_swebench_lite.
  replace (SWEBench.target_set instance_ids) with (@None (list str))
    by (destruct I; subst; reflexivity).
  rewrite (load_loop_limit limit dataset instances F []). cbn [app length].
  destruct limit as [l|]; [|reflexivity].
  now rewrite Nat.sub_0_r.
Qed.

Lemma load_respects_limit_witness :
  SWEBench.load_swebench_lite LoaderCases.dataset (Some 2%Z) (Some [])
  = Some (firstn 2 LoaderCases.instances).
Proof.
  apply (load_respects_limit LoaderCases.dataset LoaderCases.instances (Some 2%Z) (Some [])).
  - repeat constructor.
  - right. reflexivity.
Defined.

(** X26: with a non-empty list of instance ids and every item of the dataset
    carrying the required keys, [load_swebench_lite] ignores the limit and
    returns, in the order of the dataset, the instances whose id is requested,
    cut after as many of them as there are distinct requested ids. *)
Theorem load_selects_ids (dataset : list Args) (instances : list SWEBench.Instance.t)
    (limit : option Z) (instance_ids : list str) :
  Forall2 (fun item instance => SWEBench.instance_of item = Some instance)
    dataset instances ->
  instance_ids <> [] ->
  SWEBench.load_swebench_lite dataset limit (Some instance_ids)
  = Some (firstn (length (nodup (list_eq_dec N.eq_dec) instance_ids))
            (filter
               (fun instance =>
                  existsb (PyStr.eqb (SWEBench.Instance.instance_id instance)) instance_ids)
               instances)).
Proof.
  intros F N. unfold SWEBench.load_swebench_lite.
  destruct instance_ids as [|i ids]; [congruence|].
  cbn [SWEBench.target_set].
  rewrite (load_loop_ids limit _ dataset instances F []).
  - cbn [app length]. rewrite Nat.sub_0_r, filter_wanted_nodup. reflexivity.
  - cbn [length].
    destruct (nodup (list_eq_dec N.eq_dec) (i :: ids)) eqn:E; simpl; [|lia].
    exfalso. assert (In i (nodup (list_eq_dec N.eq_dec) (i :: ids)))
      by (apply nodup_In; now left).
    rewrite E in H. contradiction.
Qed.

Lemma load_selects_ids_witness :
  SWEBench.load_swebench_lite LoaderCases.dataset (Some 1%Z) (Some [py "b"; py "c"; py "b"])
  = Some [LoaderCases.instance (py "b"); LoaderCases.instance (py "c")].
Proof.
  apply (load_selects_ids LoaderCases.dataset LoaderCases.instances (Some 1%Z)
           [py "b"; py "c"; py "b"]).
  - repeat constructor.
  - discriminate.
Defined.
